(** * youtube_finder: the credential-rotating, paginated API-call engine

    A shallow embedding of the key manager, the quota probe, the rotating
    call executor ([api_call]), the search paginator ([search_youtube_all])
    and the duration classifier ([parse_iso_duration], [classify_videos]) of
    [youtube_finder.py], followed by the properties proved about them.

    Conventions of the embedding.
    - Python [str] is [string]; a character is a code point below 256.
    - Python [int] is [Z]; list positions and lengths are [nat].
    - The remote API is an abstract world with one transition function, so
      every statement holds for every remote, stateful or not.
    - [print] and the remote calls are recorded as events, in program order. *)

From Stdlib Require Import List String Ascii ZArith Arith Bool Lia.
From Stdlib Require Import Permutation.
Import ListNotations.
Local Open Scope string_scope.
Local Open Scope list_scope.
Local Open Scope nat_scope.

(* ===================================================================== *)
(** ** Strings as Python sees them *)
(* ===================================================================== *)

Module PyStr.

(** [\d] on code points below 256: the ten ASCII digits. *)
Definition is_digit (c : ascii) : bool :=
  let n := nat_of_ascii c in (48 <=? n) && (n <=? 57).

Definition digit_val (c : ascii) : Z := Z.of_nat (nat_of_ascii c) - 48.

(** [str.isspace] on code points below 256. *)
Definition is_space (c : ascii) : bool :=
  let n := nat_of_ascii c in
  ((9 <=? n) && (n <=? 13)) || ((28 <=? n) && (n <=? 32))
  || (n =? 133) || (n =? 160).

Fixpoint lstrip (s : string) : string :=
  match s with
  | String c s' => if is_space c then lstrip s' else s
  | EmptyString => EmptyString
  end.

Fixpoint rstrip (s : string) : string :=
  match s with
  | String c s' =>
      match rstrip s' with
      | EmptyString => if is_space c then EmptyString else String c EmptyString
      | r => String c r
      end
  | EmptyString => EmptyString
  end.

(** [s.strip()] *)
Definition strip (s : string) : string := rstrip (lstrip s).

(** Truth value of a [str]: the empty string is false. *)
Definition truthy (s : string) : bool :=
  match s with EmptyString => false | _ => true end.

(** Truth value of a value that is [None] or a [str]. *)
Definition truthy_opt (o : option string) : bool :=
  match o with Some s => truthy s | None => false end.

(** [int(ds)] for a string of decimal digits. *)
Definition int_of_digits (ds : string) : Z :=
  fold_left (fun acc c => 10 * acc + digit_val c)%Z (list_ascii_of_string ds) 0%Z.

(** The longest prefix of digits, and what follows it: greedy [\d*]. *)
Fixpoint span_digits (s : string) : string * string :=
  match s with
  | String c s' =>
      if is_digit c
      then let (ds, rest) := span_digits s' in (String c ds, rest)
      else (EmptyString, s)
  | EmptyString => (EmptyString, EmptyString)
  end.

(** [s[-6:]] *)
Definition last6 (s : string) : string :=
  substring (String.length s - 6) 6 s.

(** [','.join(l)] *)
Fixpoint join (sep : string) (l : list string) : string :=
  match l with
  | [] => EmptyString
  | [x] => x
  | x :: rest => x ++ sep ++ join sep rest
  end.

End PyStr.

(** The longest numeral [int()] converts under CPython's default setting
    ([sys.int_info.default_max_str_digits]); a numeral with more digits makes
    [int()] raise [ValueError]. *)
Definition int_max_str_digits : nat := 4300.

(* ===================================================================== *)
(** ** parse_iso_duration *)
(* ===================================================================== *)

(** One optional component [(?:(\d+)X)?] of the pattern, matched at the head
    of [s]: the captured digits (or nothing) and the unconsumed input.  The
    digits are taken greedily; when the unit letter does not follow them no
    shorter run of digits can be followed by it either, so the group is
    skipped and the position is unchanged. *)
Definition opt_component (unit_letter : ascii) (s : string) : option string * string :=
  match PyStr.span_digits s with
  | (EmptyString, _) => (None, s)
  | (ds, String c rest) =>
      if Ascii.eqb c unit_letter then (Some ds, rest) else (None, s)
  | (_, EmptyString) => (None, s)
  end.

(** [re.match(r'PT(?:(\d+)H)?(?:(\d+)M)?(?:(\d+)S)?', s)]: the three groups
    when the match succeeds.  [re.match] anchors at the start only. *)
Definition match_duration (s : string) : option (option string * option string * option string) :=
  match s with
  | String "P" (String "T" s0) =>
      let (h, s1) := opt_component "H" s0 in
      let (m, s2) := opt_component "M" s1 in
      let (sec, _) := opt_component "S" s2 in
      Some (h, m, sec)
  | _ => None
  end.

(** [int(g or 0)] for a group [g]. *)
Definition int_or_0 (g : option string) : Z :=
  match g with
  | Some ds => if PyStr.truthy ds then PyStr.int_of_digits ds else 0%Z
  | None => 0%Z
  end.

(** [parse_iso_duration(iso)]; [None] stands for Python's [None]. *)
Definition parse_iso_duration (iso : option string) : Z :=
  let s := if PyStr.truthy_opt iso then match iso with Some s => s | None => "" end else "" in
  match match_duration s with
  | None => 0%Z
  | Some (h, m, sec) => (int_or_0 h * 3600 + int_or_0 m * 60 + int_or_0 sec)%Z
  end.

(* ===================================================================== *)
(** ** KEY MANAGER *)
(* ===================================================================== *)

(** What [open(path)] gives: the lines of the file as the iterator yields
    them, or [FileNotFoundError]. *)
Inductive FileRead :=
| FileNotFound
| FileLines (lines : list string).

Module KeyManager.

(** The object's two attributes. *)
Record t := mk { keys : list string; idx : nat }.

(** [_load]: the stripped non-blank lines; [None] is [sys.exit(1)], taken
    when the file is missing or holds no key. *)
Definition _load (f : FileRead) : option (list string) :=
  match f with
  | FileNotFound => None
  | FileLines lines =>
      let keys :=
        map PyStr.strip (filter (fun line => PyStr.truthy (PyStr.strip line)) lines) in
      match keys with
      | [] => None
      | _ => Some keys
      end
  end.

(** [__init__]: the cursor starts at the first key.  (The message with the
    number of keys loaded is not part of the model.) *)
Definition init (f : FileRead) : option t :=
  match _load f with
  | Some ks => Some (mk ks 0)
  | None => None
  end.

(** [key]: [self.keys[self.idx]]; [None] is the [IndexError] of a cursor
    outside the list. *)
Definition key (km : t) : option string := nth_error (keys km) (idx km).

(** [rotate], the cursor update: [(self.idx + 1) % len(self.keys)]; [None]
    is the [ZeroDivisionError] of an empty list. *)
Definition rotate (km : t) : option t :=
  match keys km with
  | [] => None
  | _ => Some (mk (keys km) ((idx km + 1) mod List.length (keys km)))
  end.

(** The assignment [km.idx = i]. *)
Definition set_idx (i : nat) (km : t) : t := mk (keys km) i.

(** The pool invariant: the cursor is a position of the list, which is
    therefore not empty. *)
Definition valid (km : t) : Prop := idx km < List.length (keys km).

Definition validb (km : t) : bool := idx km <? List.length (keys km).

End KeyManager.

(* ===================================================================== *)
(** ** Requests, replies and events *)
(* ===================================================================== *)

Inductive Endpoint := SearchList | ChannelsList | VideosList.

Inductive Param :=
| PStr (s : string)
| PInt (z : Z).

(** A request before it is bound to a credential: the endpoint and the
    keyword arguments of its [list(...)] call, in insertion order. *)
Record Request := mkRequest { endpoint : Endpoint; params : list (string * Param) }.

(** The [id] of a resource: a plain string in a [videos().list] reply, an
    object with an optional [videoId] in a [search().list] reply. *)
Inductive IdVal :=
| IdStr (s : string)
| IdObj (videoId : option string).

Record Snippet := mkSnippet { sn_title : string }.

Record ContentDetails := mkContentDetails { cd_duration : option string }.

(** One element of [items].  Keys read with [.get] are optional, keys read
    by subscript are present. *)
Record Item := mkItem {
  it_id : IdVal;
  it_snippet : Snippet;
  it_contentDetails : option ContentDetails }.

Record PageInfo := mkPageInfo { pi_totalResults : option Z }.

(** A parsed reply, a [dict].  [r_kind] stands for the keys the engine never
    reads ([kind], [etag], ...): a reply that has any of them is a non-empty
    dictionary. *)
Record Response := mkResponse {
  r_kind : option string;
  r_pageInfo : option PageInfo;
  r_nextPageToken : option string;
  r_items : option (list Item) }.

(** What one attempt yields: the parsed reply, an [HttpError] with its
    [resp.status] and text, or any other exception with its text. *)
Inductive Outcome :=
| Success (r : Response)
| HttpError (status : Z) (msg : string)
| OtherError (msg : string).

(** The status shown for one key by the quota check. *)
Inductive KeyStatus :=
| Active
| QuotaExhausted
| InvalidKey
| HttpStatus (code : Z)
| ErrorStatus (msg : string).

(** [totalResults] as captured: the number, or the default ['?']. *)
Inductive Total :=
| TotalKnown (z : Z)
| TotalUnknown.

(** What the program does that the outside can see: the remote calls (with
    the credential used and the outcome) and the lines printed. *)
Inductive Event :=
| Call (key : string) (req : Request) (o : Outcome)
| PrintSwitched (n : nat)
| PrintKeyError (tail : string) (code : Z)
| PrintHttp (code : Z) (msg : string)
| PrintError (msg : string)
| PrintExhausted
| PrintQuotaHeader
| PrintKeyStatus (n : nat) (tail : string) (s : KeyStatus)
| PrintUsing (n : nat)
| PrintNoActive
| PrintBlank
| PrintTotal (t : Total)
| PrintFetched (n : nat).

(** An entry of the long or short list. *)
Record Entry := mkEntry { e_videoId : IdVal; e_title : string; e_seconds : Z }.

(** A channel video as [fetch_all_channel_videos] lists it. *)
Record Video := mkVideo { v_videoId : string; v_title : string; v_publishedAt : string }.

(** The [filters] dictionary of a search. *)
Record Filters := mkFilters {
  f_duration : string;
  f_definition : string;
  f_published_after : option string;
  f_language : option string;
  f_page_size : Z }.

(** Truth value of a reply: an empty dictionary is false. *)
Definition resp_truthy (r : Response) : bool :=
  match r_kind r, r_pageInfo r, r_nextPageToken r, r_items r with
  | None, None, None, None => false
  | _, _, _, _ => true
  end.

(** [not resp], where [resp] is [None] or a reply. *)
Definition not_resp (resp : option Response) : bool :=
  match resp with
  | None => true
  | Some r => negb (resp_truthy r)
  end.

(** [resp.get('items', [])] *)
Definition resp_items (r : Response) : list Item :=
  match r_items r with Some l => l | None => [] end.

(** [resp.get('pageInfo', {}).get('totalResults', '?')] *)
Definition resp_total (r : Response) : Total :=
  match r_pageInfo r with
  | Some p => match pi_totalResults p with Some z => TotalKnown z | None => TotalUnknown end
  | None => TotalUnknown
  end.

(** [code in (403, 429, 400)] *)
Definition rotating_status (code : Z) : bool :=
  (code =? 403)%Z || (code =? 429)%Z || (code =? 400)%Z.

(** The outcomes on which the executor rotates. *)
Definition credential_failure (o : Outcome) : bool :=
  match o with
  | HttpError code _ => rotating_status code
  | _ => false
  end.

Definition is_success (o : Outcome) : bool :=
  match o with Success _ => true | _ => false end.

(* ===================================================================== *)
(** ** The engine, over an arbitrary remote *)
(* ===================================================================== *)

(** How a run of a procedure ends: with a value, with an uncaught exception,
    or not within the number of loop iterations granted. *)
Inductive Run (A : Type) :=
| Done (a : A)
| Raised (exn : string)
| OutOfFuel.
Arguments Done {A} a.
Arguments Raised {A} exn.
Arguments OutOfFuel {A}.

Section Engine.

(** The remote API: a state and what one request, sent with one credential,
    does to it.  Building the service object and the request, sending it and
    parsing the reply are one step; whatever goes wrong is its [Outcome]. *)
Variable World : Type.
Variable execute : World -> string -> Request -> Outcome * World.

(** The mutable state a procedure runs in: the key manager object it is
    handed and the remote. *)
Record St := mkSt { st_km : KeyManager.t; st_world : World }.

(** A procedure: from a state to how it ends, the state it leaves and the
    events it produced, oldest first. *)
Definition M (A : Type) : Type := St -> Run A * St * list Event.

Definition ret {A} (a : A) : M A := fun s => (Done a, s, []).

Definition bind {A B} (m : M A) (f : A -> M B) : M B :=
  fun s =>
    match m s with
    | (Done a, s1, e1) =>
        match f a s1 with
        | (r, s2, e2) => (r, s2, e1 ++ e2)
        end
    | (Raised x, s1, e1) => (Raised x, s1, e1)
    | (OutOfFuel, s1, e1) => (OutOfFuel, s1, e1)
    end.

Notation "x <- m ;; k" := (bind m (fun x => k))
  (at level 61, m at next level, right associativity).
Notation "m ;;; k" := (bind m (fun _ => k))
  (at level 61, right associativity).

Definition raise {A} (x : string) : M A := fun s => (Raised x, s, []).

Definition out_of_fuel {A} : M A := fun s => (OutOfFuel, s, []).

Definition print (e : Event) : M unit := fun s => (Done tt, s, [e]).

Definition get_km : M KeyManager.t := fun s => (Done (st_km s), s, []).

Definition set_km (km : KeyManager.t) : M unit :=
  fun s => (Done tt, mkSt km (st_world s), []).

(** One request sent with one credential. *)
Definition call (key : string) (req : Request) : M Outcome :=
  fun s =>
    let (o, w) := execute (st_world s) key req in
    (Done o, mkSt (st_km s) w, [Call key req o]).

(** [km.rotate()]: the cursor update and its message. *)
Definition rotate : M unit :=
  km <- get_km ;;
  match KeyManager.rotate km with
  | None => raise "ZeroDivisionError"
  | Some km' =>
      set_km km' ;;;
      print (PrintSwitched (KeyManager.idx km' + 1))
  end.

(** *** check_key_quotas *)

(** The lightweight call: [search().list(part="id", q="test", maxResults=1)]. *)
Definition probe_request : Request :=
  mkRequest SearchList [("part", PStr "id"); ("q", PStr "test"); ("maxResults", PInt 1)].

(** The status line of one key. *)
Definition probe_status (o : Outcome) : KeyStatus :=
  match o with
  | Success _ => Active
  | HttpError code _ =>
      if ((code =? 403) || (code =? 429))%Z then QuotaExhausted
      else if (code =? 400)%Z then InvalidKey
      else HttpStatus code
  | OtherError msg => ErrorStatus msg
  end.

(** The [for i, api_key in enumerate(km.keys)] loop, from position [i]. *)
Fixpoint probe_keys (i : nat) (ks : list string) (first_valid : option nat)
  : M (option nat) :=
  match ks with
  | [] => ret first_valid
  | api_key :: rest =>
      o <- call api_key probe_request ;;
      let first_valid' :=
        match o, first_valid with
        | Success _, None => Some i
        | _, _ => first_valid
        end in
      print (PrintKeyStatus (i + 1) (PyStr.last6 api_key) (probe_status o)) ;;;
      probe_keys (S i) rest first_valid'
  end.

(** [check_key_quotas(km)].  The body has no [return] statement: the call
    evaluates to [None] whatever it found. *)
Definition check_key_quotas : M (option nat) :=
  print PrintQuotaHeader ;;;
  km <- get_km ;;
  first_valid <- probe_keys 0 (KeyManager.keys km) None ;;
  match first_valid with
  | Some i =>
      km <- get_km ;;
      set_km (KeyManager.set_idx i km) ;;;
      print (PrintUsing (i + 1))
  | None => print PrintNoActive
  end ;;;
  print PrintBlank ;;;
  ret None.

(** *** api_call *)

(** The [while attempts < len(km.keys)] loop.  [fuel] bounds the number of
    iterations; [api_call] grants more than the loop can use. *)
Fixpoint api_call_loop (fuel : nat) (build_fn : Request) (attempts : nat)
  : M (option Response) :=
  match fuel with
  | 0 => out_of_fuel
  | S fuel' =>
      km <- get_km ;;
      if attempts <? List.length (KeyManager.keys km) then
        match KeyManager.key km with
        | None =>
            (* IndexError inside the try block: caught by [except Exception] *)
            print (PrintError "list index out of range") ;;;
            ret None
        | Some k =>
            o <- call k build_fn ;;
            match o with
            | Success r => ret (Some r)
            | HttpError code msg =>
                if rotating_status code then
                  print (PrintKeyError (PyStr.last6 k) code) ;;;
                  rotate ;;;
                  api_call_loop fuel' build_fn (attempts + 1)
                else
                  print (PrintHttp code msg) ;;;
                  ret None
            | OtherError msg =>
                print (PrintError msg) ;;;
                ret None
            end
        end
      else
        print PrintExhausted ;;;
        ret None
  end.

Definition api_call (build_fn : Request) : M (option Response) :=
  km <- get_km ;;
  api_call_loop (S (List.length (KeyManager.keys km))) build_fn 0.

(** *** search_youtube_all *)

(** The request of one page: the closure [req] with [pt] bound to the
    current page token. *)
Definition search_request (query : string) (filters : Filters) (pt : option string)
  : Request :=
  mkRequest SearchList
    ([("part", PStr "snippet"); ("maxResults", PInt 50);
      ("q", PStr query); ("type", PStr "video")]
     ++ (if String.eqb (f_duration filters) "any" then []
         else [("videoDuration", PStr (f_duration filters))])
     ++ (if String.eqb (f_definition filters) "any" then []
         else [("videoDefinition", PStr (f_definition filters))])
     ++ (match f_published_after filters with
         | Some d => if PyStr.truthy d then [("publishedAfter", PStr d)] else []
         | None => []
         end)
     ++ (match f_language filters with
         | Some l => if PyStr.truthy l then [("relevanceLanguage", PStr l)] else []
         | None => []
         end)
     ++ (match pt with
         | Some t => if PyStr.truthy t then [("pageToken", PStr t)] else []
         | None => []
         end)).

(** The [while True] loop with its three local variables.  The loop has no
    bound of its own: [fuel] is the number of pages the run may ask for. *)
Fixpoint search_loop (fuel : nat) (query : string) (filters : Filters)
  (all_items : list Item) (page_token : option string) (total_reported : option Total)
  : M (list Item) :=
  match fuel with
  | 0 => out_of_fuel
  | S fuel' =>
      resp <- api_call (search_request query filters page_token) ;;
      if not_resp resp then ret all_items
      else
        match resp with
        | Some r =>
            total_reported' <-
              match total_reported with
              | None =>
                  print (PrintTotal (resp_total r)) ;;;
                  ret (Some (resp_total r))
              | Some _ => ret total_reported
              end ;;
            let all_items' := all_items ++ resp_items r in
            let page_token' := r_nextPageToken r in
            if negb (PyStr.truthy_opt page_token') then ret all_items'
            else
              print (PrintFetched (List.length all_items')) ;;;
              search_loop fuel' query filters all_items' page_token' total_reported'
        | None => ret all_items
        end
  end.

Definition search_youtube_all (fuel : nat) (query : string) (filters : Filters)
  : M (list Item) :=
  search_loop fuel query filters [] None None.

(** *** classify_videos *)

(** [range(0, n, 50)] *)
Definition chunk_starts (n : nat) : list nat :=
  map (fun k => 50 * k) (seq 0 ((n + 49) / 50)).

(** [videos[i:i + 50]] *)
Definition chunk_at (videos : list Video) (i : nat) : list Video :=
  firstn 50 (skipn i videos).

(** The request of one chunk. *)
Definition videos_request (ids_str : string) : Request :=
  mkRequest VideosList [("part", PStr "contentDetails,snippet"); ("id", PStr ids_str)].

(** [it.get('contentDetails', {}).get('duration', 'PT0S')] *)
Definition item_duration (it : Item) : string :=
  match it_contentDetails it with
  | Some cd => match cd_duration cd with Some d => d | None => "PT0S" end
  | None => "PT0S"
  end.

(** The entry built for one item of a reply. *)
Definition make_entry (it : Item) : Entry :=
  mkEntry (it_id it) (sn_title (it_snippet it))
          (parse_iso_duration (Some (item_duration it))).

(** The inner [for it in resp.get('items', [])] loop: each entry is appended
    to [shorts] or to [longs]. *)
Fixpoint classify_items (items : list Item) (longs shorts : list Entry)
  : list Entry * list Entry :=
  match items with
  | [] => (longs, shorts)
  | it :: rest =>
      let entry := make_entry it in
      if (e_seconds entry <=? 60)%Z
      then classify_items rest longs (shorts ++ [entry])
      else classify_items rest (longs ++ [entry]) shorts
  end.

(** The outer [for i in range(0, len(videos), 50)] loop. *)
Fixpoint classify_chunks (starts : list nat) (videos : list Video)
  (longs shorts : list Entry) : M (list Entry * list Entry) :=
  match starts with
  | [] => ret (longs, shorts)
  | i :: rest =>
      let chunk := chunk_at videos i in
      let ids_str := PyStr.join "," (map v_videoId chunk) in
      resp <- api_call (videos_request ids_str) ;;
      if not_resp resp then classify_chunks rest videos longs shorts
      else
        match resp with
        | Some r =>
            let (longs', shorts') := classify_items (resp_items r) longs shorts in
            classify_chunks rest videos longs' shorts'
        | None => classify_chunks rest videos longs shorts
        end
  end.

Definition classify_videos (videos : list Video) : M (list Entry * list Entry) :=
  classify_chunks (chunk_starts (List.length videos)) videos [] [].

End Engine.

Arguments mkSt {World} st_km st_world.
Arguments st_km {World} s.
Arguments st_world {World} s.
Arguments ret {World A} a _.
Arguments bind {World A B} m f _.
Arguments raise {World A} x _.
Arguments out_of_fuel {World A} _.
Arguments print {World} e _.
Arguments get_km {World} _.
Arguments set_km {World} km _.
Arguments call {World} execute key req _.
Arguments rotate {World} _.
Arguments probe_keys {World} execute i ks first_valid _.
Arguments check_key_quotas {World} execute _.
Arguments api_call_loop {World} execute fuel build_fn attempts _.
Arguments api_call {World} execute build_fn _.
Arguments search_loop {World} execute fuel query filters all_items page_token total_reported _.
Arguments search_youtube_all {World} execute fuel query filters _.
Arguments classify_chunks {World} execute starts videos longs shorts _.
Arguments classify_videos {World} execute videos _.

(* ===================================================================== *)
(** ** Reading the events of a run *)
(* ===================================================================== *)

(** The remote calls among the events: credential and outcome, in order. *)
Fixpoint calls_of (evs : list Event) : list (string * Outcome) :=
  match evs with
  | [] => []
  | Call k _ o :: rest => (k, o) :: calls_of rest
  | _ :: rest => calls_of rest
  end.

(** The number of rotations announced. *)
Fixpoint rotations_of (evs : list Event) : nat :=
  match evs with
  | [] => 0
  | PrintSwitched _ :: rest => S (rotations_of rest)
  | _ :: rest => rotations_of rest
  end.

(** The total-count estimates reported. *)
Fixpoint totals_of (evs : list Event) : list Total :=
  match evs with
  | [] => []
  | PrintTotal t :: rest => t :: totals_of rest
  | _ :: rest => totals_of rest
  end.

(** The replies among a list of outcomes, in order. *)
Fixpoint successes (os : list Outcome) : list Response :=
  match os with
  | [] => []
  | Success r :: rest => r :: successes rest
  | _ :: rest => successes rest
  end.

(** The replies received during a run, in order. *)
Definition replies_of (evs : list Event) : list Response :=
  successes (map snd (calls_of evs)).

(** The status lines of the quota check, in order. *)
Fixpoint statuses_of (evs : list Event) : list (nat * KeyStatus) :=
  match evs with
  | [] => []
  | PrintKeyStatus n _ s :: rest => (n, s) :: statuses_of rest
  | _ :: rest => statuses_of rest
  end.

(** The position of the first successful outcome. *)
Fixpoint first_success (os : list Outcome) : option nat :=
  match os with
  | [] => None
  | o :: rest =>
      if is_success o then Some 0
      else match first_success rest with Some i => Some (S i) | None => None end
  end.

(** The pool read from the cursor onward and around: the order in which a
    full cycle of rotations visits the credentials. *)
Definition cycle_from (km : KeyManager.t) : list string :=
  skipn (KeyManager.idx km) (KeyManager.keys km)
  ++ firstn (KeyManager.idx km) (KeyManager.keys km).

(** [n] rotations in a row; [None] if one of them raises. *)
Fixpoint rotate_n (n : nat) (km : KeyManager.t) : option KeyManager.t :=
  match n with
  | 0 => Some km
  | S n' =>
      match KeyManager.rotate km with
      | Some km' => rotate_n n' km'
      | None => None
      end
  end.

(** The entries of the items of a list of replies, in order. *)
Definition entries_of (rs : list Response) : list Entry :=
  map make_entry (List.concat (map resp_items rs)).

(** The long side and the short side of the threshold. *)
Definition is_long (e : Entry) : bool := (60 <? e_seconds e)%Z.
Definition is_short (e : Entry) : bool := (e_seconds e <=? 60)%Z.

(** *** Runs of the paginator *)

(** [page_run st pt pages st' pt']: from state [st] and page token [pt] the
    executor, asked for one page after the other, returns the replies
    [pages], each a non-empty dictionary carrying a non-empty token, and
    leaves state [st'] and token [pt']. *)
Inductive page_run {World : Type}
  (execute : World -> string -> Request -> Outcome * World)
  (query : string) (filters : Filters)
  : St World -> option string -> list Response -> St World -> option string -> Prop :=
| page_run_nil st pt : page_run execute query filters st pt [] st pt
| page_run_cons st pt r st1 evs pages st2 pt2 :
    api_call execute (search_request query filters pt) st = (Done (Some r), st1, evs) ->
    resp_truthy r = true ->
    PyStr.truthy_opt (r_nextPageToken r) = true ->
    page_run execute query filters st1 (r_nextPageToken r) pages st2 pt2 ->
    page_run execute query filters st pt (r :: pages) st2 pt2.

(** *** Well-formed duration encodings *)

(** A non-empty run of digits. *)
Definition digits (d : string) : Prop :=
  d <> "" /\ forallb PyStr.is_digit (list_ascii_of_string d) = true.

(** An optional component as it is written: the digits and the unit. *)
Definition component (g : option string) (unit_letter : string) : string :=
  match g with
  | Some d => d ++ unit_letter
  | None => ""
  end.

Definition group_ok (g : option string) : Prop :=
  match g with
  | Some d => digits d
  | None => True
  end.

(** Text that cannot be read as more of the encoding: empty, or starting
    with something else than a digit. *)
Definition no_leading_digit (t : string) : Prop :=
  match t with
  | EmptyString => True
  | String c _ => PyStr.is_digit c = false
  end.

(** A component whose digits [int()] converts under its default limit. *)
Definition group_within (g : option string) : Prop :=
  match g with
  | Some d => digits d /\ String.length d <= int_max_str_digits
  | None => True
  end.

(** The character that ends the digits at the head of [t], when [t] starts
    with a digit and does not consist of digits only. *)
Definition component_unit (t : string) : option ascii :=
  match PyStr.span_digits t with
  | (String _ _, String c _) => Some c
  | _ => None
  end.

(** The units the pattern still tries once the components [h], [m] and [s]
    have been read: those that come after the last component present. *)
Definition slots_after (h m s : option string) : list ascii :=
  match s, m, h with
  | Some _, _, _ => []
  | None, Some _, _ => ["S"%char]
  | None, None, Some _ => ["M"%char; "S"%char]
  | None, None, None => ["H"%char; "M"%char; "S"%char]
  end.

(** [t] does not start with a component of one of the units [us]. *)
Definition not_component_of (us : list ascii) (t : string) : bool :=
  match component_unit t with
  | Some c => negb (existsb (Ascii.eqb c) us)
  | None => true
  end.

(** [t] is what follows the components [h], [m] and [s] of an encoding: it
    does not start with a component the pattern would still read. *)
Definition tail_ok (h m s : option string) (t : string) : bool :=
  not_component_of (slots_after h m s) t.

(** Whether a file holds no key: it is missing, or each line is blank. *)
Definition no_key (f : FileRead) : Prop :=
  match f with
  | FileNotFound => True
  | FileLines lines => forall line, In line lines -> PyStr.strip line = ""
  end.

(* ===================================================================== *)
(** ** A simulated remote with per-key quotas *)
(* ===================================================================== *)

Module Sim.

(** The remaining quota of every key the remote knows. *)
Definition World := list (string * nat).

Fixpoint quota (w : World) (k : string) : option nat :=
  match w with
  | [] => None
  | (k', q) :: rest => if String.eqb k k' then Some q else quota rest k
  end.

Fixpoint spend (w : World) (k : string) : World :=
  match w with
  | [] => []
  | (k', q) :: rest =>
      if String.eqb k k' then (k', Nat.pred q) :: rest else (k', q) :: spend rest k
  end.

Fixpoint lookup (name : string) (ps : list (string * Param)) : option Param :=
  match ps with
  | [] => None
  | (n, v) :: rest => if String.eqb name n then Some v else lookup name rest
  end.

(** [n] distinct search results. *)
Definition results (tag : string) (n : nat) : list Item :=
  map (fun i => mkItem (IdObj (Some (tag ++ String (ascii_of_nat (48 + i)) "")%string))
                       (mkSnippet tag) None)
      (seq 0 n).

(** A catalogue of three pages of 50, 50 and 13 results; each page reports
    a different total. *)
Definition page1 : Response :=
  mkResponse (Some "youtube#searchListResponse") (Some (mkPageInfo (Some 1000000%Z)))
             (Some "T2") (Some (results "a" 50)).
Definition page2 : Response :=
  mkResponse (Some "youtube#searchListResponse") (Some (mkPageInfo (Some 5%Z)))
             (Some "T3") (Some (results "b" 50)).
Definition page3 : Response :=
  mkResponse (Some "youtube#searchListResponse") (Some (mkPageInfo (Some 7%Z)))
             None (Some (results "c" 13)).

Definition video (vid dur : string) : Item :=
  mkItem (IdStr vid) (mkSnippet vid) (Some (mkContentDetails (Some dur))).

(** Four videos of 30, 90, 61 and 60 seconds. *)
Definition four_videos : list Item :=
  [video "v30" "PT30S"; video "v90" "PT1M30S"; video "v61" "PT1M1S"; video "v60" "PT1M"].

(** What a key with quota left is answered: pages by token, a Bad Request
    for a token the remote never issued, the four videos for a metadata
    lookup, a server fault on the channels endpoint. *)
Definition answer (req : Request) : Outcome :=
  match endpoint req with
  | SearchList =>
      match lookup "pageToken" (params req) with
      | None => Success page1
      | Some (PStr "T2") => Success page2
      | Some (PStr "T3") => Success page3
      | Some _ => HttpError 400 "Bad Request: invalidPageToken"
      end
  | VideosList =>
      Success (mkResponse (Some "youtube#videoListResponse") None None (Some four_videos))
  | ChannelsList => HttpError 503 "Service Unavailable"
  end.

(** One request: an unknown key is refused with 400, a key without quota
    with 403; otherwise one unit is spent and the request answered. *)
Definition execute (w : World) (k : string) (req : Request) : Outcome * World :=
  match quota w k with
  | None => (HttpError 400 "API key not valid", w)
  | Some 0 => (HttpError 403 "quotaExceeded", w)
  | Some (S _) => (answer req, spend w k)
  end.

Definition no_filters : Filters := mkFilters "any" "any" None None 25.

Definition pool (ks : list string) (i : nat) (w : World) : St World :=
  mkSt (KeyManager.mk ks i) w.

(** *** Scenarios *)

(** Three credentials, all out of quota, the cursor on the second. *)
Definition three_dead : St World :=
  pool ["k1"; "k2"; "k3"] 1 [("k1", 0); ("k2", 0); ("k3", 0)].

Definition run_three_dead := api_call execute probe_request three_dead.

(** The same pool when the third credential has quota left. *)
Definition one_live : St World :=
  pool ["k1"; "k2"; "k3"] 1 [("k1", 0); ("k2", 0); ("k3", 2)].

Definition run_one_live := api_call execute probe_request one_live.

(** Two good credentials. *)
Definition two_live : St World := pool ["k1"; "k2"] 0 [("k1", 5); ("k2", 5)].

(** A query the remote rejects as malformed: its page token was never
    issued. *)
Definition bad_request : Request := search_request "cats" no_filters (Some "bogus").

Definition run_bad_request := api_call execute bad_request two_live.

(** A request to the endpoint that is down. *)
Definition channels_request : Request := mkRequest ChannelsList [("part", PStr "snippet")].

(** A pool whose first credential is out of quota and whose other two are
    good. *)
Definition dead_live_live : St World :=
  pool ["dead"; "live"; "live2"] 0 [("dead", 0); ("live", 5); ("live2", 5)].

Definition run_probe := check_key_quotas execute dead_live_live.

(** One credential with quota for [q] requests. *)
Definition single (q : nat) : St World := pool ["k1"] 0 [("k1", q)].

Definition four : list Video :=
  [mkVideo "v30" "thirty" "2024-01-01"; mkVideo "v90" "ninety" "2024-01-02";
   mkVideo "v61" "sixty-one" "2024-01-03"; mkVideo "v60" "sixty" "2024-01-04"].

Definition four_request : Request :=
  videos_request (PyStr.join "," (map v_videoId (chunk_at four 0))).

(** A key file: two keys and a blank line. *)
Definition nl : string := String (ascii_of_nat 10) "".

Definition key_file : FileRead :=
  FileLines [("k1" ++ nl)%string; ("   " ++ nl)%string; ("  k2 " ++ nl)%string].

Definition blank_file : FileRead := FileLines [nl; ("  " ++ nl)%string].

End Sim.

(* ===================================================================== *)
(** ** safe_filename *)
(* ===================================================================== *)

(** The characters the pattern removes: backslash, slash, colon, star,
    question mark, double quote, the two angle brackets and the bar. *)
Definition illegal_char (c : ascii) : bool :=
  existsb (Nat.eqb (nat_of_ascii c)) [92; 47; 58; 42; 63; 34; 60; 62; 124].

(** The characters of [strip('. ')]. *)
Definition dot_or_space (c : ascii) : bool :=
  (nat_of_ascii c =? 46) || (nat_of_ascii c =? 32).

(** [re.sub] of a character class by the empty string keeps the other
    characters. *)
Fixpoint remove_chars (p : ascii -> bool) (s : string) : string :=
  match s with
  | String c s' => if p c then remove_chars p s' else String c (remove_chars p s')
  | EmptyString => EmptyString
  end.

Fixpoint lstrip_chars (p : ascii -> bool) (s : string) : string :=
  match s with
  | String c s' => if p c then lstrip_chars p s' else s
  | EmptyString => EmptyString
  end.

Fixpoint rstrip_chars (p : ascii -> bool) (s : string) : string :=
  match s with
  | String c s' =>
      match rstrip_chars p s' with
      | EmptyString => if p c then EmptyString else String c EmptyString
      | r => String c r
      end
  | EmptyString => EmptyString
  end.

(** [s.strip(chars)] *)
Definition strip_chars (p : ascii -> bool) (s : string) : string :=
  rstrip_chars p (lstrip_chars p s).

Definition safe_filename (name : string) : string :=
  let name := remove_chars illegal_char name in
  let name := strip_chars dot_or_space name in
  if PyStr.truthy name then name else "untitled".

(** The first and the last character of a string satisfy [p]. *)
Definition starts_with (p : ascii -> bool) (s : string) : bool :=
  match s with
  | String c _ => p c
  | EmptyString => false
  end.

Fixpoint ends_with (p : ascii -> bool) (s : string) : bool :=
  match s with
  | String c EmptyString => p c
  | String _ s' => ends_with p s'
  | EmptyString => false
  end.

(** Some character of the string satisfies [p]. *)
Fixpoint has_char (p : ascii -> bool) (s : string) : bool :=
  match s with
  | String c s' => p c || has_char p s'
  | EmptyString => false
  end.

(** A title of which nothing is kept: each of its characters is removed by
    the pattern or is a dot or a space. *)
Definition nothing_kept (name : string) : bool :=
  forallb (fun c => illegal_char c || dot_or_space c) (list_ascii_of_string name).

(** A name [safe_filename] has nothing to do on. *)
Definition clean_name (s : string) : Prop :=
  s <> "" /\ has_char illegal_char s = false /\
  starts_with dot_or_space s = false /\ ends_with dot_or_space s = false.

(* ===================================================================== *)
(** ** MODE 3: the list of links *)
(* ===================================================================== *)

(** [s.startswith('#')] *)
Definition is_comment (s : string) : bool :=
  match s with
  | String c _ => nat_of_ascii c =? 35
  | EmptyString => false
  end.

(** The list comprehension over the lines of [videolinks.txt]. *)
Definition read_urls (lines : list string) : list string :=
  map PyStr.strip
    (filter (fun line => PyStr.truthy (PyStr.strip line)
                         && negb (is_comment (PyStr.strip line))) lines).

(** The one line written into a new [videolinks.txt]. *)
Definition links_template : list string :=
  [("# Put one YouTube video URL per line" ++ String (ascii_of_nat 10) "")%string].

(** How [mode_download] ends: it wrote the template, it found no link, or it
    hands the links to [_download_urls]. *)
Inductive DownloadStep :=
| TemplateCreated
| NoUrls
| StartDownload (urls : list string).

(** [mode_download], from the state of [videolinks.txt] to what it does and
    the state it leaves the file in. *)
Definition mode_download (f : FileRead) : DownloadStep * FileRead :=
  match f with
  | FileNotFound => (TemplateCreated, FileLines links_template)
  | FileLines lines =>
      match read_urls lines with
      | [] => (NoUrls, f)
      | urls => (StartDownload urls, f)
      end
  end.

(* ===================================================================== *)
(** ** The engine, continued: channel videos and channel statistics *)
(* ===================================================================== *)

(** The [statistics] object of a channel resource. *)
Record Statistics := mkStatistics {
  subscriberCount : option string;
  videoCount : option string;
  viewCount : option string }.

(** A value of the dictionary [get_channel_stats] returns. *)
Record ChannelStats := mkChannelStats {
  cs_title : string; cs_subs : string; cs_vids : string; cs_views : string }.

(** [d[k] = v] on a dictionary kept in insertion order. *)
Fixpoint dict_set {V : Type} (k : string) (v : V) (d : list (string * V))
  : list (string * V) :=
  match d with
  | [] => [(k, v)]
  | (k', v') :: rest =>
      if String.eqb k k' then (k, v) :: rest else (k', v') :: dict_set k v rest
  end.

(** The requests sent during a run, in order. *)
Fixpoint requests_of (evs : list Event) : list Request :=
  match evs with
  | [] => []
  | Call _ req _ :: rest => req :: requests_of rest
  | _ :: rest => requests_of rest
  end.

Section EngineMore.

Variable World : Type.
Variable execute : World -> string -> Request -> Outcome * World.

(** Two keys of an item that the record [Item] does not carry, as the item
    determines them: [it['snippet'].get('publishedAt')] and
    [it.get('statistics')]. *)
Variable publishedAt : Item -> option string.
Variable statistics : Item -> option Statistics.

Notation "x <- m ;; k" := (bind m (fun x => k))
  (at level 61, m at next level, right associativity).
Notation "m ;;; k" := (bind m (fun _ => k))
  (at level 61, right associativity).

(** *** fetch_all_channel_videos *)

(** The request of one page of a channel: the closure [req]. *)
Definition channel_request (channel_id : string) (pt : option string) : Request :=
  mkRequest SearchList
    ([("part", PStr "snippet"); ("channelId", PStr channel_id);
      ("type", PStr "video"); ("maxResults", PInt 50); ("order", PStr "date")]
     ++ (match pt with
         | Some t => if PyStr.truthy t then [("pageToken", PStr t)] else []
         | None => []
         end)).

(** The video recorded for an item whose [videoId] is [vid]. *)
Definition make_video (vid : string) (it : Item) : Video :=
  mkVideo vid (sn_title (it_snippet it))
          (match publishedAt it with Some d => d | None => "" end).

(** The inner [for it in resp.get('items', [])] loop.  [it['id'].get] needs
    the [id] to be an object: on a string it raises. *)
Fixpoint collect_videos (items : list Item) (videos : list Video)
  : M World (list Video) :=
  match items with
  | [] => ret videos
  | it :: rest =>
      match it_id it with
      | IdStr _ => raise "AttributeError"
      | IdObj vid =>
          match vid with
          | Some v =>
              if PyStr.truthy v
              then collect_videos rest (videos ++ [make_video v it])
              else collect_videos rest videos
          | None => collect_videos rest videos
          end
      end
  end.

(** The [while True] loop; [fuel] is the number of pages the run may ask
    for. *)
Fixpoint fetch_loop (fuel : nat) (channel_id : string)
  (videos : list Video) (page_token : option string) : M World (list Video) :=
  match fuel with
  | 0 => out_of_fuel
  | S fuel' =>
      resp <- api_call execute (channel_request channel_id page_token) ;;
      if not_resp resp then ret videos
      else
        match resp with
        | Some r =>
            videos' <- collect_videos (resp_items r) videos ;;
            let page_token' := r_nextPageToken r in
            if negb (PyStr.truthy_opt page_token') then ret videos'
            else
              print (PrintFetched (List.length videos')) ;;;
              fetch_loop fuel' channel_id videos' page_token'
        | None => ret videos
        end
  end.

Definition fetch_all_channel_videos (fuel : nat) (channel_id : string)
  : M World (list Video) :=
  fetch_loop fuel channel_id [] None.

(** *** get_channel_stats *)

(** The request: at most the first 50 identifiers, joined by commas. *)
Definition stats_request (channel_ids : list string) : Request :=
  mkRequest ChannelsList
    [("part", PStr "snippet,statistics");
     ("id", PStr (PyStr.join "," (firstn 50 channel_ids)))].

(** The value stored for one item. *)
Definition make_stats (it : Item) : ChannelStats :=
  let get (field : Statistics -> option string) : string :=
    match statistics it with
    | Some s => match field s with Some v => v | None => "?" end
    | None => "?"
    end in
  mkChannelStats (sn_title (it_snippet it))
    (get subscriberCount) (get videoCount) (get viewCount).

(** The [for it in resp.get('items', [])] loop.  The [id] is the key of the
    dictionary: an object there is unhashable and raises. *)
Fixpoint collect_stats (items : list Item) (out : list (string * ChannelStats))
  : M World (list (string * ChannelStats)) :=
  match items with
  | [] => ret out
  | it :: rest =>
      match it_id it with
      | IdStr cid => collect_stats rest (dict_set cid (make_stats it) out)
      | IdObj _ => raise "TypeError"
      end
  end.

Definition get_channel_stats (channel_ids : list string)
  : M World (list (string * ChannelStats)) :=
  match channel_ids with
  | [] => ret []
  | _ =>
      resp <- api_call execute (stats_request channel_ids) ;;
      if not_resp resp then ret []
      else
        match resp with
        | Some r => collect_stats (resp_items r) []
        | None => ret []
        end
  end.

End EngineMore.

Arguments collect_videos {World} publishedAt items videos _.
Arguments fetch_loop {World} execute publishedAt fuel channel_id videos page_token _.
Arguments fetch_all_channel_videos {World} execute publishedAt fuel channel_id _.
Arguments collect_stats {World} statistics items out _.
Arguments get_channel_stats {World} execute statistics channel_ids _.

(** The videos [collect_videos] records for a list of items: those whose
    [videoId] is a non-empty string, in order. *)
Fixpoint videos_of (publishedAt : Item -> option string) (items : list Item)
  : list Video :=
  match items with
  | [] => []
  | it :: rest =>
      match it_id it with
      | IdObj (Some v) =>
          if PyStr.truthy v
          then make_video publishedAt v it :: videos_of publishedAt rest
          else videos_of publishedAt rest
      | _ => videos_of publishedAt rest
      end
  end.

(** Whether every [id] of a list of items is an object, as in the replies of
    the search endpoint. *)
Definition object_ids (items : list Item) : bool :=
  forallb (fun it => match it_id it with IdObj _ => true | IdStr _ => false end) items.

(** [channel_pages st pt pages st' pt']: the runs of pages of a channel, as
    [page_run] for a search. *)
Inductive channel_pages {World : Type}
  (execute : World -> string -> Request -> Outcome * World)
  (channel_id : string)
  : St World -> option string -> list Response -> St World -> option string -> Prop :=
| channel_pages_nil st pt : channel_pages execute channel_id st pt [] st pt
| channel_pages_cons st pt r st1 evs pages st2 pt2 :
    api_call execute (channel_request channel_id pt) st = (Done (Some r), st1, evs) ->
    resp_truthy r = true ->
    PyStr.truthy_opt (r_nextPageToken r) = true ->
    channel_pages execute channel_id st1 (r_nextPageToken r) pages st2 pt2 ->
    channel_pages execute channel_id st pt (r :: pages) st2 pt2.

(* ===================================================================== *)
(** ** display_results_paginated *)
(* ===================================================================== *)

(** A key read by [msvcrt.getch()]: the space bar, escape, or another. *)
Inductive Key := Space | Escape | OtherKey.

(** What the display prints.  A result takes several lines; they are one
    entry here, with the number shown, the item, its [videoId] and the
    statistics found for its channel. *)
Inductive Line :=
| LNoResults
| LFound (total : Z)
| LShowing (page_size total_pages : Z)
| LHelp
| LResult (n : Z) (it : Item) (vid : string) (cs : option ChannelStats)
| LPageEnd (shown total remaining current_page total_pages : Z)
| LNextHelp (next : Z)
| LStopped (shown total : Z)
| LAllDisplayed (total : Z).

(** How the display ends: after the last page, on escape, still waiting for
    a key when the keys given are used up, with an exception, or not within
    the iterations granted. *)
Inductive DisplayEnd :=
| Finished
| Stopped
| Waiting
| Failed (exn : string)
| NoFuel.

(** [range(a, b)] *)
Definition zrange (a b : Z) : list Z :=
  map (fun k => (a + Z.of_nat k)%Z) (seq 0 (Z.to_nat (b - a))).

(** [l[i]] for an integer [i], negative ones counting from the end; [None]
    is [IndexError]. *)
Definition py_nth {A : Type} (l : list A) (i : Z) : option A :=
  let n := Z.of_nat (List.length l) in
  if ((0 <=? i) && (i <? n))%Z then nth_error l (Z.to_nat i)
  else if ((- n <=? i) && (i <? 0))%Z then nth_error l (Z.to_nat (n + i))
  else None.

(** [d.get(k)] on a dictionary kept in insertion order. *)
Fixpoint dict_get {V : Type} (k : string) (d : list (string * V)) : option V :=
  match d with
  | [] => None
  | (k', v) :: rest => if String.eqb k k' then Some v else dict_get k rest
  end.

(** The loop that waits for space or escape: the key that ended it ([true]
    for space) and the keys left, or nothing when the keys run out. *)
Fixpoint wait_key (keys : list Key) : option (bool * list Key) :=
  match keys with
  | [] => None
  | Space :: rest => Some (true, rest)
  | Escape :: rest => Some (false, rest)
  | OtherKey :: rest => wait_key rest
  end.

Section Display.

(** [it['snippet'].get('channelId')], a key the record [Item] does not
    carry. *)
Variable channelId : Item -> option string.

Variable ch_stats : list (string * ChannelStats).

(** [_print_result_item(i, it, ch_stats)]: what it prints, or the exception
    of [it['id'].get] on an [id] that is a string. *)
Definition print_result_item (i : Z) (it : Item) : list Line + string :=
  match it_id it with
  | IdStr _ => inr "AttributeError"
  | IdObj vid =>
      match vid with
      | Some v =>
          if PyStr.truthy v
          then inl [LResult i it v
                      (dict_get (match channelId it with Some c => c | None => "" end)
                                ch_stats)]
          else inl []
      | None => inl []
      end
  end.

(** [for i in range(start, end): _print_result_item(i + 1, results[i], ...)] *)
Fixpoint print_range (results : list Item) (idxs : list Z) : list Line * option string :=
  match idxs with
  | [] => ([], None)
  | i :: rest =>
      match py_nth results i with
      | None => ([], Some "IndexError")
      | Some it =>
          match print_result_item (i + 1) it with
          | inr x => ([], Some x)
          | inl ls =>
              let (ls', e) := print_range results rest in (ls ++ ls', e)
          end
      end
  end.

(** The [while current_page < total_pages] loop. *)
Fixpoint page_loop (fuel : nat) (results : list Item)
  (page_size total total_pages current_page : Z) (keys : list Key)
  : list Line * DisplayEnd :=
  match fuel with
  | 0 => ([], NoFuel)
  | S fuel' =>
      if (current_page <? total_pages)%Z then
        let start := (current_page * page_size)%Z in
        let end_ := Z.min (start + page_size) total in
        match print_range results (zrange start end_) with
        | (ls, Some x) => (ls, Failed x)
        | (ls, None) =>
            let current_page := (current_page + 1)%Z in
            if (current_page <? total_pages)%Z then
              let shown := end_ in
              let remaining := (total - shown)%Z in
              let prompt :=
                [LPageEnd shown total remaining current_page total_pages;
                 LNextHelp (Z.min page_size remaining)] in
              match wait_key keys with
              | None => (ls ++ prompt, Waiting)
              | Some (true, keys') =>
                  let (ls', e) :=
                    page_loop fuel' results page_size total total_pages
                      current_page keys' in
                  (ls ++ prompt ++ ls', e)
              | Some (false, _) => (ls ++ prompt ++ [LStopped shown total], Stopped)
              end
            else (ls ++ [LAllDisplayed total], Finished)
        end
      else ([], Finished)
  end.

(** [display_results_paginated(results, ch_stats, page_size)] with the keys
    the user presses. *)
Definition display_results_paginated (results : list Item) (page_size : Z)
  (keys : list Key) : list Line * DisplayEnd :=
  match results with
  | [] => ([LNoResults], Finished)
  | _ =>
      let total := Z.of_nat (List.length results) in
      if (page_size =? 0)%Z then ([], Failed "ZeroDivisionError")
      else
        let total_pages := ((total + page_size - 1) / page_size)%Z in
        let (ls, e) :=
          page_loop (S (Z.to_nat total_pages)) results page_size total total_pages 0 keys in
        ([LFound total; LShowing page_size total_pages; LHelp] ++ ls, e)
  end.

(** The entries printed for a list of items whose first has position
    [offset]: one for each item with a non-empty [videoId], numbered from 1
    by position. *)
Fixpoint result_lines (offset : nat) (items : list Item) : list Line :=
  match items with
  | [] => []
  | it :: rest =>
      match it_id it with
      | IdObj (Some v) =>
          if PyStr.truthy v
          then LResult (Z.of_nat offset + 1) it v
                 (dict_get (match channelId it with Some c => c | None => "" end)
                           ch_stats)
               :: result_lines (S offset) rest
          else result_lines (S offset) rest
      | _ => result_lines (S offset) rest
      end
  end.

End Display.

(** The result entries among the lines printed. *)
Fixpoint results_shown (ls : list Line) : list Line :=
  match ls with
  | [] => []
  | LResult n it v cs :: rest => LResult n it v cs :: results_shown rest
  | _ :: rest => results_shown rest
  end.

(** Whether every key pressed is the space bar. *)
Definition all_space (keys : list Key) : bool :=
  forallb (fun k => match k with Space => true | _ => false end) keys.

(* ===================================================================== *)
(** ** download_selected: which results are downloaded *)
(* ===================================================================== *)

(** [str.lower] on one code point below 256. *)
Definition lower_char (c : ascii) : ascii :=
  let n := nat_of_ascii c in
  if ((65 <=? n) && (n <=? 90)) || ((192 <=? n) && (n <=? 222) && negb (n =? 215))
  then ascii_of_nat (n + 32)
  else c.

Fixpoint lower (s : string) : string :=
  match s with
  | String c s' => String (lower_char c) (lower s')
  | EmptyString => EmptyString
  end.

(** [s.split(sep)] for a separator of one character. *)
Fixpoint split_on (sep : ascii) (s : string) : list string :=
  match s with
  | EmptyString => [EmptyString]
  | String c s' =>
      if Ascii.eqb c sep then EmptyString :: split_on sep s'
      else
        match split_on sep s' with
        | x :: xs => String c x :: xs
        | [] => [String c EmptyString]
        end
  end.

(** The digits of an integer literal, with single underscores allowed
    between digits; [after_digit] tells whether the character before was a
    digit. *)
Fixpoint int_digits (s : string) (acc : Z) (after_digit : bool) : option Z :=
  match s with
  | EmptyString => if after_digit then Some acc else None
  | String c s' =>
      if PyStr.is_digit c then int_digits s' (10 * acc + PyStr.digit_val c)%Z true
      else if (nat_of_ascii c =? 95) && after_digit then int_digits s' acc false
      else None
  end.

(** The number of digits in [s]; underscores and the sign do not count. *)
Definition digit_count (s : string) : nat :=
  List.length (filter PyStr.is_digit (list_ascii_of_string s)).

(** [int(s)]; [None] is [ValueError]: [s] is no integer literal, or it has
    more digits than [int()] converts. *)
Definition py_int (s : string) : option Z :=
  let t := PyStr.strip s in
  if int_max_str_digits <? digit_count t then None
  else
    match t with
    | String c r =>
        if nat_of_ascii c =? 43 then int_digits r 0 false
        else if nat_of_ascii c =? 45 then option_map Z.opp (int_digits r 0 false)
        else int_digits t 0 false
    | EmptyString => None
    end.

(** [[f(x) for x in l]] where [f] may raise. *)
Fixpoint map_opt {A B : Type} (f : A -> option B) (l : list A) : option (list B) :=
  match l with
  | [] => Some []
  | x :: rest =>
      match f x with
      | None => None
      | Some y =>
          match map_opt f rest with
          | None => None
          | Some ys => Some (y :: ys)
          end
      end
  end.

(** How [download_selected] ends: with an uncaught exception, with one of
    its three messages, or by handing links to [_download_urls]. *)
Inductive Selection :=
| SelRaised (exn : string)
| NoDownloadable
| InvalidInput
| NothingSelected
| SelDownload (urls : list string).

(** [[r for r in results if r['id'].get('videoId')]]: the results with a
    non-empty [videoId], or the exception of an [id] that is a string. *)
Fixpoint downloadable (results : list Item) : option (list (Item * string)) :=
  match results with
  | [] => Some []
  | r :: rest =>
      match it_id r with
      | IdStr _ => None
      | IdObj vid =>
          match downloadable rest with
          | None => None
          | Some items =>
              match vid with
              | Some v => if PyStr.truthy v then Some ((r, v) :: items) else Some items
              | None => Some items
              end
          end
      end
  end.

(** [[items[i] for i in idxs if 0 <= i < len(items)]]; [None] is the
    [IndexError] of a subscript. *)
Fixpoint pick {A : Type} (items : list A) (idxs : list Z) : option (list A) :=
  match idxs with
  | [] => Some []
  | i :: rest =>
      if ((0 <=? i) && (i <? Z.of_nat (List.length items)))%Z then
        match py_nth items i with
        | None => None
        | Some x =>
            match pick items rest with
            | None => None
            | Some xs => Some (x :: xs)
            end
        end
      else pick items rest
  end.

Definition watch_url (vid : string) : string :=
  ("https://www.youtube.com/watch?v=" ++ vid)%string.

(** [download_selected(results)] when yt-dlp is installed and the user
    types [typed]. *)
Definition download_selected (results : list Item) (typed : string) : Selection :=
  match downloadable results with
  | None => SelRaised "AttributeError"
  | Some [] => NoDownloadable
  | Some items =>
      let ch := lower (PyStr.strip typed) in
      let chosen :=
        if String.eqb ch "all" then Some items
        else
          match map_opt (fun x => option_map (fun n => (n - 1)%Z) (py_int (PyStr.strip x)))
                        (split_on "," ch) with
          | None => None
          | Some idxs => pick items idxs
          end in
      match chosen with
      | None => InvalidInput
      | Some [] => NothingSelected
      | Some sel => SelDownload (map (fun iv => watch_url (snd iv)) sel)
      end
  end.

(** A numeral of 4301 digits, one more than [int()] converts. *)
Definition long_numeral : string :=
  string_of_list_ascii (repeat "9"%char (S int_max_str_digits)).

(* ===================================================================== *)
(** ** A simulated remote for channel statistics *)
(* ===================================================================== *)

Module ChanSim.

(** The remote has no state; one key, always good. *)
Definition World := unit.

Definition channel (cid name : string) : Item :=
  mkItem (IdStr cid) (mkSnippet name) None.

(** Channel lookups are answered with two channels, one of them listed
    twice; everything else is a server fault. *)
Definition execute (w : World) (k : string) (req : Request) : Outcome * World :=
  match endpoint req with
  | ChannelsList =>
      (Success (mkResponse (Some "youtube#channelListResponse") None None
                  (Some [channel "UC1" "one"; channel "UC2" "two"; channel "UC1" "one"])), w)
  | _ => (HttpError 500 "Internal Server Error", w)
  end.

Definition statistics (it : Item) : option Statistics :=
  match it_id it with
  | IdStr "UC1" => Some (mkStatistics (Some "1000") (Some "12") None)
  | _ => None
  end.

Definition publishedAt (it : Item) : option string := Some "2024-05-01T00:00:00Z".

Definition start : St World := mkSt (KeyManager.mk ["k1"] 0) tt.

(** 60 identifiers, [UC1] first. *)
Definition sixty : list string := "UC1" :: repeat "UC2" 59.

Definition run_sixty := get_channel_stats execute statistics sixty start.

End ChanSim.

(* ===================================================================== *)
(** ** Properties of the duration parser *)
(* ===================================================================== *)

Lemma span_digits_stop (t : string) :
  no_leading_digit t -> PyStr.span_digits t = (EmptyString, t).
Proof.
  destruct t as [|c t]; simpl; [reflexivity|].
  intros ->. reflexivity.
Qed.

Lemma span_digits_app (d t : string) :
  forallb PyStr.is_digit (list_ascii_of_string d) = true ->
  no_leading_digit t ->
  PyStr.span_digits (d ++ t) = (d, t).
Proof.
  induction d as [|c d IH]; simpl; intros Hd Ht.
  - apply span_digits_stop, Ht.
  - apply andb_prop in Hd as [Hc Hd].
    rewrite Hc, (IH Hd Ht). reflexivity.
Qed.

(** A component that is present is captured. *)
Lemma opt_component_hit (u : ascii) (d rest : string) :
  digits d -> PyStr.is_digit u = false ->
  opt_component u (d ++ String u rest) = (Some d, rest).
Proof.
  intros [Hne Hd] Hu. unfold opt_component.
  rewrite (span_digits_app d (String u rest) Hd Hu).
  destruct d; [congruence|].
  rewrite Ascii.eqb_refl. reflexivity.
Qed.

(** Digits followed by another letter are left for a later component. *)
Lemma opt_component_other (u c : ascii) (d rest : string) :
  digits d -> PyStr.is_digit c = false -> c <> u ->
  opt_component u (d ++ String c rest) = (None, (d ++ String c rest)%string).
Proof.
  intros [Hne Hd] Hc Hcu. unfold opt_component.
  rewrite (span_digits_app d (String c rest) Hd Hc).
  destruct d; [congruence|].
  apply Ascii.eqb_neq in Hcu. rewrite Hcu. reflexivity.
Qed.

Lemma append_assoc (a b c : string) : ((a ++ b) ++ c = a ++ (b ++ c))%string.
Proof. induction a; simpl; congruence. Qed.

Lemma parse_not_PT (s : string) :
  String.prefix "PT" s = false -> parse_iso_duration (Some s) = 0%Z.
Proof.
  unfold parse_iso_duration.
  destruct s as [|a s]; [reflexivity|]. cbn [PyStr.truthy_opt PyStr.truthy].
  destruct s as [|b s].
  - intros _. unfold match_duration.
    destruct a as [[] [] [] [] [] [] [] []]; reflexivity.
  - cbn [String.prefix]. unfold match_duration.
    destruct (Ascii.ascii_dec "P" a) as [<-|Ha].
    + destruct (Ascii.ascii_dec "T" b) as [<-|Hb].
      * destruct s; discriminate.
      * intros _. destruct b as [[] [] [] [] [] [] [] []]; try reflexivity.
        congruence.
    + intros _. destruct a as [[] [] [] [] [] [] [] []]; try reflexivity.
      congruence.
Qed.

(** What follows the longest run of digits is no digit. *)
Lemma span_digits_spec (s : string) :
  forall d r, PyStr.span_digits s = (d, r) ->
    s = (d ++ r)%string /\
    forallb PyStr.is_digit (list_ascii_of_string d) = true /\
    no_leading_digit r.
Proof.
  induction s as [|c s IH]; simpl; intros d r E.
  - injection E as <- <-. repeat split.
  - destruct (PyStr.is_digit c) eqn:Hc.
    + destruct (PyStr.span_digits s) as [d0 r0].
      injection E as <- <-.
      destruct (IH d0 r0 eq_refl) as (-> & Hd & Hr).
      repeat split; [|exact Hr]. simpl. rewrite Hc. exact Hd.
    + injection E as <- <-. repeat split. exact Hc.
Qed.

(** A component is skipped exactly where its unit does not end the leading
    digits. *)
Lemma opt_component_skip (u : ascii) (us : list ascii) (t : string) :
  not_component_of us t = true -> In u us -> opt_component u t = (None, t).
Proof.
  unfold not_component_of, component_unit, opt_component. intros H Hin.
  destruct (PyStr.span_digits t) as [[|a d] [|c r]]; try reflexivity.
  destruct (Ascii.eqb c u) eqn:E; [|reflexivity].
  apply Ascii.eqb_eq in E. subst c.
  apply negb_true_iff in H.
  assert (X : existsb (Ascii.eqb u) us = true).
  { apply existsb_exists. exists u. split; [exact Hin | apply Ascii.eqb_refl]. }
  congruence.
Qed.

(** What a component captures, and what it leaves. *)
Lemma opt_component_spec (u : ascii) (s : string) :
  forall g r, opt_component u s = (g, r) ->
    match g with
    | Some d => digits d /\ s = (d ++ String u r)%string
    | None => r = s /\ not_component_of [u] s = true
    end.
Proof.
  unfold opt_component, not_component_of, component_unit. intros g r.
  destruct (PyStr.span_digits s) as [d0 r0] eqn:E.
  destruct (span_digits_spec s d0 r0 E) as (Hs & Hd & _).
  destruct d0 as [|a d0].
  - intros [= <- <-]. split; reflexivity.
  - destruct r0 as [|c r0].
    + intros [= <- <-]. split; reflexivity.
    + destruct (Ascii.eqb c u) eqn:Ec.
      * intros [= <- <-]. apply Ascii.eqb_eq in Ec. subst c.
        split; [split; [discriminate | exact Hd] | exact Hs].
      * intros [= <- <-]. split; [reflexivity|].
        cbn [existsb]. rewrite Ec. reflexivity.
Qed.

Lemma not_component_of_nil (t : string) : not_component_of [] t = true.
Proof. unfold not_component_of. destruct (component_unit t); reflexivity. Qed.

Lemma not_component_of_app (us vs : list ascii) (t : string) :
  not_component_of us t = true -> not_component_of vs t = true ->
  not_component_of (us ++ vs) t = true.
Proof.
  unfold not_component_of. destruct (component_unit t) as [c|]; [|reflexivity].
  rewrite existsb_app, negb_orb. intros -> ->. reflexivity.
Qed.

Lemma parse_components (h m s : option string) (t : string) :
  group_ok h -> group_ok m -> group_ok s -> tail_ok h m s t = true ->
  parse_iso_duration
    (Some ("PT" ++ component h "H" ++ component m "M" ++ component s "S" ++ t)%string)
  = (int_or_0 h * 3600 + int_or_0 m * 60 + int_or_0 s)%Z.
Proof.
  intros Hh Hm Hs Ht. unfold tail_ok in Ht.
  unfold parse_iso_duration.
  cbn [String.append PyStr.truthy_opt PyStr.truthy match_duration].
  assert (E3 : opt_component "S" (component s "S" ++ t) = (s, t)).
  { destruct s as [ds|]; simpl.
    - rewrite append_assoc. apply opt_component_hit; [exact Hs|reflexivity].
    - apply (opt_component_skip _ _ _ Ht).
      destruct m, h; simpl; auto. }
  assert (E2 : opt_component "M" (component m "M" ++ component s "S" ++ t)
               = (m, (component s "S" ++ t)%string)).
  { destruct m as [dm|]; simpl.
    - rewrite append_assoc. apply opt_component_hit; [exact Hm|reflexivity].
    - destruct s as [ds|]; simpl.
      + rewrite append_assoc.
        apply opt_component_other; [exact Hs|reflexivity|discriminate].
      + apply (opt_component_skip _ _ _ Ht).
        destruct h; simpl; auto. }
  assert (E1 : opt_component "H" (component h "H" ++ component m "M" ++ component s "S" ++ t)
               = (h, (component m "M" ++ component s "S" ++ t)%string)).
  { destruct h as [dh|]; simpl.
    - rewrite append_assoc. apply opt_component_hit; [exact Hh|reflexivity].
    - destruct m as [dm|]; simpl.
      + rewrite append_assoc.
        apply opt_component_other; [exact Hm|reflexivity|discriminate].
      + destruct s as [ds|]; simpl.
        * rewrite append_assoc.
          apply opt_component_other; [exact Hs|reflexivity|discriminate].
        * apply (opt_component_skip _ _ _ Ht). simpl; auto. }
  rewrite E1, E2, E3. reflexivity.
Qed.

(** Every text splits into the components the pattern reads and the text it
    leaves. *)
Lemma components_cover (s0 : string) :
  exists h m s t,
    s0 = (component h "H" ++ component m "M" ++ component s "S" ++ t)%string /\
    group_ok h /\ group_ok m /\ group_ok s /\ tail_ok h m s t = true.
Proof.
  destruct (opt_component "H" s0) as [h s1] eqn:E1.
  destruct (opt_component "M" s1) as [m s2] eqn:E2.
  destruct (opt_component "S" s2) as [s t] eqn:E3.
  apply opt_component_spec in E1, E2, E3.
  exists h, m, s, t. unfold tail_ok.
  destruct h as [dh|]; [destruct E1 as [Dh ->] | destruct E1 as [-> N1]];
    (destruct m as [dm|]; [destruct E2 as [Dm ->] | destruct E2 as [-> N2]]);
    (destruct s as [ds|]; [destruct E3 as [Ds ->] | destruct E3 as [-> N3]]);
    cbn [component slots_after group_ok String.append];
    rewrite ?append_assoc; cbn [String.append];
    (split; [reflexivity | split; [|split; [|split]]]);
    try assumption; try exact I; try apply not_component_of_nil.
  - apply (not_component_of_app ["M"%char] ["S"%char]); assumption.
  - apply (not_component_of_app ["H"%char] ["M"%char; "S"%char]); [assumption|].
    apply (not_component_of_app ["M"%char] ["S"%char]); assumption.
Qed.

(** C6, as the code has it: the three fixtures evaluate to 3723, 45 and 600;
    the empty string, a missing value and every input that does not start
    with [PT] give 0; an input that starts with [PT] gives the value of the
    hour, minute and second components that directly follow [PT] in that
    order, each of them optional and of at most 4300 digits, whatever text
    comes after them; and every input that starts with [PT] is of that
    form. *)
Theorem parse_iso_duration_leading_components :
  parse_iso_duration (Some "PT1H2M3S") = 3723%Z /\
  parse_iso_duration (Some "PT45S") = 45%Z /\
  parse_iso_duration (Some "PT10M") = 600%Z /\
  parse_iso_duration (Some "") = 0%Z /\
  parse_iso_duration None = 0%Z /\
  (forall s, String.prefix "PT" s = false -> parse_iso_duration (Some s) = 0%Z) /\
  (forall h m s t,
      group_within h -> group_within m -> group_within s ->
      tail_ok h m s t = true ->
      parse_iso_duration
        (Some ("PT" ++ component h "H" ++ component m "M" ++ component s "S" ++ t)%string)
      = (int_or_0 h * 3600 + int_or_0 m * 60 + int_or_0 s)%Z) /\
  (forall s0, exists h m s t,
      s0 = (component h "H" ++ component m "M" ++ component s "S" ++ t)%string /\
      group_ok h /\ group_ok m /\ group_ok s /\ tail_ok h m s t = true).
Proof.
  repeat split; try reflexivity.
  - exact parse_not_PT.
  - intros h m s t Hh Hm Hs Ht.
    apply parse_components; try exact Ht.
    + destruct h; [apply Hh | exact I].
    + destruct m; [apply Hm | exact I].
    + destruct s; [apply Hs | exact I].
  - exact components_cover.
Qed.

Lemma parse_iso_duration_leading_components_witness :
  String.prefix "PT" "P1DT2H" = false /\
  parse_iso_duration (Some "P1DT2H") = 0%Z /\
  group_within (Some "1") /\ group_within (Some "5") /\
  group_within (Some "30") /\ group_within None /\
  tail_ok (Some "1") None (Some "30") " and more" = true /\
  parse_iso_duration (Some "PT1H30S and more") = 3630%Z /\
  tail_ok (Some "1") None None "2" = true /\
  parse_iso_duration (Some "PT1H2") = 3600%Z /\
  tail_ok None None None "12" = true /\
  parse_iso_duration (Some "PT12") = 0%Z /\
  tail_ok None None (Some "5") "10M" = true /\
  parse_iso_duration (Some "PT5S10M") = 5%Z /\
  tail_ok None (Some "30") None "2H" = true /\
  parse_iso_duration (Some "PT30M2H") = 1800%Z.
Proof.
  pose proof parse_iso_duration_leading_components
    as (_ & _ & _ & _ & _ & Hno & Hcomp & _).
  assert (G1 : group_within (Some "1")).
  { split; [split; [discriminate | reflexivity] | unfold int_max_str_digits; simpl; lia]. }
  assert (G5 : group_within (Some "5")).
  { split; [split; [discriminate | reflexivity] | unfold int_max_str_digits; simpl; lia]. }
  assert (G30 : group_within (Some "30")).
  { split; [split; [discriminate | reflexivity] | unfold int_max_str_digits; simpl; lia]. }
  refine (conj eq_refl (conj _ (conj G1 (conj G5 (conj G30 (conj I
         (conj eq_refl (conj _ (conj eq_refl (conj _ (conj eq_refl (conj _
         (conj eq_refl (conj _ (conj eq_refl _))))))))))))))).
  - apply (Hno "P1DT2H"). reflexivity.
  - exact (Hcomp (Some "1") None (Some "30") " and more" G1 I G30 eq_refl).
  - exact (Hcomp (Some "1") None None "2" G1 I I eq_refl).
  - exact (Hcomp None None None "12" I I I eq_refl).
  - exact (Hcomp None None (Some "5") "10M" I I G5 eq_refl).
  - exact (Hcomp None (Some "30") None "2H" I G30 I eq_refl).
Defined.

(** C6 as worded fails: a malformed input that starts like an encoding is
    not mapped to 0. *)
Lemma parse_iso_duration_malformed_nonzero :
  parse_iso_duration (Some "PT10Mxyz") = 600%Z /\
  parse_iso_duration (Some "PT10Mxyz") <> 0%Z.
Proof. split; [reflexivity | discriminate]. Qed.

(* ===================================================================== *)
(** ** Properties of the key manager *)
(* ===================================================================== *)

Lemma valid_nonempty (km : KeyManager.t) :
  KeyManager.valid km -> KeyManager.keys km <> [].
Proof.
  unfold KeyManager.valid. destruct (KeyManager.keys km); simpl; [lia | discriminate].
Qed.

Lemma valid_key (km : KeyManager.t) :
  KeyManager.valid km -> exists k, KeyManager.key km = Some k.
Proof.
  unfold KeyManager.valid, KeyManager.key. intros H.
  destruct (nth_error (KeyManager.keys km) (KeyManager.idx km)) eqn:E; eauto.
  apply nth_error_None in E. lia.
Qed.

Lemma rotate_eq (km : KeyManager.t) :
  KeyManager.keys km <> [] ->
  KeyManager.rotate km
  = Some (KeyManager.mk (KeyManager.keys km)
            ((KeyManager.idx km + 1) mod List.length (KeyManager.keys km))).
Proof.
  unfold KeyManager.rotate. destruct (KeyManager.keys km); [congruence | reflexivity].
Qed.

Lemma rotate_valid (km km' : KeyManager.t) :
  KeyManager.rotate km = Some km' ->
  KeyManager.keys km' = KeyManager.keys km /\ KeyManager.valid km'.
Proof.
  intros H.
  assert (Hne : KeyManager.keys km <> []).
  { intros E. unfold KeyManager.rotate in H. rewrite E in H. discriminate. }
  rewrite (rotate_eq km Hne) in H.
  assert (E : km' = KeyManager.mk (KeyManager.keys km)
                ((KeyManager.idx km + 1) mod List.length (KeyManager.keys km)))
    by congruence.
  rewrite E. unfold KeyManager.valid. cbn [KeyManager.keys KeyManager.idx].
  split; [reflexivity|].
  apply Nat.mod_upper_bound. destruct (KeyManager.keys km); simpl; congruence.
Qed.

Lemma rotate_n_eq (n : nat) : forall km,
  KeyManager.valid km ->
  rotate_n n km
  = Some (KeyManager.mk (KeyManager.keys km)
            ((KeyManager.idx km + n) mod List.length (KeyManager.keys km))).
Proof.
  induction n as [|n IH]; intros km Hv.
  - simpl. rewrite Nat.add_0_r, Nat.mod_small by exact Hv.
    destruct km; reflexivity.
  - simpl. rewrite (rotate_eq km (valid_nonempty km Hv)).
    rewrite IH.
    + simpl. f_equal. f_equal.
      rewrite Nat.Div0.add_mod_idemp_l. f_equal. lia.
    + unfold KeyManager.valid. simpl.
      apply Nat.mod_upper_bound.
      pose proof (valid_nonempty km Hv).
      destruct (KeyManager.keys km); simpl; congruence.
Qed.

Lemma add_len_mod (i n : nat) : i < n -> (i + n) mod n = i.
Proof.
  intros H. replace (i + n) with (i + 1 * n) by lia.
  rewrite Nat.Div0.mod_add. apply Nat.mod_small, H.
Qed.

(** C8: on a pool whose cursor is a position of the list, as many rotations
    as there are keys succeed and give back the pool they started from; with
    a single key one rotation already does, and the current key stays. *)
Theorem rotate_full_cycle (km : KeyManager.t) :
  KeyManager.valid km ->
  rotate_n (List.length (KeyManager.keys km)) km = Some km /\
  (List.length (KeyManager.keys km) = 1 ->
   KeyManager.rotate km = Some km /\
   forall km', KeyManager.rotate km = Some km' -> KeyManager.key km' = KeyManager.key km).
Proof.
  intros Hv. split.
  - rewrite (rotate_n_eq _ km Hv), add_len_mod by exact Hv.
    destruct km; reflexivity.
  - intros H1.
    assert (E : KeyManager.rotate km = Some km).
    { rewrite (rotate_eq km (valid_nonempty km Hv)), H1.
      unfold KeyManager.valid in Hv. rewrite H1 in Hv.
      replace (KeyManager.idx km) with 0 by lia. simpl.
      destruct km as [ks i]; simpl in *. f_equal. f_equal. lia. }
    split; [exact E|].
    intros km' E'. rewrite E in E'. injection E' as <-. reflexivity.
Qed.

Lemma rotate_full_cycle_witness :
  KeyManager.valid (KeyManager.mk ["k1"; "k2"; "k3"] 1) /\
  rotate_n 3 (KeyManager.mk ["k1"; "k2"; "k3"] 1)
  = Some (KeyManager.mk ["k1"; "k2"; "k3"] 1).
Proof.
  assert (Hv : KeyManager.valid (KeyManager.mk ["k1"; "k2"; "k3"] 1))
    by (unfold KeyManager.valid; simpl; lia).
  split; [exact Hv|].
  exact (proj1 (rotate_full_cycle (KeyManager.mk ["k1"; "k2"; "k3"] 1) Hv)).
Defined.

Lemma load_some (f : FileRead) (ks : list string) :
  KeyManager._load f = Some ks -> ks <> [].
Proof.
  unfold KeyManager._load. destruct f as [|lines]; [discriminate|].
  destruct (map PyStr.strip _) eqn:E; [discriminate|].
  intros [= <-]. discriminate.
Qed.

Lemma load_none (f : FileRead) :
  KeyManager._load f = None <-> no_key f.
Proof.
  unfold KeyManager._load, no_key. destruct f as [|lines]; [tauto|].
  destruct (map PyStr.strip _) as [|k ks] eqn:E.
  - split; [intros _|reflexivity].
    apply map_eq_nil in E.
    intros line Hin.
    destruct (PyStr.truthy (PyStr.strip line)) eqn:T.
    + assert (In line (filter (fun l => PyStr.truthy (PyStr.strip l)) lines))
        by (apply filter_In; tauto).
      rewrite E in H. destruct H.
    + destruct (PyStr.strip line); [reflexivity | discriminate].
  - split; [discriminate|]. intros Hall. exfalso.
    destruct (filter _ lines) as [|l ls] eqn:F; [discriminate|].
    assert (Hin : In l (filter (fun l => PyStr.truthy (PyStr.strip l)) lines))
      by (rewrite F; left; reflexivity).
    apply filter_In in Hin as [Hin T].
    rewrite (Hall l Hin) in T. discriminate.
Qed.

Lemma init_valid (f : FileRead) (km : KeyManager.t) :
  KeyManager.init f = Some km ->
  KeyManager.keys km <> [] /\ KeyManager.idx km = 0 /\ KeyManager.valid km.
Proof.
  unfold KeyManager.init. destruct (KeyManager._load f) as [ks|] eqn:E; [|discriminate].
  intros [= <-]. apply load_some in E. unfold KeyManager.valid. simpl.
  destruct ks; [congruence|]. repeat split; simpl; try discriminate; lia.
Qed.

Lemma init_none (f : FileRead) : KeyManager.init f = None <-> no_key f.
Proof.
  rewrite <- load_none. unfold KeyManager.init.
  destruct (KeyManager._load f); split; congruence.
Qed.

(* ===================================================================== *)
(** ** Properties of the engine *)
(* ===================================================================== *)

Section EngineFacts.

Variable World : Type.
Variable execute : World -> string -> Request -> Outcome * World.

Implicit Types (st : St World) (km : KeyManager.t).

(** *** The procedures, one step at a time *)

Lemma rotate_run st km1 :
  KeyManager.rotate (st_km st) = Some km1 ->
  rotate st = (Done tt, mkSt km1 (st_world st), [PrintSwitched (KeyManager.idx km1 + 1)]).
Proof.
  intros H. unfold rotate, bind, get_km. rewrite H. reflexivity.
Qed.

(** One iteration of the executor's loop. *)
Lemma api_call_loop_S fuel bf a st :
  api_call_loop execute (S fuel) bf a st =
  if a <? List.length (KeyManager.keys (st_km st)) then
    match KeyManager.key (st_km st) with
    | None => (Done None, st, [PrintError "list index out of range"])
    | Some k =>
        match execute (st_world st) k bf with
        | (Success r, w) => (Done (Some r), mkSt (st_km st) w, [Call k bf (Success r)])
        | (HttpError code msg, w) =>
            if rotating_status code then
              match KeyManager.rotate (st_km st) with
              | Some km1 =>
                  match api_call_loop execute fuel bf (a + 1) (mkSt km1 w) with
                  | (res, st', evs) =>
                      (res, st',
                       Call k bf (HttpError code msg)
                       :: PrintKeyError (PyStr.last6 k) code
                       :: PrintSwitched (KeyManager.idx km1 + 1) :: evs)
                  end
              | None =>
                  (Raised "ZeroDivisionError", mkSt (st_km st) w,
                   [Call k bf (HttpError code msg); PrintKeyError (PyStr.last6 k) code])
              end
            else (Done None, mkSt (st_km st) w,
                  [Call k bf (HttpError code msg); PrintHttp code msg])
        | (OtherError msg, w) =>
            (Done None, mkSt (st_km st) w, [Call k bf (OtherError msg); PrintError msg])
        end
    end
  else (Done None, st, [PrintExhausted]).
Proof.
  cbn [api_call_loop]. unfold bind at 1. unfold get_km.
  destruct (a <? _); [|reflexivity].
  destruct (KeyManager.key (st_km st)) as [k|]; [|reflexivity].
  unfold bind at 1. unfold call.
  destruct (execute (st_world st) k bf) as [[r|code msg|msg] w]; try reflexivity.
  destruct (rotating_status code); [|reflexivity].
  unfold bind at 1. unfold print at 1. unfold bind at 1.
  destruct (KeyManager.rotate (st_km st)) as [km1|] eqn:Er.
  - rewrite (rotate_run (mkSt (st_km st) w) km1 Er). cbn [st_world].
    destruct (api_call_loop execute fuel bf (a + 1) _) as [[res st'] evs].
    reflexivity.
  - unfold rotate, bind, get_km. cbn [st_km]. rewrite Er. reflexivity.
Qed.

(** What a run of the loop looks like from [attempts = a] with [b] attempts
    left: the credentials are visited in cyclic order from the cursor, every
    credential failure is followed by one rotation, and the run ends either
    after [b] credential failures, with nothing, or at the first outcome of
    another kind, with the reply if that outcome is a success. *)
Lemma api_call_loop_spec : forall fuel bf a b st res st' evs,
  KeyManager.valid (st_km st) ->
  a + b = List.length (KeyManager.keys (st_km st)) ->
  b < fuel ->
  api_call_loop execute fuel bf a st = (res, st', evs) ->
  KeyManager.keys (st_km st') = KeyManager.keys (st_km st) /\
  KeyManager.idx (st_km st')
  = (KeyManager.idx (st_km st) + rotations_of evs)
    mod List.length (KeyManager.keys (st_km st)) /\
  (forall j k, nth_error (map fst (calls_of evs)) j = Some k ->
     nth_error (KeyManager.keys (st_km st))
       ((KeyManager.idx (st_km st) + j) mod List.length (KeyManager.keys (st_km st)))
     = Some k) /\
  ((forallb credential_failure (map snd (calls_of evs)) = true /\
    res = Done None /\
    List.length (calls_of evs) = b /\ rotations_of evs = b)
   \/
   (exists pre k o,
      calls_of evs = pre ++ [(k, o)] /\
      forallb credential_failure (map snd pre) = true /\
      credential_failure o = false /\
      List.length pre < b /\ rotations_of evs = List.length pre /\
      res = Done (match o with Success r => Some r | _ => None end))).
Proof.
  induction fuel as [|fuel IH]; intros bf a b st res st' evs Hv Hab Hb Hrun; [lia|].
  rewrite api_call_loop_S in Hrun.
  set (n := List.length (KeyManager.keys (st_km st))) in *.
  assert (Hn : n <> 0) by (unfold KeyManager.valid in Hv; fold n in Hv; lia).
  assert (Hi : KeyManager.idx (st_km st) mod n = KeyManager.idx (st_km st))
    by (apply Nat.mod_small, Hv).
  destruct (a <? n) eqn:Ea.
  2:{ apply Nat.ltb_ge in Ea. injection Hrun as <- <- <-. cbn.
      rewrite Nat.add_0_r, Hi.
      repeat split; try reflexivity.
      - intros [|j] k; discriminate.
      - left. repeat split; lia. }
  apply Nat.ltb_lt in Ea.
  destruct (valid_key _ Hv) as [k Hk]. rewrite Hk in Hrun.
  assert (Hk0 : nth_error (KeyManager.keys (st_km st))
                  ((KeyManager.idx (st_km st) + 0) mod n) = Some k)
    by (rewrite Nat.add_0_r, Hi; exact Hk).
  assert (Hone : forall (o : Outcome) j k',
             nth_error (map fst [(k, o)]) j = Some k' ->
             nth_error (KeyManager.keys (st_km st))
               ((KeyManager.idx (st_km st) + j) mod n) = Some k').
  { intros o [|[|j]] k' Hj; try discriminate. injection Hj as <-. exact Hk0. }
  destruct (execute (st_world st) k bf) as [[r|code msg|msg] w].
  - (* success *)
    injection Hrun as <- <- <-. cbn [st_km calls_of rotations_of].
    rewrite Nat.add_0_r, Hi. repeat split; try reflexivity.
    + apply Hone.
    + right. exists [], k, (Success r). cbn. repeat split; lia.
  - destruct (rotating_status code) eqn:Er.
    + (* a credential failure: rotate and go on *)
      destruct (KeyManager.rotate (st_km st)) as [km1|] eqn:Erot.
      2:{ rewrite (rotate_eq _ (valid_nonempty _ Hv)) in Erot. discriminate. }
      destruct (rotate_valid _ _ Erot) as [Hkeys1 Hv1].
      rewrite (rotate_eq _ (valid_nonempty _ Hv)) in Erot.
      assert (Hidx1 : KeyManager.idx km1 = (KeyManager.idx (st_km st) + 1) mod n)
        by (injection Erot as <-; reflexivity).
      destruct (api_call_loop execute fuel bf (a + 1) (mkSt km1 w))
        as [[res1 st1] evs1] eqn:Erec.
      injection Hrun as <- <- <-.
      destruct (IH bf (a + 1) (b - 1) (mkSt km1 w) res1 st1 evs1)
        as (Hk' & Hi' & Hn' & Hends); cbn [st_km]; try rewrite Hkeys1;
        try assumption; try (fold n; lia).
      cbn [st_km] in *. rewrite Hkeys1 in *. fold n in Hi', Hn'.
      cbn [calls_of rotations_of map fst snd forallb credential_failure].
      rewrite Er. cbn [andb List.length].
      repeat split.
      * exact Hk'.
      * rewrite Hi', Hidx1, Nat.Div0.add_mod_idemp_l. f_equal. lia.
      * intros [|j] k' Hj.
        -- injection Hj as <-. exact Hk0.
        -- cbn in Hj. apply Hn' in Hj.
           rewrite Hidx1, Nat.Div0.add_mod_idemp_l in Hj.
           replace (KeyManager.idx (st_km st) + S j)
             with (KeyManager.idx (st_km st) + 1 + j) by lia.
           exact Hj.
      * destruct Hends as [(Hall & Hres & Hlen & Hrot) | (pre & k' & o & Hcs & Hall & Ho & Hlen & Hrot & Hres)].
        -- left. repeat split; try assumption; lia.
        -- right. exists ((k, HttpError code msg) :: pre), k', o.
           rewrite Hcs. cbn [map snd forallb credential_failure List.length].
           rewrite Er, Hall. repeat split; try assumption; try reflexivity; lia.
    + (* any other status *)
      injection Hrun as <- <- <-. cbn [st_km calls_of rotations_of].
      rewrite Nat.add_0_r, Hi. repeat split; try reflexivity.
      * apply Hone.
      * right. exists [], k, (HttpError code msg). cbn. rewrite Er.
        repeat split; lia.
  - (* any other exception *)
    injection Hrun as <- <- <-. cbn [st_km calls_of rotations_of].
    rewrite Nat.add_0_r, Hi. repeat split; try reflexivity.
    + apply Hone.
    + right. exists [], k, (OtherError msg). cbn. repeat split; lia.
Qed.

Lemma api_call_eq bf st :
  api_call execute bf st
  = api_call_loop execute (S (List.length (KeyManager.keys (st_km st)))) bf 0 st.
Proof.
  unfold api_call, bind, get_km.
  destruct (api_call_loop execute _ bf 0 st) as [[res st'] evs]. reflexivity.
Qed.

(** The cyclic order, position by position. *)
Lemma nth_error_cycle km j :
  KeyManager.valid km -> j < List.length (KeyManager.keys km) ->
  nth_error (cycle_from km) j
  = nth_error (KeyManager.keys km)
      ((KeyManager.idx km + j) mod List.length (KeyManager.keys km)).
Proof.
  unfold KeyManager.valid, cycle_from.
  set (l := KeyManager.keys km). set (i := KeyManager.idx km). intros Hi Hj.
  rewrite nth_error_app, length_skipn.
  destruct (j <? List.length l - i) eqn:E.
  - apply Nat.ltb_lt in E. rewrite nth_error_skipn, Nat.mod_small by lia. reflexivity.
  - apply Nat.ltb_ge in E. rewrite nth_error_firstn.
    replace (j - (List.length l - i) <? i) with true
      by (symmetry; apply Nat.ltb_lt; lia).
    f_equal.
    replace (i + j) with ((j - (List.length l - i)) + 1 * List.length l) by lia.
    rewrite Nat.Div0.mod_add, Nat.mod_small by lia. reflexivity.
Qed.

Lemma length_cycle km :
  List.length (cycle_from km) = List.length (KeyManager.keys km).
Proof.
  unfold cycle_from.
  rewrite <- (firstn_skipn (KeyManager.idx km) (KeyManager.keys km)) at 3.
  rewrite !length_app. lia.
Qed.

(** A list that follows the cyclic order is a prefix of the cycle. *)
Lemma prefix_of_cycle km (l : list string) :
  KeyManager.valid km ->
  List.length l <= List.length (KeyManager.keys km) ->
  (forall j k, nth_error l j = Some k ->
     nth_error (KeyManager.keys km)
       ((KeyManager.idx km + j) mod List.length (KeyManager.keys km)) = Some k) ->
  l = firstn (List.length l) (cycle_from km).
Proof.
  intros Hv Hlen Hnth. apply nth_error_ext. intros j.
  rewrite nth_error_firstn.
  destruct (j <? List.length l) eqn:E.
  - apply Nat.ltb_lt in E.
    destruct (nth_error l j) as [k|] eqn:Ej.
    + rewrite nth_error_cycle by (assumption || lia). symmetry. apply Hnth, Ej.
    + apply nth_error_None in Ej. lia.
  - apply Nat.ltb_ge in E. apply nth_error_None. exact E.
Qed.

Lemma success_not_failure (pre : list (string * Outcome)) k r post :
  forallb credential_failure (map snd (pre ++ (k, Success r) :: post)) = true -> False.
Proof.
  rewrite map_app, forallb_app. cbn. rewrite andb_false_r. discriminate.
Qed.

(** A success among the calls of a run that ended at its first outcome of
    another kind than a credential failure is that last outcome. *)
Lemma success_is_last (pre pre' post : list (string * Outcome)) k k' r o :
  pre ++ (k, Success r) :: post = pre' ++ [(k', o)] ->
  forallb credential_failure (map snd pre') = true ->
  post = [] /\ pre = pre' /\ o = Success r.
Proof.
  intros E Hall.
  destruct post as [|x post] using rev_ind.
  - apply app_inj_tail in E as [-> [= _ <-]]. auto.
  - clear IHpost. exfalso.
    change (pre ++ (k, Success r) :: post ++ [x])
      with (pre ++ ((k, Success r) :: post) ++ [x]) in E.
    rewrite app_assoc in E. apply app_inj_tail in E as [<- _].
    exact (success_not_failure _ _ _ _ Hall).
Qed.

(** The executor as a whole: the loop with every credential still to try. *)
Lemma api_call_spec bf st res st' evs :
  KeyManager.valid (st_km st) ->
  api_call execute bf st = (res, st', evs) ->
  KeyManager.keys (st_km st') = KeyManager.keys (st_km st) /\
  KeyManager.idx (st_km st')
  = (KeyManager.idx (st_km st) + rotations_of evs)
    mod List.length (KeyManager.keys (st_km st)) /\
  map fst (calls_of evs) = firstn (List.length (calls_of evs)) (cycle_from (st_km st)) /\
  ((forallb credential_failure (map snd (calls_of evs)) = true /\
    res = Done None /\
    List.length (calls_of evs) = List.length (KeyManager.keys (st_km st)) /\
    rotations_of evs = List.length (KeyManager.keys (st_km st)))
   \/
   (exists pre k o,
      calls_of evs = pre ++ [(k, o)] /\
      forallb credential_failure (map snd pre) = true /\
      credential_failure o = false /\
      List.length pre < List.length (KeyManager.keys (st_km st)) /\
      rotations_of evs = List.length pre /\
      res = Done (match o with Success r => Some r | _ => None end))).
Proof.
  intros Hv Hrun. rewrite api_call_eq in Hrun.
  destruct (api_call_loop_spec _ bf 0 (List.length (KeyManager.keys (st_km st)))
              st res st' evs Hv eq_refl (Nat.lt_succ_diag_r _) Hrun)
    as (Hk & Hi & Hn & Hends).
  repeat split; try assumption.
  rewrite <- (length_map fst (calls_of evs)).
  apply prefix_of_cycle; [exact Hv| |exact Hn].
  rewrite length_map.
  destruct Hends as [(_ & _ & -> & _) | (pre & k & o & -> & _ & _ & Hlt & _)].
  - lia.
  - rewrite length_app. cbn. lia.
Qed.

Lemma api_call_valid bf st res st' evs :
  KeyManager.valid (st_km st) ->
  api_call execute bf st = (res, st', evs) ->
  KeyManager.keys (st_km st') = KeyManager.keys (st_km st) /\
  KeyManager.valid (st_km st') /\
  exists r, res = Done r.
Proof.
  intros Hv Hrun.
  destruct (api_call_spec bf st res st' evs Hv Hrun) as (Hk & Hi & _ & Hends).
  split; [exact Hk|]. split.
  - unfold KeyManager.valid. rewrite Hi, Hk. apply Nat.mod_upper_bound.
    unfold KeyManager.valid in Hv. lia.
  - destruct Hends as [(_ & -> & _) | (pre & k & o & _ & _ & _ & _ & _ & ->)]; eauto.
Qed.

(** C1: the executor always returns.  When every attempt of a call ends in a
    credential failure (status 403, 429 or 400), nothing is returned, the
    attempts are as many as the pool has credentials and visit them once
    each in cyclic order from the cursor, each failure is followed by one
    rotation, and the cursor is back where it started.  When an attempt
    succeeds it is the last one and its reply is what is returned; a reply
    is returned only so, after credential failures alone, each of which
    rotated the pool. *)
Theorem api_call_rotates_until_success_or_exhaustion bf st res st' evs :
  KeyManager.valid (st_km st) ->
  api_call execute bf st = (res, st', evs) ->
  (exists r, res = Done r) /\
  (forallb credential_failure (map snd (calls_of evs)) = true ->
     res = Done None /\
     List.length (calls_of evs) = List.length (KeyManager.keys (st_km st)) /\
     map fst (calls_of evs) = cycle_from (st_km st) /\
     rotations_of evs = List.length (KeyManager.keys (st_km st)) /\
     st_km st' = st_km st) /\
  (forall pre k r post,
     calls_of evs = pre ++ (k, Success r) :: post ->
     post = [] /\ res = Done (Some r)) /\
  (forall r, res = Done (Some r) ->
     exists pre k,
       calls_of evs = pre ++ [(k, Success r)] /\
       forallb credential_failure (map snd pre) = true /\
       rotations_of evs = List.length pre /\
       List.length pre < List.length (KeyManager.keys (st_km st))).
Proof.
  intros Hv Hrun.
  destruct (api_call_spec bf st res st' evs Hv Hrun) as (Hk & Hi & Hcyc & Hends).
  split; [exact (proj2 (proj2 (api_call_valid bf st res st' evs Hv Hrun)))|].
  split; [|split].
  - intros Hall.
    destruct Hends as [(_ & Hres & Hlen & Hrot) | (pre & k & o & Hcs & _ & Ho & _)].
    + repeat split; try assumption.
      * rewrite Hcyc, Hlen, <- length_cycle. apply firstn_all.
      * destruct (st_km st) as [ks i] eqn:E1, (st_km st') as [ks' i'] eqn:E2.
        cbn in *. subst ks'. f_equal. rewrite Hi, Hrot.
        apply add_len_mod. exact Hv.
    + rewrite Hcs, map_app, forallb_app in Hall. cbn in Hall.
      rewrite Ho, andb_false_r in Hall. discriminate.
  - intros pre k r post Hcs.
    destruct Hends as [(Hall & _) | (pre' & k' & o & Hcs' & Hall & _ & _ & _ & Hres)].
    + rewrite Hcs in Hall. destruct (success_not_failure _ _ _ _ Hall).
    + rewrite Hcs in Hcs'.
      destruct (success_is_last _ _ _ _ _ _ _ Hcs' Hall) as (-> & _ & ->).
      split; [reflexivity | exact Hres].
  - intros r Hres.
    destruct Hends as [(_ & Hnone & _) | (pre & k & o & Hcs & Hall & _ & Hlt & Hrot & Hres')].
    + congruence.
    + rewrite Hres in Hres'. injection Hres' as Hr.
      destruct o as [r'| |]; try discriminate. injection Hr as ->.
      exists pre, k. auto.
Qed.

(** C2, as the code has it: a first attempt that ends in any exception other
    than an [HttpError], or in an [HttpError] whose status is none of 403,
    429 and 400, is the only attempt; nothing is returned, nothing rotates
    and the pool is left as it was.  Status 400 is not of that kind: it is
    handled like 403 and 429. *)
Theorem api_call_fails_fast bf st k o w :
  KeyManager.valid (st_km st) ->
  KeyManager.key (st_km st) = Some k ->
  execute (st_world st) k bf = (o, w) ->
  is_success o = false ->
  credential_failure o = false ->
  (exists line,
     api_call execute bf st = (Done None, mkSt (st_km st) w, [Call k bf o; line]) /\
     calls_of [Call k bf o; line] = [(k, o)] /\
     rotations_of [Call k bf o; line] = 0) /\
  (forall msg, credential_failure (HttpError 400 msg) = true).
Proof.
  intros Hv Hk Hex Hs Hc. split; [|reflexivity].
  rewrite api_call_eq, api_call_loop_S, Hk, Hex.
  replace (0 <? List.length (KeyManager.keys (st_km st))) with true
    by (symmetry; apply Nat.ltb_lt; unfold KeyManager.valid in Hv; lia).
  destruct o as [r|code msg|msg]; [discriminate| |].
  - cbn in Hc. rewrite Hc. eexists. repeat split.
  - eexists. repeat split.
Qed.

(** *** The quota check *)

Lemma calls_of_app (a b : list Event) : calls_of (a ++ b) = calls_of a ++ calls_of b.
Proof.
  induction a as [|[] a IH]; cbn; rewrite ?IH; reflexivity.
Qed.

Lemma rotations_of_app (a b : list Event) :
  rotations_of (a ++ b) = rotations_of a + rotations_of b.
Proof.
  induction a as [|[] a IH]; cbn; rewrite ?IH; reflexivity.
Qed.

Lemma totals_of_app (a b : list Event) : totals_of (a ++ b) = totals_of a ++ totals_of b.
Proof.
  induction a as [|[] a IH]; cbn; rewrite ?IH; reflexivity.
Qed.

Lemma statuses_of_app (a b : list Event) :
  statuses_of (a ++ b) = statuses_of a ++ statuses_of b.
Proof.
  induction a as [|[] a IH]; cbn; rewrite ?IH; reflexivity.
Qed.

Lemma successes_app (a b : list Outcome) : successes (a ++ b) = successes a ++ successes b.
Proof.
  induction a as [|[] a IH]; cbn; rewrite ?IH; reflexivity.
Qed.

Lemma replies_of_app (a b : list Event) : replies_of (a ++ b) = replies_of a ++ replies_of b.
Proof.
  unfold replies_of. rewrite calls_of_app, map_app, successes_app. reflexivity.
Qed.

(** One step of the [for] loop over the keys. *)
Lemma probe_keys_cons i api_key rest fv st :
  probe_keys execute i (api_key :: rest) fv st =
  match execute (st_world st) api_key probe_request with
  | (o, w) =>
      match probe_keys execute (S i) rest
              (match o, fv with Success _, None => Some i | _, _ => fv end)
              (mkSt (st_km st) w) with
      | (res, st', evs) =>
          (res, st',
           Call api_key probe_request o
           :: PrintKeyStatus (i + 1) (PyStr.last6 api_key) (probe_status o) :: evs)
      end
  end.
Proof.
  cbn [probe_keys]. unfold bind at 1. unfold call.
  destruct (execute (st_world st) api_key probe_request) as [o w].
  unfold bind at 1. unfold print at 1.
  destruct (probe_keys execute (S i) rest _ _) as [[res st'] evs]. reflexivity.
Qed.

(** The loop probes every key once, in order, prints one status line per
    key, leaves the pool alone and remembers the first key that answered. *)
Lemma probe_keys_spec : forall ks i fv st res st' evs,
  probe_keys execute i ks fv st = (res, st', evs) ->
  st_km st' = st_km st /\
  map fst (calls_of evs) = ks /\
  statuses_of evs
  = combine (seq (i + 1) (List.length ks))
            (map (fun c => probe_status (snd c)) (calls_of evs)) /\
  rotations_of evs = 0 /\
  res = Done (match fv with
              | Some _ => fv
              | None =>
                  match first_success (map snd (calls_of evs)) with
                  | Some j => Some (i + j)
                  | None => None
                  end
              end).
Proof.
  induction ks as [|api_key rest IH]; intros i fv st res st' evs Hrun.
  - cbn in Hrun. injection Hrun as <- <- <-. cbn.
    destruct fv; repeat split; reflexivity.
  - rewrite probe_keys_cons in Hrun.
    destruct (execute (st_world st) api_key probe_request) as [o w].
    destruct (probe_keys execute (S i) rest _ _) as [[res1 st1] evs1] eqn:Erec.
    injection Hrun as <- <- <-.
    apply IH in Erec as (Hkm & Hcalls & Hst & Hrot & Hres).
    cbn [calls_of statuses_of rotations_of map fst snd List.length seq combine first_success].
    rewrite Hcalls, Hst, Hrot, Hres, Hkm.
    repeat split.
    destruct fv as [v|]; [destruct o; reflexivity|].
    destruct o as [r|code msg|msg]; cbn [is_success].
    + rewrite Nat.add_0_r. reflexivity.
    + destruct (first_success _); [f_equal; f_equal; lia | reflexivity].
    + destruct (first_success _); [f_equal; f_equal; lia | reflexivity].
Qed.

Lemma first_success_spec : forall os i,
  first_success os = Some i ->
  (exists r, nth_error os i = Some (Success r)) /\
  (forall j, j < i -> exists o, nth_error os j = Some o /\ is_success o = false).
Proof.
  induction os as [|o os IH]; intros i H; [discriminate|].
  cbn in H. destruct (is_success o) eqn:Eo.
  - injection H as <-. split; [|intros j Hj; lia].
    destruct o; try discriminate. eexists. reflexivity.
  - destruct (first_success os) as [i'|]; [|discriminate].
    injection H as <-. destruct (IH i' eq_refl) as [Hr Hbefore].
    split; [exact Hr|].
    intros [|j] Hj; [exists o; auto|].
    apply Hbefore. lia.
Qed.

Lemma first_success_none : forall os,
  first_success os = None -> forallb (fun o => negb (is_success o)) os = true.
Proof.
  induction os as [|o os IH]; cbn; [reflexivity|].
  destruct (is_success o); [discriminate|].
  destruct (first_success os); [discriminate|]. intros _. apply IH. reflexivity.
Qed.

Lemma first_success_lt os i : first_success os = Some i -> i < List.length os.
Proof.
  intros H. destruct (first_success_spec os i H) as [[r Hr] _].
  apply nth_error_Some. congruence.
Qed.

(** The quota check in terms of its loop. *)
Lemma check_key_quotas_eq st :
  check_key_quotas execute st =
  match probe_keys execute 0 (KeyManager.keys (st_km st)) None st with
  | (Done (Some i), st1, evs) =>
      (Done None, mkSt (KeyManager.set_idx i (st_km st1)) (st_world st1),
       PrintQuotaHeader :: evs ++ [PrintUsing (i + 1); PrintBlank])
  | (Done None, st1, evs) =>
      (Done None, st1, PrintQuotaHeader :: evs ++ [PrintNoActive; PrintBlank])
  | (Raised x, st1, evs) => (Raised x, st1, PrintQuotaHeader :: evs)
  | (OutOfFuel, st1, evs) => (OutOfFuel, st1, PrintQuotaHeader :: evs)
  end.
Proof.
  unfold check_key_quotas. unfold bind at 1. unfold print at 1.
  unfold bind at 1. unfold get_km at 1. unfold bind at 1.
  destruct (probe_keys execute 0 (KeyManager.keys (st_km st)) None st)
    as [[[[i|]|x|] st1] evs]; reflexivity.
Qed.

(** What a run of the quota check does. *)
Lemma check_key_quotas_run st res st' evs :
  check_key_quotas execute st = (res, st', evs) ->
  res = Done None /\
  KeyManager.keys (st_km st') = KeyManager.keys (st_km st) /\
  map fst (calls_of evs) = KeyManager.keys (st_km st) /\
  statuses_of evs
  = combine (seq 1 (List.length (KeyManager.keys (st_km st))))
            (map (fun c => probe_status (snd c)) (calls_of evs)) /\
  rotations_of evs = 0 /\
  match first_success (map snd (calls_of evs)) with
  | Some i =>
      KeyManager.idx (st_km st') = i /\ In (PrintUsing (i + 1)) evs
  | None =>
      KeyManager.idx (st_km st') = KeyManager.idx (st_km st) /\ In PrintNoActive evs
  end.
Proof.
  rewrite check_key_quotas_eq.
  destruct (probe_keys execute 0 (KeyManager.keys (st_km st)) None st)
    as [[res1 st1] evs1] eqn:Ep.
  destruct (probe_keys_spec _ _ _ _ _ _ _ Ep) as (Hkm & Hcalls & Hst & Hrot & Hres).
  subst res1.
  destruct (first_success (map snd (calls_of evs1))) as [i|] eqn:Ef;
    intros [= <- <- <-];
    cbn [calls_of statuses_of rotations_of st_km];
    rewrite calls_of_app, statuses_of_app, rotations_of_app, app_nil_r, app_nil_r,
      Hrot, Ef; cbn [KeyManager.set_idx KeyManager.keys KeyManager.idx];
    rewrite ?Hkm; repeat split; try assumption.
  - apply in_cons, in_or_app. right. left. reflexivity.
  - apply in_cons, in_or_app. right. left. reflexivity.
Qed.

(** C5, as the code has it: the quota check probes every credential once, in
    pool order, and prints one status line for each.  If some probe
    succeeds, the cursor is set to the position of the earliest one and that
    choice is announced; if none does, the cursor stays where it was and a
    warning is printed.  In both cases the call itself evaluates to nothing
    and the pool keeps its credentials. *)
Theorem check_key_quotas_selects_first_active st res st' evs :
  check_key_quotas execute st = (res, st', evs) ->
  res = Done None /\
  KeyManager.keys (st_km st') = KeyManager.keys (st_km st) /\
  map fst (calls_of evs) = KeyManager.keys (st_km st) /\
  statuses_of evs
  = combine (seq 1 (List.length (KeyManager.keys (st_km st))))
            (map (fun c => probe_status (snd c)) (calls_of evs)) /\
  match first_success (map snd (calls_of evs)) with
  | Some i =>
      KeyManager.idx (st_km st') = i /\
      In (PrintUsing (i + 1)) evs /\
      (exists r, nth_error (map snd (calls_of evs)) i = Some (Success r)) /\
      (forall j, j < i ->
         exists o, nth_error (map snd (calls_of evs)) j = Some o /\ is_success o = false)
  | None =>
      KeyManager.idx (st_km st') = KeyManager.idx (st_km st) /\
      In PrintNoActive evs /\
      forallb (fun o => negb (is_success o)) (map snd (calls_of evs)) = true
  end.
Proof.
  intros Hrun.
  destruct (check_key_quotas_run st res st' evs Hrun)
    as (Hres & Hkeys & Hcalls & Hst & _ & Hsel).
  repeat (split; [assumption|]).
  destruct (first_success (map snd (calls_of evs))) as [i|] eqn:Ef.
  - destruct Hsel as [Hi Hin]. destruct (first_success_spec _ _ Ef) as [Hr Hb]. auto.
  - destruct Hsel as [Hi Hin]. auto using first_success_none.
Qed.

Lemma check_key_quotas_valid st res st' evs :
  KeyManager.valid (st_km st) ->
  check_key_quotas execute st = (res, st', evs) ->
  KeyManager.keys (st_km st') = KeyManager.keys (st_km st) /\
  KeyManager.valid (st_km st').
Proof.
  intros Hv Hrun.
  destruct (check_key_quotas_run st res st' evs Hrun)
    as (_ & Hkeys & Hcalls & _ & _ & Hsel).
  split; [exact Hkeys|]. unfold KeyManager.valid in *. rewrite Hkeys.
  destruct (first_success (map snd (calls_of evs))) as [i|] eqn:Ef.
  - destruct Hsel as [-> _]. apply first_success_lt in Ef.
    rewrite length_map, <- (length_map fst), Hcalls in Ef. exact Ef.
  - destruct Hsel as [-> _]. exact Hv.
Qed.

(** C9: a pool that was constructed has at least one credential and its
    cursor on the first, and construction fails exactly when the file is
    missing or holds no key; a cursor that is a position of the list is one
    again after a rotation (which then cannot fail), after the quota check
    and after any call of the executor, and none of them changes the list. *)
Theorem pool_invariant :
  (forall f km, KeyManager.init f = Some km ->
     KeyManager.keys km <> [] /\ KeyManager.idx km = 0 /\ KeyManager.valid km) /\
  (forall f, KeyManager.init f = None <-> no_key f) /\
  (forall km, KeyManager.valid km ->
     exists km', KeyManager.rotate km = Some km' /\
       KeyManager.keys km' = KeyManager.keys km /\ KeyManager.valid km') /\
  (forall st res st' evs,
     KeyManager.valid (st_km st) ->
     check_key_quotas execute st = (res, st', evs) ->
     KeyManager.keys (st_km st') = KeyManager.keys (st_km st) /\
     KeyManager.valid (st_km st')) /\
  (forall bf st res st' evs,
     KeyManager.valid (st_km st) ->
     api_call execute bf st = (res, st', evs) ->
     KeyManager.keys (st_km st') = KeyManager.keys (st_km st) /\
     KeyManager.valid (st_km st')).
Proof.
  split; [exact init_valid|]. split; [exact init_none|]. split; [|split].
  - intros km Hv. rewrite (rotate_eq km (valid_nonempty km Hv)).
    eexists. split; [reflexivity|].
    apply rotate_valid. apply rotate_eq, valid_nonempty, Hv.
  - exact check_key_quotas_valid.
  - intros bf st res st' evs Hv Hrun.
    destruct (api_call_valid bf st res st' evs Hv Hrun) as (Hk & Hv' & _). auto.
Qed.

(** *** The paginator *)

(** The executor prints no total and receives at most the reply it returns. *)
Lemma api_call_loop_quiet : forall fuel bf a st res st' evs,
  api_call_loop execute fuel bf a st = (res, st', evs) ->
  totals_of evs = [] /\
  replies_of evs = match res with Done (Some r) => [r] | _ => [] end.
Proof.
  induction fuel as [|fuel IH]; intros bf a st res st' evs Hrun.
  - injection Hrun as <- <- <-. split; reflexivity.
  - rewrite api_call_loop_S in Hrun.
    destruct (a <? _); [|injection Hrun as <- <- <-; split; reflexivity].
    destruct (KeyManager.key (st_km st)) as [k|];
      [|injection Hrun as <- <- <-; split; reflexivity].
    destruct (execute (st_world st) k bf) as [[r|code msg|msg] w];
      try (injection Hrun as <- <- <-; split; reflexivity).
    destruct (rotating_status code);
      [|injection Hrun as <- <- <-; split; reflexivity].
    destruct (KeyManager.rotate (st_km st)) as [km1|];
      [|injection Hrun as <- <- <-; split; reflexivity].
    destruct (api_call_loop execute fuel bf (a + 1) (mkSt km1 w))
      as [[res1 st1] evs1] eqn:Erec.
    injection Hrun as <- <- <-. apply IH in Erec as [Ht Hr].
    split; [exact Ht | exact Hr].
Qed.

Lemma api_call_quiet bf st res st' evs :
  api_call execute bf st = (res, st', evs) ->
  totals_of evs = [] /\
  replies_of evs = match res with Done (Some r) => [r] | _ => [] end.
Proof. rewrite api_call_eq. apply api_call_loop_quiet. Qed.

(** The total to print and to remember when a page arrives. *)
Lemma search_loop_S fuel q f acc pt tr st :
  search_loop execute (S fuel) q f acc pt tr st =
  match api_call execute (search_request q f pt) st with
  | (Done resp, st1, evs1) =>
      if not_resp resp then (Done acc, st1, evs1 ++ [])
      else
        match resp with
        | Some r =>
            let tr' := match tr with None => Some (resp_total r) | Some _ => tr end in
            let tevs := match tr with None => [PrintTotal (resp_total r)] | Some _ => [] end in
            if negb (PyStr.truthy_opt (r_nextPageToken r))
            then (Done (acc ++ resp_items r), st1, evs1 ++ tevs ++ [])
            else
              match search_loop execute fuel q f (acc ++ resp_items r)
                      (r_nextPageToken r) tr' st1 with
              | (res, st', evs) =>
                  (res, st',
                   evs1 ++ tevs ++ PrintFetched (List.length (acc ++ resp_items r)) :: evs)
              end
        | None => (Done acc, st1, evs1 ++ [])
        end
  | (Raised x, st1, evs1) => (Raised x, st1, evs1)
  | (OutOfFuel, st1, evs1) => (OutOfFuel, st1, evs1)
  end.
Proof.
  cbn [search_loop]. unfold bind at 1.
  destruct (api_call execute (search_request q f pt) st) as [[[resp|x|] st1] evs1];
    try reflexivity.
  destruct (not_resp resp); [reflexivity|].
  destruct resp as [r|]; [|reflexivity].
  destruct tr as [t|].
  - unfold bind at 1. unfold ret at 1. cbv zeta.
    destruct (negb (PyStr.truthy_opt (r_nextPageToken r))); [reflexivity|].
    unfold bind at 1. unfold print at 1.
    destruct (search_loop execute fuel q f _ _ _ st1) as [[res st'] evs]. reflexivity.
  - unfold bind at 1. unfold bind at 1. unfold print at 1. unfold ret at 1. cbv zeta.
    destruct (negb (PyStr.truthy_opt (r_nextPageToken r))); [reflexivity|].
    unfold bind at 1. unfold print at 1.
    destruct (search_loop execute fuel q f _ _ _ st1) as [[res st'] evs]. reflexivity.
Qed.

(** The loop follows a run of pages: it appends their items in order,
    reports the total of the first page it sees if none was reported before,
    and goes on from where the run ends. *)
Lemma search_loop_pages q f : forall st pt pages st1 pt1,
  page_run execute q f st pt pages st1 pt1 ->
  forall k acc tr,
  exists evs0,
    totals_of evs0
    = match tr, pages with None, r :: _ => [resp_total r] | _, _ => [] end /\
    replies_of evs0 = pages /\
    search_loop execute (List.length pages + k) q f acc pt tr st
    = match search_loop execute k q f (acc ++ List.concat (map resp_items pages)) pt1
              (match tr, pages with None, r :: _ => Some (resp_total r) | _, _ => tr end)
              st1 with
      | (res, st', evs) => (res, st', evs0 ++ evs)
      end.
Proof.
  induction 1 as [st pt | st pt r st1 evs1 pages st2 pt2 Hcall Hr Htok Hrun IH];
    intros k acc tr.
  - exists []. cbn. rewrite app_nil_r.
    destruct tr; (split; [reflexivity|]); (split; [reflexivity|]);
      destruct (search_loop execute k q f acc pt _ st) as [[res st'] evs]; reflexivity.
  - destruct (api_call_quiet _ _ _ _ _ Hcall) as [Hquiet Hrep].
    set (tr' := match tr with None => Some (resp_total r) | Some _ => tr end).
    destruct (IH k (acc ++ resp_items r) tr') as (evs0 & Htot & Hreps & Heq).
    exists (evs1
            ++ match tr with None => [PrintTotal (resp_total r)] | Some _ => [] end
            ++ PrintFetched (List.length (acc ++ resp_items r)) :: evs0).
    split; [|split].
    + rewrite !totals_of_app, Hquiet. cbn [totals_of app].
      rewrite Htot. subst tr'. destruct tr; reflexivity.
    + rewrite !replies_of_app, Hrep.
      replace (replies_of match tr with
                          | Some _ => []
                          | None => [PrintTotal (resp_total r)]
                          end) with (@nil Response) by (destruct tr; reflexivity).
      cbn. f_equal. exact Hreps.
    + cbn [List.length Nat.add]. rewrite search_loop_S, Hcall.
      cbn [not_resp]. rewrite Hr, Htok. cbn [negb]. cbv zeta. fold tr'.
      rewrite Heq. cbn [map List.concat]. rewrite app_assoc.
      replace (match tr' with
               | Some _ => tr'
               | None => match pages with
                         | [] => tr'
                         | r0 :: _ => Some (resp_total r0)
                         end
               end) with tr' by (subst tr'; destruct tr; reflexivity).
      replace (match tr with Some _ => tr | None => Some (resp_total r) end) with tr'
        by reflexivity.
      destruct (search_loop execute k q f _ pt2 tr' st2) as [[res st'] evs].
      rewrite <- !app_assoc. reflexivity.
Qed.

(** C3: when the executor, having returned a run of pages, returns nothing
    (or an empty reply) for the next one, the paginator returns, and what it
    returns is the items of the pages of that run, in page order.  Any number
    of loop iterations above the number of pages is enough. *)
Theorem search_youtube_all_keeps_fetched_pages
  q f st pages st1 pt1 resp st2 evs fuel :
  page_run execute q f st None pages st1 pt1 ->
  api_call execute (search_request q f pt1) st1 = (Done resp, st2, evs) ->
  not_resp resp = true ->
  List.length pages < fuel ->
  exists evs',
    search_youtube_all execute fuel q f st
    = (Done (List.concat (map resp_items pages)), st2, evs') /\
    replies_of evs' = pages ++ match resp with Some r => [r] | None => [] end.
Proof.
  intros Hrun Hcall Hnot Hfuel.
  destruct fuel as [|fuel]; [lia|].
  destruct (search_loop_pages q f _ _ _ _ _ Hrun (S (fuel - List.length pages)) [] None)
    as (evs0 & _ & Hreps & Heq).
  unfold search_youtube_all.
  replace (List.length pages + S (fuel - List.length pages)) with (S fuel) in Heq by lia.
  rewrite Heq.
  rewrite search_loop_S, Hcall, Hnot. cbn [app].
  eexists. split; [reflexivity|].
  rewrite replies_of_app, app_nil_r, Hreps.
  rewrite (proj2 (api_call_quiet _ _ _ _ _ Hcall)). reflexivity.
Qed.

(** C4: when the executor returns a run of pages, each with a continuation
    token, and then a page without one, the paginator returns, and what it
    returns is the items of all these pages, in page order; the one total it
    reports is the one of the first page.  Any number of loop iterations
    above the number of pages is enough. *)
Theorem search_youtube_all_drains_pages
  q f st pages st1 pt1 last st2 evs fuel :
  page_run execute q f st None pages st1 pt1 ->
  api_call execute (search_request q f pt1) st1 = (Done (Some last), st2, evs) ->
  resp_truthy last = true ->
  PyStr.truthy_opt (r_nextPageToken last) = false ->
  List.length pages < fuel ->
  exists evs',
    search_youtube_all execute fuel q f st
    = (Done (List.concat (map resp_items (pages ++ [last]))), st2, evs') /\
    totals_of evs' = [resp_total (hd last pages)] /\
    replies_of evs' = pages ++ [last].
Proof.
  intros Hrun Hcall Hr Htok Hfuel.
  destruct fuel as [|fuel]; [lia|].
  destruct (search_loop_pages q f _ _ _ _ _ Hrun (S (fuel - List.length pages)) [] None)
    as (evs0 & Htot & Hreps & Heq).
  destruct (api_call_quiet _ _ _ _ _ Hcall) as [Hquiet Hrep].
  unfold search_youtube_all.
  replace (List.length pages + S (fuel - List.length pages)) with (S fuel) in Heq by lia.
  rewrite Heq.
  rewrite search_loop_S, Hcall. cbn [not_resp]. rewrite Hr, Htok. cbn [negb app]. cbv zeta.
  rewrite map_app, concat_app. cbn [map List.concat]. rewrite !app_nil_r.
  eexists. split; [reflexivity|]. split.
  - rewrite !totals_of_app, Htot, Hquiet.
    destruct pages; reflexivity.
  - rewrite !replies_of_app, Hreps, Hrep.
    destruct pages; cbn; rewrite ?app_nil_r; reflexivity.
Qed.

(** *** The classifier *)

Lemma is_long_not_short (e : Entry) : is_long e = negb (is_short e).
Proof. unfold is_long, is_short. apply Z.ltb_antisym. Qed.

(** The inner loop is a stable partition of the entries it builds. *)
Lemma classify_items_spec : forall items longs shorts,
  classify_items items longs shorts
  = (longs ++ filter is_long (map make_entry items),
     shorts ++ filter is_short (map make_entry items)).
Proof.
  induction items as [|it items IH]; intros longs shorts; cbn [classify_items map filter].
  - rewrite !app_nil_r. reflexivity.
  - rewrite is_long_not_short.
    change (e_seconds (make_entry it) <=? 60)%Z with (is_short (make_entry it)).
    destruct (is_short (make_entry it)); cbn [negb];
      rewrite IH, <- app_assoc; reflexivity.
Qed.

Lemma entries_of_app (a b : list Response) :
  entries_of (a ++ b) = entries_of a ++ entries_of b.
Proof. unfold entries_of. rewrite map_app, concat_app, map_app. reflexivity. Qed.

Lemma entries_of_one (r : Response) : entries_of [r] = map make_entry (resp_items r).
Proof. unfold entries_of. cbn. rewrite app_nil_r. reflexivity. Qed.

Lemma empty_reply_no_items (r : Response) : resp_truthy r = false -> resp_items r = [].
Proof.
  unfold resp_truthy, resp_items.
  destruct (r_kind r), (r_pageInfo r), (r_nextPageToken r), (r_items r);
    (discriminate || reflexivity).
Qed.

(** One step of the [for] loop over the chunks. *)
Lemma classify_chunks_cons i rest videos longs shorts st :
  classify_chunks execute (i :: rest) videos longs shorts st =
  match api_call execute
          (videos_request (PyStr.join "," (map v_videoId (chunk_at videos i)))) st with
  | (Done resp, st1, evs1) =>
      match
        (if not_resp resp then classify_chunks execute rest videos longs shorts st1
         else
           match resp with
           | Some r =>
               classify_chunks execute rest videos
                 (fst (classify_items (resp_items r) longs shorts))
                 (snd (classify_items (resp_items r) longs shorts)) st1
           | None => classify_chunks execute rest videos longs shorts st1
           end)
      with
      | (res, st', evs) => (res, st', evs1 ++ evs)
      end
  | (Raised x, st1, evs1) => (Raised x, st1, evs1)
  | (OutOfFuel, st1, evs1) => (OutOfFuel, st1, evs1)
  end.
Proof.
  cbn [classify_chunks]. unfold bind at 1.
  destruct (api_call execute _ st) as [[[resp|x|] st1] evs1]; try reflexivity.
  destruct (not_resp resp); [reflexivity|].
  destruct resp as [r|]; [|reflexivity].
  destruct (classify_items (resp_items r) longs shorts) as [longs' shorts'].
  reflexivity.
Qed.

(** Whatever the remote answers, the classifier returns, and the two lists
    are the long and the short entries of the replies received, each in the
    order of arrival. *)
Lemma classify_chunks_spec : forall starts videos longs shorts st res st' evs,
  KeyManager.valid (st_km st) ->
  classify_chunks execute starts videos longs shorts st = (res, st', evs) ->
  res = Done (longs ++ filter is_long (entries_of (replies_of evs)),
              shorts ++ filter is_short (entries_of (replies_of evs))).
Proof.
  induction starts as [|i rest IH]; intros videos longs shorts st res st' evs Hv Hrun.
  - injection Hrun as <- <- <-. cbn. rewrite !app_nil_r. reflexivity.
  - rewrite classify_chunks_cons in Hrun.
    destruct (api_call execute _ st) as [[res1 st1] evs1] eqn:Ecall.
    destruct (api_call_valid _ _ _ _ _ Hv Ecall) as (_ & Hv1 & resp & ->).
    destruct (api_call_quiet _ _ _ _ _ Ecall) as [_ Hrep].
    destruct (not_resp resp) eqn:Enot.
    + destruct (classify_chunks execute rest videos longs shorts st1)
        as [[res2 st2] evs2] eqn:Erec.
      injection Hrun as <- <- <-. apply (IH _ _ _ _ _ _ _ Hv1) in Erec as ->.
      rewrite replies_of_app, entries_of_app, Hrep.
      destruct resp as [r|]; [|reflexivity].
      cbn in Enot. apply negb_true_iff in Enot.
      rewrite entries_of_one, (empty_reply_no_items r Enot). reflexivity.
    + destruct resp as [r|]; [|discriminate].
      rewrite classify_items_spec in Hrun. cbn [fst snd] in Hrun.
      destruct (classify_chunks execute rest videos _ _ st1)
        as [[res2 st2] evs2] eqn:Erec.
      injection Hrun as <- <- <-. apply (IH _ _ _ _ _ _ _ Hv1) in Erec as ->.
      rewrite replies_of_app, entries_of_app, Hrep, entries_of_one,
        !filter_app, <- !app_assoc.
      reflexivity.
Qed.


Lemma chunk_starts_single n : 0 < n <= 50 -> chunk_starts n = [0].
Proof.
  intros H. unfold chunk_starts.
  replace ((n + 49) / 50) with 1; [reflexivity|].
  apply (Nat.div_unique (n + 49) 50 1 (n - 1)); lia.
Qed.

(** C10: a chunk whose lookup returns nothing (or an empty reply) adds no
    entry to either list, and the loop goes on with the next chunk; so for
    a list of at most 50 videos whose lookup returns nothing both lists are
    empty, fewer entries than videos. *)
Theorem classify_videos_skips_failed_chunk :
  (forall i rest videos longs shorts st resp st1 evs1,
     api_call execute
       (videos_request (PyStr.join "," (map v_videoId (chunk_at videos i)))) st
     = (Done resp, st1, evs1) ->
     not_resp resp = true ->
     classify_chunks execute (i :: rest) videos longs shorts st
     = match classify_chunks execute rest videos longs shorts st1 with
       | (res, st', evs) => (res, st', evs1 ++ evs)
       end) /\
  (forall videos st resp st1 evs1,
     0 < List.length videos <= 50 ->
     api_call execute
       (videos_request (PyStr.join "," (map v_videoId (chunk_at videos 0)))) st
     = (Done resp, st1, evs1) ->
     not_resp resp = true ->
     exists longs shorts evs,
       classify_videos execute videos st = (Done (longs, shorts), st1, evs) /\
       longs = [] /\ shorts = [] /\
       List.length longs + List.length shorts < List.length videos).
Proof.
  split.
  - intros i rest videos longs shorts st resp st1 evs1 Hcall Hnot.
    rewrite classify_chunks_cons, Hcall, Hnot. reflexivity.
  - intros videos st resp st1 evs1 Hlen Hcall Hnot.
    unfold classify_videos. rewrite (chunk_starts_single _ Hlen).
    rewrite classify_chunks_cons, Hcall, Hnot. cbn.
    do 3 eexists. repeat split. cbn. lia.
Qed.

End EngineFacts.

(* ===================================================================== *)
(** ** The engine against the simulated remote *)
(* ===================================================================== *)

Lemma surjective_triple {A B C} (x : A * B * C) : x = (fst (fst x), snd (fst x), snd x).
Proof. destruct x as [[a b] c]. reflexivity. Defined.

Lemma api_call_rotates_until_success_or_exhaustion_witness :
  KeyManager.valid (st_km Sim.three_dead) /\
  forallb credential_failure (map snd (calls_of (snd Sim.run_three_dead))) = true /\
  fst (fst Sim.run_three_dead) = Done None /\
  map fst (calls_of (snd Sim.run_three_dead)) = ["k2"; "k3"; "k1"] /\
  rotations_of (snd Sim.run_three_dead) = 3 /\
  st_km (snd (fst Sim.run_three_dead)) = st_km Sim.three_dead.
Proof.
  assert (Hv : KeyManager.valid (st_km Sim.three_dead))
    by (unfold KeyManager.valid; cbn; lia).
  destruct (api_call_rotates_until_success_or_exhaustion
              Sim.World Sim.execute probe_request Sim.three_dead _ _ _ Hv
              (surjective_triple Sim.run_three_dead))
    as (_ & Hall & _ & _).
  destruct (Hall eq_refl) as (Hres & Hlen & Hcyc & Hrot & Hkm).
  split; [exact Hv|]. split; [reflexivity|]. split; [exact Hres|].
  split; [exact Hcyc|]. split; [exact Hrot | exact Hkm].
Defined.

(** With a good credential in the pool the reply of the first successful
    attempt is returned, after one rotation per failure. *)
Example api_call_one_live :
  fst (fst Sim.run_one_live) = Done (Some Sim.page1) /\
  map fst (calls_of (snd Sim.run_one_live)) = ["k2"; "k3"] /\
  rotations_of (snd Sim.run_one_live) = 1 /\
  KeyManager.idx (st_km (snd (fst Sim.run_one_live))) = 2.
Proof. repeat split. Qed.

Lemma api_call_fails_fast_witness :
  KeyManager.valid (st_km Sim.two_live) /\
  KeyManager.key (st_km Sim.two_live) = Some "k1" /\
  Sim.execute (st_world Sim.two_live) "k1" Sim.channels_request
  = (HttpError 503 "Service Unavailable", [("k1", 4); ("k2", 5)]) /\
  exists line,
    api_call Sim.execute Sim.channels_request Sim.two_live
    = (Done None, Sim.pool ["k1"; "k2"] 0 [("k1", 4); ("k2", 5)],
       [Call "k1" Sim.channels_request (HttpError 503 "Service Unavailable"); line]).
Proof.
  assert (Hv : KeyManager.valid (st_km Sim.two_live))
    by (unfold KeyManager.valid; cbn; lia).
  destruct (api_call_fails_fast Sim.World Sim.execute Sim.channels_request Sim.two_live
              "k1" (HttpError 503 "Service Unavailable") [("k1", 4); ("k2", 5)]
              Hv eq_refl eq_refl eq_refl eq_refl)
    as [(line & Hrun & _) _].
  split; [exact Hv|]. split; [reflexivity|]. split; [reflexivity|].
  exists line. exact Hrun.
Defined.

(** C2 as worded fails: a query the remote rejects as malformed comes back
    with status 400 (Bad Request); on a pool of two good credentials the
    executor then makes two attempts and rotates twice. *)
Lemma api_call_retries_malformed_query :
  snd (hd ("", OtherError "") (calls_of (snd Sim.run_bad_request)))
  = HttpError 400 "Bad Request: invalidPageToken" /\
  credential_failure (HttpError 400 "Bad Request: invalidPageToken") = true /\
  List.length (calls_of (snd Sim.run_bad_request)) = 2 /\
  map fst (calls_of (snd Sim.run_bad_request)) = ["k1"; "k2"] /\
  rotations_of (snd Sim.run_bad_request) = 2 /\
  List.length (calls_of (snd Sim.run_bad_request)) <> 1.
Proof. repeat split. cbn. discriminate. Qed.

(** Two pages arrive and the quota runs out on the third request. *)
Lemma page_run_two :
  page_run Sim.execute "cats" Sim.no_filters
    (Sim.single 2) None [Sim.page1; Sim.page2] (Sim.single 0) (Some "T3").
Proof.
  eapply page_run_cons with (st1 := Sim.single 1); [reflexivity..|].
  eapply page_run_cons with (st1 := Sim.single 0); [reflexivity..|].
  apply page_run_nil.
Defined.

Lemma search_youtube_all_keeps_fetched_pages_witness :
  page_run Sim.execute "cats" Sim.no_filters
    (Sim.single 2) None [Sim.page1; Sim.page2] (Sim.single 0) (Some "T3") /\
  fst (fst (api_call Sim.execute (search_request "cats" Sim.no_filters (Some "T3"))
              (Sim.single 0))) = Done None /\
  exists evs',
    search_youtube_all Sim.execute 3 "cats" Sim.no_filters (Sim.single 2)
    = (Done (Sim.results "a" 50 ++ Sim.results "b" 50), Sim.single 0, evs') /\
    List.length (Sim.results "a" 50 ++ Sim.results "b" 50) = 100.
Proof.
  split; [exact page_run_two|]. split; [reflexivity|].
  destruct (search_youtube_all_keeps_fetched_pages Sim.World Sim.execute
              "cats" Sim.no_filters (Sim.single 2) [Sim.page1; Sim.page2]
              (Sim.single 0) (Some "T3") None _ _ 3
              page_run_two
              (surjective_triple
                 (api_call Sim.execute (search_request "cats" Sim.no_filters (Some "T3"))
                    (Sim.single 0)))
              eq_refl (Nat.lt_succ_diag_r 2))
    as (evs' & Hrun & _).
  exists evs'. split; [exact Hrun | reflexivity].
Defined.

(** Three pages arrive, the last without a token. *)
Lemma page_run_three :
  page_run Sim.execute "cats" Sim.no_filters
    (Sim.single 3) None [Sim.page1; Sim.page2] (Sim.single 1) (Some "T3").
Proof.
  eapply page_run_cons with (st1 := Sim.single 2); [reflexivity..|].
  eapply page_run_cons with (st1 := Sim.single 1); [reflexivity..|].
  apply page_run_nil.
Defined.

Lemma search_youtube_all_drains_pages_witness :
  page_run Sim.execute "cats" Sim.no_filters
    (Sim.single 3) None [Sim.page1; Sim.page2] (Sim.single 1) (Some "T3") /\
  fst (fst (api_call Sim.execute (search_request "cats" Sim.no_filters (Some "T3"))
              (Sim.single 1))) = Done (Some Sim.page3) /\
  map (fun r => List.length (resp_items r)) [Sim.page1; Sim.page2; Sim.page3]
  = [50; 50; 13] /\
  map resp_total [Sim.page1; Sim.page2; Sim.page3]
  = [TotalKnown 1000000; TotalKnown 5; TotalKnown 7] /\
  exists items evs',
    search_youtube_all Sim.execute 3 "cats" Sim.no_filters (Sim.single 3)
    = (Done items, Sim.single 0, evs') /\
    items = Sim.results "a" 50 ++ Sim.results "b" 50 ++ Sim.results "c" 13 /\
    List.length items = 113 /\
    totals_of evs' = [TotalKnown 1000000].
Proof.
  split; [exact page_run_three|]. split; [reflexivity|].
  split; [reflexivity|]. split; [reflexivity|].
  destruct (search_youtube_all_drains_pages Sim.World Sim.execute
              "cats" Sim.no_filters (Sim.single 3) [Sim.page1; Sim.page2]
              (Sim.single 1) (Some "T3") Sim.page3 _ _ 3
              page_run_three
              (surjective_triple
                 (api_call Sim.execute (search_request "cats" Sim.no_filters (Some "T3"))
                    (Sim.single 1)))
              eq_refl eq_refl (Nat.lt_succ_diag_r 2))
    as (evs' & Hrun & Htot & _).
  eexists. exists evs'. split; [exact Hrun|].
  split; [reflexivity|]. split; [reflexivity | exact Htot].
Defined.

Lemma check_key_quotas_selects_first_active_witness :
  check_key_quotas Sim.execute Sim.dead_live_live
  = (fst (fst Sim.run_probe), snd (fst Sim.run_probe), snd Sim.run_probe) /\
  map (fun c => probe_status (snd c)) (calls_of (snd Sim.run_probe))
  = [QuotaExhausted; Active; Active] /\
  statuses_of (snd Sim.run_probe) = [(1, QuotaExhausted); (2, Active); (3, Active)] /\
  KeyManager.idx (st_km (snd (fst Sim.run_probe))) = 1 /\
  In (PrintUsing 2) (snd Sim.run_probe).
Proof.
  destruct (check_key_quotas_selects_first_active Sim.World Sim.execute
              Sim.dead_live_live _ _ _ (surjective_triple Sim.run_probe))
    as (_ & _ & _ & Hst & Hsel).
  split; [exact (surjective_triple Sim.run_probe)|]. split; [reflexivity|].
  split; [exact Hst|].
  split; [exact (proj1 Hsel) | exact (proj1 (proj2 Hsel))].
Defined.

(** C5 as worded fails: the second credential is active and becomes the
    current one, yet the quota check returns nothing, not its position. *)
Lemma check_key_quotas_returns_nothing :
  first_success (map snd (calls_of (snd Sim.run_probe))) = Some 1 /\
  KeyManager.idx (st_km (snd (fst Sim.run_probe))) = 1 /\
  fst (fst Sim.run_probe) = Done None /\
  fst (fst Sim.run_probe) <> Done (Some 1).
Proof. repeat split. cbn. discriminate. Qed.


Lemma pool_invariant_witness :
  KeyManager.init Sim.key_file = Some (KeyManager.mk ["k1"; "k2"] 0) /\
  KeyManager.valid (KeyManager.mk ["k1"; "k2"] 0) /\
  no_key Sim.blank_file /\
  KeyManager.init Sim.blank_file = None /\
  KeyManager.init FileNotFound = None /\
  KeyManager.valid (st_km Sim.dead_live_live) /\
  KeyManager.valid (st_km (snd (fst Sim.run_probe))) /\
  KeyManager.valid (st_km Sim.one_live) /\
  KeyManager.valid (st_km (snd (fst Sim.run_one_live))).
Proof.
  destruct (pool_invariant Sim.World Sim.execute)
    as (Hinit & Hnone & _ & Hprobe & Hcall).
  assert (Hblank : no_key Sim.blank_file).
  { intros line [<- | [<- | []]]; reflexivity. }
  assert (Hv1 : KeyManager.valid (st_km Sim.dead_live_live))
    by (unfold KeyManager.valid; cbn; lia).
  assert (Hv2 : KeyManager.valid (st_km Sim.one_live))
    by (unfold KeyManager.valid; cbn; lia).
  split; [reflexivity|].
  split; [exact (proj2 (proj2 (Hinit Sim.key_file _ eq_refl)))|].
  split; [exact Hblank|].
  split; [exact (proj2 (Hnone Sim.blank_file) Hblank)|].
  split; [exact (proj2 (Hnone FileNotFound) I)|].
  split; [exact Hv1|].
  split; [exact (proj2 (Hprobe _ _ _ _ Hv1 (surjective_triple Sim.run_probe)))|].
  split; [exact Hv2|].
  exact (proj2 (Hcall _ _ _ _ _ Hv2 (surjective_triple Sim.run_one_live))).
Defined.

Lemma classify_videos_skips_failed_chunk_witness :
  0 < List.length Sim.four <= 50 /\
  fst (fst (api_call Sim.execute Sim.four_request (Sim.single 0))) = Done None /\
  exists evs,
    classify_videos Sim.execute Sim.four (Sim.single 0)
    = (Done ([], []), Sim.single 0, evs) /\
    List.length (@nil Entry) + List.length (@nil Entry) < List.length Sim.four.
Proof.
  assert (Hlen : 0 < List.length Sim.four <= 50) by (cbn; lia).
  split; [exact Hlen|]. split; [reflexivity|].
  destruct (proj2 (classify_videos_skips_failed_chunk Sim.World Sim.execute)
              Sim.four (Sim.single 0) None _ _ Hlen
              (surjective_triple (api_call Sim.execute Sim.four_request (Sim.single 0)))
              eq_refl)
    as (longs & shorts & evs & Hrun & -> & -> & Hlt).
  exists evs. split; [exact Hrun | exact Hlt].
Defined.

(* ===================================================================== *)
(** ** Properties of safe_filename *)
(* ===================================================================== *)

Section StripFacts.

Variable p : ascii -> bool.

Lemma starts_with_lstrip (s : string) : starts_with p (lstrip_chars p s) = false.
Proof.
  induction s as [|c s IH]; cbn; [reflexivity|].
  destruct (p c) eqn:E; [exact IH | cbn; exact E].
Qed.

Lemma ends_with_rstrip (s : string) : ends_with p (rstrip_chars p s) = false.
Proof.
  induction s as [|c s IH]; cbn; [reflexivity|].
  destruct (rstrip_chars p s) as [|a r] eqn:E.
  - destruct (p c) eqn:Ec; cbn; [reflexivity | exact Ec].
  - exact IH.
Qed.

Lemma starts_with_rstrip (s : string) :
  starts_with p s = false -> starts_with p (rstrip_chars p s) = false.
Proof.
  destruct s as [|c s]; cbn; [reflexivity|]. intros Hc.
  destruct (rstrip_chars p s); [rewrite Hc|]; cbn; exact Hc.
Qed.

Lemma lstrip_chars_id (s : string) : starts_with p s = false -> lstrip_chars p s = s.
Proof. destruct s as [|c s]; cbn; [reflexivity|]. intros ->. reflexivity. Qed.

Lemma rstrip_chars_id (s : string) : ends_with p s = false -> rstrip_chars p s = s.
Proof.
  induction s as [|c s IH]; [reflexivity|].
  destruct s as [|a t].
  - cbn. intros ->. reflexivity.
  - intros H. change (ends_with p (String a t) = false) in H.
    cbn [rstrip_chars]. cbn [rstrip_chars] in IH. rewrite (IH H). reflexivity.
Qed.

Lemma strip_chars_id (s : string) :
  starts_with p s = false -> ends_with p s = false -> strip_chars p s = s.
Proof.
  intros Hs He. unfold strip_chars. rewrite (lstrip_chars_id s Hs).
  apply rstrip_chars_id, He.
Qed.

(** What is stripped has nothing left to strip. *)
Lemma strip_chars_ends (s : string) :
  starts_with p (strip_chars p s) = false /\ ends_with p (strip_chars p s) = false.
Proof.
  unfold strip_chars. split.
  - apply starts_with_rstrip, starts_with_lstrip.
  - apply ends_with_rstrip.
Qed.

Lemma strip_chars_idem (s : string) : strip_chars p (strip_chars p s) = strip_chars p s.
Proof. destruct (strip_chars_ends s). apply strip_chars_id; assumption. Qed.

Variable q : ascii -> bool.

Lemma has_char_lstrip (s : string) :
  has_char q s = false -> has_char q (lstrip_chars p s) = false.
Proof.
  induction s as [|c s IH]; cbn; [reflexivity|]. intros H.
  apply orb_false_iff in H as [Hc Hs].
  destruct (p c); [exact (IH Hs) | cbn; rewrite Hc, Hs; reflexivity].
Qed.

Lemma has_char_rstrip (s : string) :
  has_char q s = false -> has_char q (rstrip_chars p s) = false.
Proof.
  induction s as [|c s IH]; cbn; [reflexivity|]. intros H.
  apply orb_false_iff in H as [Hc Hs]. specialize (IH Hs).
  destruct (rstrip_chars p s) as [|a r].
  - destruct (p c); cbn; [reflexivity | rewrite Hc; reflexivity].
  - cbn [has_char]. cbn [has_char] in IH. rewrite Hc, IH. reflexivity.
Qed.

End StripFacts.

Lemma has_char_remove (p : ascii -> bool) (s : string) :
  has_char p (remove_chars p s) = false.
Proof.
  induction s as [|c s IH]; cbn; [reflexivity|].
  destruct (p c) eqn:E; [exact IH | cbn; rewrite E, IH; reflexivity].
Qed.

Lemma remove_chars_id (p : ascii -> bool) (s : string) :
  has_char p s = false -> remove_chars p s = s.
Proof.
  induction s as [|c s IH]; cbn; [reflexivity|]. intros H.
  apply orb_false_iff in H as [-> Hs]. rewrite (IH Hs). reflexivity.
Qed.

Lemma forallb_remove_chars (p q : ascii -> bool) (s : string) :
  forallb p (list_ascii_of_string (remove_chars q s))
  = forallb (fun c => q c || p c) (list_ascii_of_string s).
Proof.
  induction s as [|c s IH]; cbn; [reflexivity|].
  destruct (q c); cbn; rewrite IH; reflexivity.
Qed.

Lemma forallb_lstrip_chars (p : ascii -> bool) (s : string) :
  forallb p (list_ascii_of_string (lstrip_chars p s))
  = forallb p (list_ascii_of_string s).
Proof.
  induction s as [|c s IH]; cbn; [reflexivity|].
  destruct (p c) eqn:E; cbn; [exact IH | rewrite E; reflexivity].
Qed.

Lemma truthy_rstrip_chars (p : ascii -> bool) (s : string) :
  PyStr.truthy (rstrip_chars p s) = negb (forallb p (list_ascii_of_string s)).
Proof.
  induction s as [|c s IH]; cbn; [reflexivity|].
  destruct (rstrip_chars p s) as [|a r].
  - cbn in IH. apply (f_equal negb) in IH. rewrite negb_involutive in IH.
    rewrite <- IH. cbn. destruct (p c); reflexivity.
  - cbn in IH. apply (f_equal negb) in IH. rewrite negb_involutive in IH.
    rewrite <- IH. cbn. rewrite andb_false_r. reflexivity.
Qed.

(** Stripping leaves nothing exactly of a string made of stripped
    characters. *)
Lemma truthy_strip_chars (p : ascii -> bool) (s : string) :
  PyStr.truthy (strip_chars p s) = negb (forallb p (list_ascii_of_string s)).
Proof.
  unfold strip_chars. rewrite truthy_rstrip_chars, forallb_lstrip_chars. reflexivity.
Qed.

(** X1: whatever the title, the name returned is not empty, holds none of
    the nine characters that the pattern removes, and neither starts nor
    ends with a dot or a space; it is [untitled] when the title has nothing
    but removed characters, dots and spaces, and otherwise the title without
    the removed characters and without the dots and spaces at its two
    ends. *)
Theorem safe_filename_clean (name : string) :
  clean_name (safe_filename name) /\
  (nothing_kept name = true -> safe_filename name = "untitled") /\
  (nothing_kept name = false ->
     safe_filename name = strip_chars dot_or_space (remove_chars illegal_char name) /\
     safe_filename name <> "").
Proof.
  assert (Ek : PyStr.truthy (strip_chars dot_or_space (remove_chars illegal_char name))
               = negb (nothing_kept name)).
  { rewrite truthy_strip_chars, forallb_remove_chars. reflexivity. }
  unfold safe_filename.
  set (r := strip_chars dot_or_space (remove_chars illegal_char name)) in *.
  split; [|split].
  - destruct (PyStr.truthy r) eqn:Et.
    + destruct (strip_chars_ends dot_or_space (remove_chars illegal_char name))
        as [Hs He]. fold r in Hs, He.
      repeat split; try assumption.
      * intros E. rewrite E in Et. discriminate.
      * unfold r, strip_chars.
        apply has_char_rstrip, has_char_lstrip, has_char_remove.
    + repeat split. discriminate.
  - intros H. rewrite Ek, H. reflexivity.
  - intros H. rewrite Ek, H. cbn [negb]. split; [reflexivity|].
    intros E. rewrite E, H in Ek. discriminate.
Qed.

Lemma safe_filename_clean_witness :
  nothing_kept " .?*<>|. " = true /\
  safe_filename " .?*<>|. " = "untitled" /\
  nothing_kept "" = true /\
  safe_filename "" = "untitled" /\
  nothing_kept " a/b: c?. " = false /\
  safe_filename " a/b: c?. " = "ab c" /\
  clean_name (safe_filename " a/b: c?. ").
Proof.
  destruct (safe_filename_clean " .?*<>|. ") as (_ & Hu & _).
  destruct (safe_filename_clean "") as (_ & He & _).
  destruct (safe_filename_clean " a/b: c?. ") as (Hc & _ & Hk).
  refine (conj eq_refl (conj (Hu eq_refl) (conj eq_refl (conj (He eq_refl)
         (conj eq_refl (conj _ Hc)))))).
  exact (proj1 (Hk eq_refl)).
Defined.

Lemma safe_filename_fixes_clean (s : string) : clean_name s -> safe_filename s = s.
Proof.
  intros (Hne & Hill & Hs & He). unfold safe_filename.
  rewrite (remove_chars_id _ _ Hill), (strip_chars_id _ _ Hs He).
  destruct s; [congruence | reflexivity].
Qed.

(** X2: a name that is already clean is returned as it is, so cleaning a
    name twice gives what cleaning it once gives. *)
Theorem safe_filename_idempotent :
  (forall s, clean_name s -> safe_filename s = s) /\
  (forall name, safe_filename (safe_filename name) = safe_filename name).
Proof.
  split; [exact safe_filename_fixes_clean|].
  intros name. apply safe_filename_fixes_clean.
  unfold safe_filename.
  set (r := strip_chars dot_or_space (remove_chars illegal_char name)).
  destruct (PyStr.truthy r) eqn:Et.
  - destruct (strip_chars_ends dot_or_space (remove_chars illegal_char name))
      as [Hs He]. fold r in Hs, He.
    repeat split; try assumption.
    + intros E. rewrite E in Et. discriminate.
    + unfold r, strip_chars.
      apply has_char_rstrip, has_char_lstrip, has_char_remove.
  - repeat split. discriminate.
Qed.

Lemma safe_filename_idempotent_witness :
  clean_name "My video [part 2]" /\
  safe_filename "My video [part 2]" = "My video [part 2]" /\
  safe_filename " What? <now>... " = "What now" /\
  safe_filename (safe_filename " What? <now>... ") = "What now".
Proof.
  assert (Hc : clean_name "My video [part 2]")
    by (split; [discriminate | repeat split]).
  split; [exact Hc|].
  split; [exact (proj1 safe_filename_idempotent _ Hc)|].
  split; [reflexivity|].
  exact (proj2 safe_filename_idempotent " What? <now>... ").
Defined.

(* ===================================================================== *)
(** ** Properties of the line readers *)
(* ===================================================================== *)

Lemma lstrip_as_chars (s : string) : PyStr.lstrip s = lstrip_chars PyStr.is_space s.
Proof. induction s as [|c s IH]; cbn; [|rewrite IH]; reflexivity. Qed.

Lemma rstrip_as_chars (s : string) : PyStr.rstrip s = rstrip_chars PyStr.is_space s.
Proof. induction s as [|c s IH]; cbn; [|rewrite IH]; reflexivity. Qed.

Lemma strip_as_chars (s : string) : PyStr.strip s = strip_chars PyStr.is_space s.
Proof. unfold PyStr.strip, strip_chars. rewrite rstrip_as_chars, lstrip_as_chars. reflexivity. Qed.

Lemma strip_idem (s : string) : PyStr.strip (PyStr.strip s) = PyStr.strip s.
Proof. rewrite !strip_as_chars. apply strip_chars_idem. Qed.

Lemma strip_ends (s : string) :
  starts_with PyStr.is_space (PyStr.strip s) = false /\
  ends_with PyStr.is_space (PyStr.strip s) = false.
Proof. rewrite strip_as_chars. apply strip_chars_ends. Qed.

(** X3: every key the key manager loads is a non-empty string without white
    space at either end (so without the line's newline), and there are no
    more keys than lines. *)
Theorem load_keys_stripped (lines ks : list string) :
  KeyManager._load (FileLines lines) = Some ks ->
  List.length ks <= List.length lines /\
  forall k, In k ks ->
    k <> "" /\ PyStr.strip k = k /\
    starts_with PyStr.is_space k = false /\ ends_with PyStr.is_space k = false.
Proof.
  unfold KeyManager._load.
  destruct (map PyStr.strip _) as [|k0 ks0] eqn:E; [discriminate|].
  intros [= <-]. rewrite <- E. split.
  - rewrite length_map. apply filter_length_le.
  - intros k Hin. apply in_map_iff in Hin as (line & <- & Hin).
    apply filter_In in Hin as [_ Ht].
    destruct (strip_ends line) as [Hs He].
    repeat split; try assumption.
    + intros E'. rewrite E' in Ht. discriminate.
    + apply strip_idem.
Qed.

Lemma load_keys_stripped_witness :
  KeyManager._load Sim.key_file = Some ["k1"; "k2"] /\
  List.length ["k1"; "k2"] <= 3 /\
  PyStr.strip "k2" = "k2".
Proof.
  destruct (load_keys_stripped _ ["k1"; "k2"] (eq_refl : KeyManager._load Sim.key_file = _))
    as [Hlen Hall].
  split; [reflexivity|]. split; [exact Hlen|].
  exact (proj1 (proj2 (Hall "k2" (or_intror (or_introl eq_refl))))).
Defined.

Lemma read_urls_spec (lines : list string) (u : string) :
  In u (read_urls lines) ->
  u <> "" /\ PyStr.strip u = u /\ is_comment u = false.
Proof.
  unfold read_urls. intros Hin.
  apply in_map_iff in Hin as (line & <- & Hin).
  apply filter_In in Hin as [_ Ht]. apply andb_prop in Ht as [Ht Hc].
  repeat split.
  - intros E. rewrite E in Ht. discriminate.
  - apply strip_idem.
  - apply negb_true_iff, Hc.
Qed.

(** X4: [mode_download] never changes a file that exists, and it hands links
    to the downloader only when there is at least one, each of them a
    non-empty stripped line that is not a comment.  When the file does not
    exist it writes the template, and on that file the next run finds no
    link. *)
Theorem mode_download_links :
  (forall lines step f',
     mode_download (FileLines lines) = (step, f') ->
     f' = FileLines lines /\ step <> TemplateCreated /\
     forall urls, step = StartDownload urls ->
       urls = read_urls lines /\ urls <> [] /\
       forall u, In u urls -> u <> "" /\ PyStr.strip u = u /\ is_comment u = false) /\
  (forall step f',
     mode_download FileNotFound = (step, f') ->
     step = TemplateCreated /\ mode_download f' = (NoUrls, f')).
Proof.
  split.
  - intros lines step f'. unfold mode_download.
    destruct (read_urls lines) as [|u0 us] eqn:E; intros [= <- <-];
      (split; [reflexivity|]); (split; [discriminate|]);
      intros urls [= <-].
    split; [reflexivity|]. split; [discriminate|].
    intros u Hin. apply (read_urls_spec lines). rewrite E. exact Hin.
  - intros step f' [= <- <-]. split; reflexivity.
Qed.

Lemma mode_download_links_witness :
  mode_download (FileLines ["# my list"; " https://youtu.be/abcdefghijk "; ""])
  = (StartDownload ["https://youtu.be/abcdefghijk"],
     FileLines ["# my list"; " https://youtu.be/abcdefghijk "; ""]) /\
  "https://youtu.be/abcdefghijk" <> "" /\
  mode_download (snd (mode_download FileNotFound)) = (NoUrls, FileLines links_template).
Proof.
  destruct mode_download_links as [Hfile Hnew].
  destruct (Hfile ["# my list"; " https://youtu.be/abcdefghijk "; ""] _ _ eq_refl)
    as (_ & _ & Hurls).
  destruct (Hurls _ eq_refl) as (_ & _ & Hall).
  split; [reflexivity|].
  split; [exact (proj1 (Hall _ (or_introl eq_refl)))|].
  exact (proj2 (Hnew _ _ eq_refl)).
Defined.

(* ===================================================================== *)
(** ** More properties of the engine *)
(* ===================================================================== *)

Section EngineMoreFacts.

Variable World : Type.
Variable execute : World -> string -> Request -> Outcome * World.

Implicit Types (st : St World) (km : KeyManager.t).

Lemma requests_of_app (a b : list Event) :
  requests_of (a ++ b) = requests_of a ++ requests_of b.
Proof.
  induction a as [|[] a IH]; cbn; rewrite ?IH; reflexivity.
Qed.

(** Every attempt of the executor sends the request it was given. *)
Lemma api_call_loop_requests : forall fuel bf a st res st' evs,
  api_call_loop execute fuel bf a st = (res, st', evs) ->
  forall req, In req (requests_of evs) -> req = bf.
Proof.
  induction fuel as [|fuel IH]; intros bf a st res st' evs Hrun req Hin.
  - injection Hrun as <- <- <-. destruct Hin.
  - rewrite api_call_loop_S in Hrun.
    destruct (a <? _); [|injection Hrun as <- <- <-; destruct Hin].
    destruct (KeyManager.key (st_km st)) as [k|];
      [|injection Hrun as <- <- <-; destruct Hin].
    destruct (execute (st_world st) k bf) as [[r|code msg|msg] w];
      try (injection Hrun as <- <- <-; destruct Hin as [<-|[]]; reflexivity).
    destruct (rotating_status code);
      [|injection Hrun as <- <- <-; destruct Hin as [<-|[]]; reflexivity].
    destruct (KeyManager.rotate (st_km st)) as [km1|];
      [|injection Hrun as <- <- <-; destruct Hin as [<-|[]]; reflexivity].
    destruct (api_call_loop execute fuel bf (a + 1) (mkSt km1 w))
      as [[res1 st1] evs1] eqn:Erec.
    injection Hrun as <- <- <-. destruct Hin as [<-|Hin]; [reflexivity|].
    exact (IH _ _ _ _ _ _ Erec req Hin).
Qed.

Lemma in_cycle km k : In k (cycle_from km) -> In k (KeyManager.keys km).
Proof.
  unfold cycle_from. intros H.
  rewrite <- (firstn_skipn (KeyManager.idx km) (KeyManager.keys km)).
  apply in_app_or in H. apply in_or_app. tauto.
Qed.

Lemma in_firstn {A} (n : nat) (l : list A) (x : A) : In x (firstn n l) -> In x l.
Proof.
  intros H. rewrite <- (firstn_skipn n l). apply in_or_app. left. exact H.
Qed.

(** X5: on a pool whose cursor is valid, one call of the executor sends at
    least one request and at most one per credential; every one of them is
    the request it was given, sent with a credential of the pool. *)
Theorem api_call_cost bf st res st' evs :
  KeyManager.valid (st_km st) ->
  api_call execute bf st = (res, st', evs) ->
  1 <= List.length (calls_of evs) <= List.length (KeyManager.keys (st_km st)) /\
  (forall k o, In (k, o) (calls_of evs) -> In k (KeyManager.keys (st_km st))) /\
  (forall req, In req (requests_of evs) -> req = bf).
Proof.
  intros Hv Hrun.
  destruct (api_call_spec _ execute bf st res st' evs Hv Hrun)
    as (_ & _ & Hcyc & Hends).
  split; [|split].
  - unfold KeyManager.valid in Hv.
    destruct Hends as [(_ & _ & -> & _) | (pre & k & o & -> & _ & _ & Hlt & _)].
    + lia.
    + rewrite length_app. cbn. lia.
  - intros k o Hin. apply (in_cycle (st_km st)).
    apply (in_firstn (List.length (calls_of evs))). rewrite <- Hcyc.
    apply (in_map fst) in Hin. exact Hin.
  - rewrite api_call_eq in Hrun. exact (api_call_loop_requests _ _ _ _ _ _ _ Hrun).
Qed.

(** X6: when a call of the executor ends on an outcome that is not a
    credential failure (a reply, or an error it does not retry), the cursor
    is left on the credential of that last attempt: the next call starts
    with it. *)
Theorem api_call_cursor_sticks bf st res st' evs pre k o :
  KeyManager.valid (st_km st) ->
  api_call execute bf st = (res, st', evs) ->
  calls_of evs = pre ++ [(k, o)] ->
  credential_failure o = false ->
  KeyManager.key (st_km st') = Some k /\
  KeyManager.idx (st_km st')
  = (KeyManager.idx (st_km st) + List.length pre)
    mod List.length (KeyManager.keys (st_km st)).
Proof.
  intros Hv Hrun Hcs Ho.
  destruct (api_call_spec _ execute bf st res st' evs Hv Hrun)
    as (Hkeys & Hidx & Hcyc & Hends).
  destruct Hends as [(Hall & _) | (pre' & k' & o' & Hcs' & _ & _ & Hlt & Hrot & _)].
  { rewrite Hcs, map_app, forallb_app in Hall. cbn in Hall.
    rewrite Ho, andb_false_r in Hall. discriminate. }
  rewrite Hcs in Hcs'. apply app_inj_tail in Hcs' as [<- _].
  rewrite Hrot in Hidx. split; [|exact Hidx].
  unfold KeyManager.key. rewrite Hkeys, Hidx.
  rewrite <- nth_error_cycle by (assumption || lia).
  assert (Hk : nth_error (map fst (calls_of evs)) (List.length pre) = Some k).
  { rewrite Hcs, map_app, nth_error_app2 by (rewrite length_map; lia).
    rewrite length_map, Nat.sub_diag. reflexivity. }
  rewrite Hcyc, nth_error_firstn in Hk.
  destruct (List.length pre <? List.length (calls_of evs)); [exact Hk | discriminate].
Qed.

(** X7: after the quota check has found an active credential, the first
    attempt of the next call of the executor is made with that credential. *)
Theorem check_key_quotas_then_api_call st r0 st1 evs1 i bf res st2 evs2 :
  check_key_quotas execute st = (r0, st1, evs1) ->
  first_success (map snd (calls_of evs1)) = Some i ->
  api_call execute bf st1 = (res, st2, evs2) ->
  exists k o rest,
    calls_of evs2 = (k, o) :: rest /\
    nth_error (KeyManager.keys (st_km st)) i = Some k.
Proof.
  intros Hprobe Hfirst Hcall.
  destruct (check_key_quotas_run _ execute st r0 st1 evs1 Hprobe)
    as (_ & Hkeys & Hcalls & _ & _ & Hsel).
  rewrite Hfirst in Hsel. destruct Hsel as [Hidx _].
  assert (Hi : i < List.length (KeyManager.keys (st_km st))).
  { apply first_success_lt in Hfirst.
    rewrite length_map, <- (length_map fst), Hcalls in Hfirst. exact Hfirst. }
  assert (Hv1 : KeyManager.valid (st_km st1))
    by (unfold KeyManager.valid; rewrite Hidx, Hkeys; exact Hi).
  destruct (api_call_spec _ execute bf st1 res st2 evs2 Hv1 Hcall)
    as (_ & _ & Hcyc & Hends).
  assert (Hlen : 1 <= List.length (calls_of evs2)).
  { unfold KeyManager.valid in Hv1.
    destruct Hends as [(_ & _ & -> & _) | (pre & k & o & -> & _)].
    - lia.
    - rewrite length_app. cbn. lia. }
  destruct (calls_of evs2) as [|[k o] rest] eqn:E; [cbn in Hlen; lia|].
  exists k, o, rest. split; [reflexivity|].
  assert (H0 : nth_error (map fst ((k, o) :: rest)) 0 = Some k) by reflexivity.
  rewrite Hcyc, nth_error_firstn in H0. cbn [List.length Nat.ltb Nat.leb] in H0.
  rewrite nth_error_cycle in H0 by (assumption || (unfold KeyManager.valid in Hv1; lia)).
  rewrite Nat.add_0_r, Nat.mod_small, Hidx, Hkeys in H0 by exact Hv1.
  exact H0.
Qed.

(** The paginator under any remote: it keeps the pool valid, what it
    returns is what it had plus the items of all the replies it received,
    in order, and it reports the total of the first non-empty reply unless
    a total was reported before. *)
Lemma search_loop_spec q f : forall fuel acc pt tr st res st' evs,
  KeyManager.valid (st_km st) ->
  search_loop execute fuel q f acc pt tr st = (res, st', evs) ->
  KeyManager.keys (st_km st') = KeyManager.keys (st_km st) /\
  KeyManager.valid (st_km st') /\
  (res = OutOfFuel \/
   res = Done (acc ++ List.concat (map resp_items (replies_of evs)))) /\
  totals_of evs
  = match tr with
    | Some _ => []
    | None => map resp_total (firstn 1 (filter resp_truthy (replies_of evs)))
    end.
Proof.
  induction fuel as [|fuel IH]; intros acc pt tr st res st' evs Hv Hrun.
  - injection Hrun as <- <- <-. repeat split; auto. destruct tr; reflexivity.
  - rewrite search_loop_S in Hrun.
    destruct (api_call execute (search_request q f pt) st) as [[res1 st1] evs1] eqn:Ecall.
    destruct (api_call_valid _ execute _ _ _ _ _ Hv Ecall) as (Hk1 & Hv1 & resp & ->).
    destruct (api_call_quiet _ execute _ _ _ _ _ Ecall) as [Hquiet Hrep].
    destruct (not_resp resp) eqn:Enot.
    + injection Hrun as <- <- <-. rewrite app_nil_r, Hquiet, Hrep.
      repeat split; try assumption.
      * right. destruct resp as [r|]; cbn; [|rewrite app_nil_r; reflexivity].
        cbn in Enot. apply negb_true_iff in Enot.
        rewrite (empty_reply_no_items r Enot), app_nil_r. reflexivity.
      * destruct tr; [reflexivity|]. destruct resp as [r|]; [|reflexivity].
        cbn in Enot. apply negb_true_iff in Enot. cbn. rewrite Enot. reflexivity.
    + destruct resp as [r|]; [|discriminate].
      cbn in Enot. apply negb_false_iff in Enot. cbv zeta in Hrun.
      assert (Htev : totals_of (match tr with
                                | Some _ => []
                                | None => [PrintTotal (resp_total r)]
                                end)
                     = match tr with Some _ => [] | None => [resp_total r] end)
        by (destruct tr; reflexivity).
      assert (Hrev : replies_of (match tr with
                                 | Some _ => []
                                 | None => [PrintTotal (resp_total r)]
                                 end) = [])
        by (destruct tr; reflexivity).
      destruct (negb (PyStr.truthy_opt (r_nextPageToken r))).
      * injection Hrun as <- <- <-.
        rewrite !totals_of_app, !replies_of_app, Hquiet, Hrep, Htev, Hrev.
        cbn [app totals_of replies_of map List.concat filter firstn]. rewrite Enot.
        repeat split; try assumption.
        -- right. cbn. rewrite !app_nil_r. reflexivity.
        -- destruct tr; reflexivity.
      * destruct (search_loop execute fuel q f _ _ _ st1) as [[res2 st2] evs2] eqn:Erec.
        injection Hrun as <- <- <-.
        destruct (IH _ _ _ _ _ _ _ Hv1 Erec) as (Hk2 & Hv2 & Hres & Htot).
        rewrite !totals_of_app, !replies_of_app, Hquiet, Hrep, Htev, Hrev.
        cbn [app totals_of replies_of map List.concat filter firstn].
        rewrite Enot. cbn [firstn map].
        repeat split; try congruence.
        -- destruct Hres as [-> | ->]; [left; reflexivity|right].
           rewrite <- app_assoc. reflexivity.
        -- change (totals_of (PrintFetched (List.length (acc ++ resp_items r)) :: evs2))
             with (totals_of evs2).
           rewrite Htot. destruct tr; reflexivity.
Qed.

(** X8: for replies of the documented form (the page information, the
    total, the items and the continuation token are absent or of their
    documented type), whenever the paginator returns, what it returns is
    exactly the items of the replies received during the run, in order of
    arrival, the only total it has reported is that of the first non-empty
    reply, and the pool is left valid with the same credentials. *)
Theorem search_youtube_all_returns_what_arrived fuel q f st items st' evs :
  KeyManager.valid (st_km st) ->
  search_youtube_all execute fuel q f st = (Done items, st', evs) ->
  items = List.concat (map resp_items (replies_of evs)) /\
  totals_of evs = map resp_total (firstn 1 (filter resp_truthy (replies_of evs))) /\
  KeyManager.keys (st_km st') = KeyManager.keys (st_km st) /\
  KeyManager.valid (st_km st').
Proof.
  intros Hv Hrun. unfold search_youtube_all in Hrun.
  destruct (search_loop_spec q f _ _ _ _ _ _ _ _ Hv Hrun) as (Hk & Hv' & Hres & Htot).
  repeat split; try assumption.
  destruct Hres as [Hres | Hres]; [discriminate Hres|].
  injection Hres as ->. reflexivity.
Qed.

End EngineMoreFacts.

(* ===================================================================== *)
(** ** More properties of the classifier *)
(* ===================================================================== *)

Lemma firstn_add {A} (a b : nat) : forall l : list A,
  firstn (a + b) l = firstn a l ++ firstn b (skipn a l).
Proof.
  induction a as [|a IH]; intros l; [reflexivity|].
  destruct l as [|x l]; cbn.
  - rewrite firstn_nil. reflexivity.
  - rewrite IH. reflexivity.
Qed.

Lemma concat_chunks (videos : list Video) (m : nat) :
  List.concat (map (fun k => chunk_at videos (50 * k)) (seq 0 m))
  = firstn (50 * m) videos.
Proof.
  induction m as [|m IH]; [reflexivity|].
  rewrite seq_S, map_app, concat_app, IH. cbn [map List.concat Nat.add].
  rewrite app_nil_r. unfold chunk_at.
  replace (50 * S m) with (50 * m + 50) by lia.
  symmetry. apply firstn_add.
Qed.

Lemma chunk_count_covers (n : nat) : n <= 50 * ((n + 49) / 50).
Proof.
  pose proof (Nat.div_mod_eq (n + 49) 50) as E.
  pose proof (Nat.mod_upper_bound (n + 49) 50 ltac:(discriminate)) as L.
  lia.
Qed.

Lemma chunk_start_inside (n k : nat) : k < (n + 49) / 50 -> 50 * k < n.
Proof.
  intros H.
  pose proof (Nat.div_mod_eq (n + 49) 50) as E.
  pose proof (Nat.mod_upper_bound (n + 49) 50 ltac:(discriminate)) as L.
  nia.
Qed.

Section ClassifierMoreFacts.

Variable World : Type.
Variable execute : World -> string -> Request -> Outcome * World.

(** Every request of the loop is the lookup of one of its chunks. *)
Lemma classify_chunks_requests : forall starts videos longs shorts
    (st : St World) res st' evs,
  classify_chunks execute starts videos longs shorts st = (res, st', evs) ->
  forall req, In req (requests_of evs) ->
    exists i, In i starts /\
      req = videos_request (PyStr.join "," (map v_videoId (chunk_at videos i))).
Proof.
  induction starts as [|i rest IH]; intros videos longs shorts st res st' evs Hrun req Hin.
  - injection Hrun as <- <- <-. destruct Hin.
  - rewrite classify_chunks_cons in Hrun.
    destruct (api_call execute _ st) as [[res1 st1] evs1] eqn:Ecall.
    assert (Hreq1 : forall req, In req (requests_of evs1) ->
              req = videos_request (PyStr.join "," (map v_videoId (chunk_at videos i)))).
    { rewrite api_call_eq in Ecall.
      exact (api_call_loop_requests _ execute _ _ _ _ _ _ _ Ecall). }
    assert (Hrec : forall longs' shorts' res2 st2 evs2,
              classify_chunks execute rest videos longs' shorts' st1 = (res2, st2, evs2) ->
              In req (requests_of (evs1 ++ evs2)) ->
              exists i0, In i0 (i :: rest) /\
                req = videos_request
                        (PyStr.join "," (map v_videoId (chunk_at videos i0)))).
    { intros longs' shorts' res2 st2 evs2 Erec Hin'.
      rewrite requests_of_app in Hin'. apply in_app_or in Hin' as [H1|H2].
      - exists i. split; [left; reflexivity | exact (Hreq1 _ H1)].
      - destruct (IH _ _ _ _ _ _ _ Erec req H2) as (i0 & Hi0 & E).
        exists i0. split; [right; exact Hi0 | exact E]. }
    destruct res1 as [resp|x|].
    + destruct (not_resp resp).
      * destruct (classify_chunks execute rest videos longs shorts st1)
          as [[res2 st2] evs2] eqn:Erec.
        injection Hrun as <- <- <-. exact (Hrec _ _ _ _ _ Erec Hin).
      * destruct resp as [r|].
        -- destruct (classify_chunks execute rest videos _ _ st1)
             as [[res2 st2] evs2] eqn:Erec.
           injection Hrun as <- <- <-. exact (Hrec _ _ _ _ _ Erec Hin).
        -- destruct (classify_chunks execute rest videos longs shorts st1)
             as [[res2 st2] evs2] eqn:Erec.
           injection Hrun as <- <- <-. exact (Hrec _ _ _ _ _ Erec Hin).
    + injection Hrun as <- <- <-. exists i. split; [left; reflexivity | exact (Hreq1 _ Hin)].
    + injection Hrun as <- <- <-. exists i. split; [left; reflexivity | exact (Hreq1 _ Hin)].
Qed.

(** X9: the classifier cuts the list of videos into consecutive chunks that
    together are the whole list, each of 1 to 50 videos, and every request
    it sends is the lookup of the identifiers of one of these chunks. *)
Theorem classify_videos_chunks (videos : list Video) :
  let chunks := map (chunk_at videos) (chunk_starts (List.length videos)) in
  List.concat chunks = videos /\
  (forall chunk, In chunk chunks -> 0 < List.length chunk <= 50) /\
  (forall (st : St World) res st' evs,
     classify_videos execute videos st = (res, st', evs) ->
     forall req, In req (requests_of evs) ->
       exists chunk, In chunk chunks /\
         req = videos_request (PyStr.join "," (map v_videoId chunk))).
Proof.
  cbv zeta. unfold chunk_starts. rewrite map_map. split; [|split].
  - rewrite concat_chunks. apply firstn_all2, chunk_count_covers.
  - intros chunk Hin. apply in_map_iff in Hin as (k & <- & Hk).
    apply in_seq in Hk as [_ Hk]. cbn in Hk. apply chunk_start_inside in Hk.
    unfold chunk_at. rewrite length_firstn, length_skipn. lia.
  - intros st res st' evs Hrun req Hin. unfold classify_videos, chunk_starts in Hrun.
    destruct (classify_chunks_requests _ _ _ _ _ _ _ _ Hrun req Hin) as (i & Hi & ->).
    exists (chunk_at videos i). split; [|reflexivity].
    apply in_map_iff in Hi as (k & <- & Hk).
    apply in_map_iff. exists k. split; [reflexivity | exact Hk].
Qed.

Lemma filter_split_perm {A} (f : A -> bool) (l : list A) :
  Permutation (filter f l ++ filter (fun x => negb (f x)) l) l.
Proof.
  induction l as [|x l IH]; cbn; [constructor|].
  destruct (f x); cbn.
  - constructor. exact IH.
  - apply Permutation_sym, Permutation_cons_app, Permutation_sym, IH.
Qed.

(** X10: for replies whose items have the documented form (an identifier,
    a snippet with a title, details that are absent or an object, a duration
    that [parse_iso_duration] converts), whenever the classifier returns, the
    long and the short list together hold every item of every reply
    received exactly once: nothing is dropped, nothing is listed twice. *)
Theorem classify_videos_loses_nothing videos (st : St World) longs shorts st' evs :
  KeyManager.valid (st_km st) ->
  classify_videos execute videos st = (Done (longs, shorts), st', evs) ->
  Permutation (longs ++ shorts) (entries_of (replies_of evs)) /\
  List.length longs + List.length shorts
  = List.length (List.concat (map resp_items (replies_of evs))).
Proof.
  intros Hv Erun.
  unfold classify_videos in Erun.
  pose proof (classify_chunks_spec _ execute _ _ _ _ _ _ _ _ Hv Erun) as E.
  cbn [app] in E. injection E as -> ->.
  assert (P : Permutation
                (filter is_long (entries_of (replies_of evs))
                 ++ filter is_short (entries_of (replies_of evs)))
                (entries_of (replies_of evs))).
  { rewrite (filter_ext is_short (fun e => negb (is_long e))).
    - apply filter_split_perm.
    - intros e. rewrite is_long_not_short, negb_involutive. reflexivity. }
  split; [exact P|].
  apply Permutation_length in P. rewrite length_app in P. rewrite P.
  unfold entries_of. apply length_map.
Qed.

End ClassifierMoreFacts.

Lemma classify_videos_loses_nothing_witness :
  KeyManager.valid (st_km (Sim.single 2)) /\
  (exists longs shorts,
     fst (fst (classify_videos Sim.execute Sim.four (Sim.single 2)))
     = Done (longs, shorts) /\
     List.length longs = 2 /\ List.length shorts = 2 /\
     Permutation (longs ++ shorts)
       (entries_of (replies_of
          (snd (classify_videos Sim.execute Sim.four (Sim.single 2))))) /\
     List.length longs + List.length shorts
     = List.length (List.concat (map resp_items (replies_of
         (snd (classify_videos Sim.execute Sim.four (Sim.single 2))))))).
Proof.
  assert (Hv : KeyManager.valid (st_km (Sim.single 2)))
    by (unfold KeyManager.valid; cbn; lia).
  split; [exact Hv|].
  eexists _, _. split; [reflexivity|]. split; [reflexivity|]. split; [reflexivity|].
  exact (classify_videos_loses_nothing Sim.World Sim.execute Sim.four (Sim.single 2)
           _ _ _ _ Hv
           (surjective_triple (classify_videos Sim.execute Sim.four (Sim.single 2)))).
Defined.

(** X11: an item without a duration, or whose duration does not start with
    [PT] (as the encoding of a video of a day or more, [P1DT...]), gets 0
    seconds and is put on the short list. *)
Theorem classify_items_without_PT_short (it : Item) (longs shorts : list Entry) :
  (it_contentDetails it = None \/
   String.prefix "PT" (item_duration it) = false) ->
  e_seconds (make_entry it) = 0%Z /\
  classify_items [it] longs shorts = (longs, shorts ++ [make_entry it]).
Proof.
  intros H.
  assert (E : e_seconds (make_entry it) = 0%Z).
  { unfold make_entry. cbn [e_seconds]. destruct H as [H|H].
    - unfold item_duration. rewrite H. reflexivity.
    - apply parse_not_PT, H. }
  split; [exact E|]. cbn [classify_items]. rewrite E. reflexivity.
Qed.

Lemma classify_items_without_PT_short_witness :
  String.prefix "PT" (item_duration (Sim.video "day" "P1DT2H3M")) = false /\
  classify_items [Sim.video "day" "P1DT2H3M"] [] []
  = ([], [mkEntry (IdStr "day") "day" 0]).
Proof.
  split; [reflexivity|].
  exact (proj2 (classify_items_without_PT_short (Sim.video "day" "P1DT2H3M") [] []
                  (or_intror eq_refl))).
Defined.

(* ===================================================================== *)
(** ** The parser returns no negative number *)
(* ===================================================================== *)

Lemma span_digits_digits (s : string) :
  forallb PyStr.is_digit (list_ascii_of_string (fst (PyStr.span_digits s))) = true.
Proof.
  induction s as [|c s IH]; cbn; [reflexivity|].
  destruct (PyStr.is_digit c) eqn:E; [|reflexivity].
  destruct (PyStr.span_digits s) as [ds rest]. cbn in *. rewrite E, IH. reflexivity.
Qed.

Lemma opt_component_digits (u : ascii) (s d rest : string) :
  opt_component u s = (Some d, rest) ->
  forallb PyStr.is_digit (list_ascii_of_string d) = true.
Proof.
  unfold opt_component. pose proof (span_digits_digits s) as H.
  destruct (PyStr.span_digits s) as [ds r]. cbn [fst] in H.
  destruct ds as [|c ds]; [discriminate|].
  destruct r as [|a r]; [discriminate|].
  destruct (Ascii.eqb a u); [|discriminate].
  intros [= <- _]. exact H.
Qed.

Lemma digit_val_nonneg (c : ascii) : PyStr.is_digit c = true -> (0 <= PyStr.digit_val c)%Z.
Proof.
  unfold PyStr.is_digit, PyStr.digit_val. intros H.
  apply andb_prop in H as [H _]. apply Nat.leb_le in H. lia.
Qed.

Lemma int_of_digits_nonneg (d : string) :
  forallb PyStr.is_digit (list_ascii_of_string d) = true ->
  (0 <= PyStr.int_of_digits d)%Z.
Proof.
  unfold PyStr.int_of_digits.
  assert (G : forall l acc, forallb PyStr.is_digit l = true -> (0 <= acc)%Z ->
              (0 <= fold_left (fun a c => 10 * a + PyStr.digit_val c) l acc)%Z).
  { induction l as [|c l IH]; cbn [fold_left forallb]; intros acc Hd Hacc; [exact Hacc|].
    apply andb_prop in Hd as [Hc Hd]. apply IH; [exact Hd|].
    pose proof (digit_val_nonneg c Hc). lia. }
  intros Hd. apply G; [exact Hd | lia].
Qed.

Lemma int_or_0_nonneg (g : option string) :
  (forall d, g = Some d -> forallb PyStr.is_digit (list_ascii_of_string d) = true) ->
  (0 <= int_or_0 g)%Z.
Proof.
  destruct g as [d|]; cbn; intros H; [|lia].
  destruct (PyStr.truthy d); [|lia]. apply int_of_digits_nonneg, H. reflexivity.
Qed.

(** X12: whatever the input, the parser returns no negative number of
    seconds, so no entry of the classifier has one. *)
Theorem parse_iso_duration_nonneg :
  (forall iso, (0 <= parse_iso_duration iso)%Z) /\
  (forall it, (0 <= e_seconds (make_entry it))%Z).
Proof.
  assert (G : forall iso, (0 <= parse_iso_duration iso)%Z).
  { intros iso. unfold parse_iso_duration.
    set (s := if PyStr.truthy_opt iso then _ else _). clearbody s.
    unfold match_duration.
    destruct s as [|a s]; [cbn; lia|].
    destruct (Ascii.ascii_dec a "P") as [->|Ha].
    2:{ destruct a as [[] [] [] [] [] [] [] []]; first [congruence | cbn; lia]. }
    destruct s as [|b s]; [cbn; lia|].
    destruct (Ascii.ascii_dec b "T") as [->|Hb].
    2:{ destruct b as [[] [] [] [] [] [] [] []]; first [congruence | cbn; lia]. }
    destruct (opt_component "H" s) as [h s1] eqn:E1.
    destruct (opt_component "M" s1) as [m s2] eqn:E2.
    destruct (opt_component "S" s2) as [sec s3] eqn:E3.
    assert (0 <= int_or_0 h)%Z
      by (apply int_or_0_nonneg; intros d ->; exact (opt_component_digits _ _ _ _ E1)).
    assert (0 <= int_or_0 m)%Z
      by (apply int_or_0_nonneg; intros d ->; exact (opt_component_digits _ _ _ _ E2)).
    assert (0 <= int_or_0 sec)%Z
      by (apply int_or_0_nonneg; intros d ->; exact (opt_component_digits _ _ _ _ E3)).
    lia. }
  split; [exact G|]. intros it. apply G.
Qed.

(* ===================================================================== *)
(** ** Properties of the channel functions *)
(* ===================================================================== *)

Section ChannelFacts.

Variable World : Type.
Variable execute : World -> string -> Request -> Outcome * World.
Variable publishedAt : Item -> option string.
Variable statistics : Item -> option Statistics.

Implicit Types (st : St World).

Lemma videos_of_app (a b : list Item) :
  videos_of publishedAt (a ++ b) = videos_of publishedAt a ++ videos_of publishedAt b.
Proof.
  induction a as [|it a IH]; cbn; [reflexivity|].
  destruct (it_id it) as [s|[v|]]; try exact IH.
  destruct (PyStr.truthy v); [cbn; rewrite IH; reflexivity | exact IH].
Qed.

Lemma videos_of_ids (items : list Item) (v : Video) :
  In v (videos_of publishedAt items) ->
  v_videoId v <> "" /\
  exists it, In it items /\ it_id it = IdObj (Some (v_videoId v)) /\
             v = make_video publishedAt (v_videoId v) it.
Proof.
  induction items as [|it items IH]; cbn; [intros []|].
  assert (Hrest : In v (videos_of publishedAt items) ->
            v_videoId v <> "" /\
            exists it0, (it = it0 \/ In it0 items) /\
              it_id it0 = IdObj (Some (v_videoId v)) /\
              v = make_video publishedAt (v_videoId v) it0).
  { intros H. destruct (IH H) as (Hne & it0 & Hin & Hid & Hv).
    split; [exact Hne|]. exists it0. auto. }
  destruct (it_id it) as [s|[vid|]] eqn:Eid; try exact Hrest.
  destruct (PyStr.truthy vid) eqn:Et; [|exact Hrest].
  intros [<-|H]; [|exact (Hrest H)].
  cbn. split.
  - intros E. rewrite E in Et. discriminate.
  - exists it. auto.
Qed.

(** The inner loop: it changes nothing but the list, and raises exactly when
    an [id] is not an object. *)
Lemma collect_videos_spec : forall items videos st,
  collect_videos publishedAt items videos st
  = (if object_ids items
     then Done (videos ++ videos_of publishedAt items)
     else Raised "AttributeError", st, []).
Proof.
  induction items as [|it items IH]; intros videos st; cbn [collect_videos].
  - cbn. rewrite app_nil_r. reflexivity.
  - unfold object_ids. cbn [forallb videos_of].
    destruct (it_id it) as [s|[v|]]; cbn [andb].
    + reflexivity.
    + destruct (PyStr.truthy v).
      * rewrite IH. unfold object_ids.
        destruct (forallb _ items); [rewrite <- app_assoc|]; reflexivity.
      * apply IH.
    + apply IH.
Qed.

(** One iteration of the loop over the pages of a channel. *)
Lemma fetch_loop_S fuel cid videos pt st :
  fetch_loop execute publishedAt (S fuel) cid videos pt st =
  match api_call execute (channel_request cid pt) st with
  | (Done resp, st1, evs1) =>
      if not_resp resp then (Done videos, st1, evs1 ++ [])
      else
        match resp with
        | Some r =>
            if object_ids (resp_items r) then
              if negb (PyStr.truthy_opt (r_nextPageToken r))
              then (Done (videos ++ videos_of publishedAt (resp_items r)), st1, evs1 ++ [])
              else
                match fetch_loop execute publishedAt fuel cid
                        (videos ++ videos_of publishedAt (resp_items r))
                        (r_nextPageToken r) st1 with
                | (res, st', evs) =>
                    (res, st',
                     evs1 ++ PrintFetched
                               (List.length (videos ++ videos_of publishedAt (resp_items r)))
                             :: evs)
                end
            else (Raised "AttributeError", st1, evs1 ++ [])
        | None => (Done videos, st1, evs1 ++ [])
        end
  | (Raised x, st1, evs1) => (Raised x, st1, evs1)
  | (OutOfFuel, st1, evs1) => (OutOfFuel, st1, evs1)
  end.
Proof.
  cbn [fetch_loop]. unfold bind at 1.
  destruct (api_call execute (channel_request cid pt) st) as [[[resp|x|] st1] evs1];
    try reflexivity.
  destruct (not_resp resp); [reflexivity|].
  destruct resp as [r|]; [|reflexivity].
  unfold bind at 1. rewrite collect_videos_spec.
  destruct (object_ids (resp_items r)); [|reflexivity].
  cbv zeta.
  destruct (negb (PyStr.truthy_opt (r_nextPageToken r))); [reflexivity|].
  unfold bind at 1. unfold print at 1.
  destruct (fetch_loop execute publishedAt fuel cid _ _ st1) as [[res st'] evs].
  reflexivity.
Qed.

Lemma object_ids_app (a b : list Item) :
  object_ids (a ++ b) = object_ids a && object_ids b.
Proof. unfold object_ids. apply forallb_app. Qed.

(** The loop under any remote. *)
Lemma fetch_loop_spec cid : forall fuel videos pt st res st' evs,
  KeyManager.valid (st_km st) ->
  fetch_loop execute publishedAt fuel cid videos pt st = (res, st', evs) ->
  KeyManager.keys (st_km st') = KeyManager.keys (st_km st) /\
  KeyManager.valid (st_km st') /\
  (res = OutOfFuel \/
   (res = Raised "AttributeError" /\
    object_ids (List.concat (map resp_items (replies_of evs))) = false) \/
   (res = Done (videos ++ videos_of publishedAt
                            (List.concat (map resp_items (replies_of evs)))) /\
    object_ids (List.concat (map resp_items (replies_of evs))) = true)).
Proof.
  induction fuel as [|fuel IH]; intros videos pt st res st' evs Hv Hrun.
  - injection Hrun as <- <- <-. auto.
  - rewrite fetch_loop_S in Hrun.
    destruct (api_call execute (channel_request cid pt) st) as [[res1 st1] evs1] eqn:Ecall.
    destruct (api_call_valid _ execute _ _ _ _ _ Hv Ecall) as (Hk1 & Hv1 & resp & ->).
    destruct (api_call_quiet _ execute _ _ _ _ _ Ecall) as [_ Hrep].
    destruct (not_resp resp) eqn:Enot.
    + injection Hrun as <- <- <-. rewrite app_nil_r, Hrep.
      split; [exact Hk1|]. split; [exact Hv1|]. right. right.
      destruct resp as [r|]; cbn; [|rewrite app_nil_r; auto].
      cbn in Enot. apply negb_true_iff in Enot.
      rewrite (empty_reply_no_items r Enot). cbn. rewrite app_nil_r. auto.
    + destruct resp as [r|]; [|discriminate].
      destruct (object_ids (resp_items r)) eqn:Eobj.
      2:{ injection Hrun as <- <- <-. rewrite app_nil_r, Hrep.
          split; [exact Hk1|]. split; [exact Hv1|]. right. left.
          cbn. rewrite app_nil_r. auto. }
      destruct (negb (PyStr.truthy_opt (r_nextPageToken r))).
      * injection Hrun as <- <- <-. rewrite app_nil_r, Hrep.
        split; [exact Hk1|]. split; [exact Hv1|]. right. right.
        cbn. rewrite app_nil_r. auto.
      * destruct (fetch_loop execute publishedAt fuel cid _ _ st1)
          as [[res2 st2] evs2] eqn:Erec.
        injection Hrun as <- <- <-.
        destruct (IH _ _ _ _ _ _ Hv1 Erec) as (Hk2 & Hv2 & Hres).
        split; [congruence|]. split; [exact Hv2|].
        rewrite replies_of_app, Hrep.
        change (replies_of (PrintFetched _ :: evs2)) with (replies_of evs2).
        cbn [app map List.concat]. rewrite object_ids_app, videos_of_app, Eobj.
        cbn [andb].
        destruct Hres as [-> | [[-> Hobj] | [-> Hobj]]]; auto.
        right. right. rewrite <- app_assoc. auto.
Qed.

(** X13: whatever the remote does, [fetch_all_channel_videos] keeps the pool
    valid with the same credentials, and when it returns, the videos are
    those of the items received, in order of arrival, that carry a
    non-empty [videoId]: no video in the list has an empty identifier. *)
Theorem fetch_all_channel_videos_returns_what_arrived fuel cid st res st' evs :
  KeyManager.valid (st_km st) ->
  fetch_all_channel_videos execute publishedAt fuel cid st = (res, st', evs) ->
  KeyManager.keys (st_km st') = KeyManager.keys (st_km st) /\
  KeyManager.valid (st_km st') /\
  forall videos, res = Done videos ->
    videos = videos_of publishedAt (List.concat (map resp_items (replies_of evs))) /\
    forall v, In v videos ->
      v_videoId v <> "" /\
      exists it, In it (List.concat (map resp_items (replies_of evs))) /\
                 it_id it = IdObj (Some (v_videoId v)).
Proof.
  intros Hv Hrun. unfold fetch_all_channel_videos in Hrun.
  destruct (fetch_loop_spec cid _ _ _ _ _ _ _ Hv Hrun) as (Hk & Hv' & Hres).
  split; [exact Hk|]. split; [exact Hv'|].
  intros videos E. subst res.
  destruct Hres as [H | [[H _] | [H _]]]; try discriminate.
  injection H as ->. split; [reflexivity|].
  intros v Hin. destruct (videos_of_ids _ v Hin) as (Hne & it & Hit & Hid & _).
  split; [exact Hne|]. exists it. auto.
Qed.

(** The loop follows a run of pages of a channel. *)
Lemma fetch_loop_pages cid : forall st pt pages st1 pt1,
  channel_pages execute cid st pt pages st1 pt1 ->
  object_ids (List.concat (map resp_items pages)) = true ->
  forall k videos,
  exists evs0,
    replies_of evs0 = pages /\
    fetch_loop execute publishedAt (List.length pages + k) cid videos pt st
    = match fetch_loop execute publishedAt k cid
              (videos ++ videos_of publishedAt (List.concat (map resp_items pages)))
              pt1 st1 with
      | (res, st', evs) => (res, st', evs0 ++ evs)
      end.
Proof.
  induction 1 as [st pt | st pt r st1 evs1 pages st2 pt2 Hcall Hr Htok Hrun IH];
    intros Hobj k videos.
  - exists []. cbn. rewrite app_nil_r. split; [reflexivity|].
    destruct (fetch_loop execute publishedAt k cid videos pt st) as [[res st'] evs].
    reflexivity.
  - cbn [map List.concat] in Hobj. rewrite object_ids_app in Hobj.
    apply andb_prop in Hobj as [Hobj1 Hobj2].
    destruct (api_call_quiet _ execute _ _ _ _ _ Hcall) as [_ Hrep].
    destruct (IH Hobj2 k (videos ++ videos_of publishedAt (resp_items r)))
      as (evs0 & Hreps & Heq).
    exists (evs1 ++ PrintFetched
                      (List.length (videos ++ videos_of publishedAt (resp_items r)))
                    :: evs0).
    split.
    + rewrite replies_of_app, Hrep.
      change (replies_of (PrintFetched _ :: evs0)) with (replies_of evs0).
      rewrite Hreps. reflexivity.
    + cbn [List.length Nat.add]. rewrite fetch_loop_S, Hcall.
      cbn [not_resp]. rewrite Hr, Hobj1, Htok. cbn [negb].
      rewrite Heq. cbn [map List.concat]. rewrite videos_of_app, app_assoc.
      destruct (fetch_loop execute publishedAt k cid _ pt2 st2) as [[res st'] evs].
      rewrite <- app_assoc. reflexivity.
Qed.

(** X14: when the executor returns a run of pages of a channel, each with a
    continuation token, the next call returns nothing, an empty reply or a
    page without a token, and every [id] in the pages received is an
    object, as the search endpoint sends them, then
    [fetch_all_channel_videos] returns, and what it returns is the videos of
    all the pages received; the pages fetched before a failure are kept.
    Any number of loop iterations above the number of pages is enough. *)
Theorem fetch_all_channel_videos_drains_pages
  cid st pages st1 pt1 resp st2 evs fuel :
  channel_pages execute cid st None pages st1 pt1 ->
  api_call execute (channel_request cid pt1) st1 = (Done resp, st2, evs) ->
  match resp with
  | None => True
  | Some r => PyStr.truthy_opt (r_nextPageToken r) = false
  end ->
  object_ids (List.concat (map resp_items (pages ++ replies_of evs))) = true ->
  List.length pages < fuel ->
  exists evs',
    fetch_all_channel_videos execute publishedAt fuel cid st
    = (Done (videos_of publishedAt
               (List.concat (map resp_items (pages ++ replies_of evs)))), st2, evs') /\
    replies_of evs' = pages ++ replies_of evs.
Proof.
  intros Hrun Hcall Hstop Hobj Hfuel.
  rewrite map_app, concat_app, object_ids_app in Hobj.
  apply andb_prop in Hobj as [Hobj1 Hobj2].
  destruct (api_call_quiet _ execute _ _ _ _ _ Hcall) as [_ Hrep].
  destruct fuel as [|fuel]; [lia|].
  destruct (fetch_loop_pages cid _ _ _ _ _ Hrun Hobj1 (S (fuel - List.length pages)) [])
    as (evs0 & Hreps & Heq).
  unfold fetch_all_channel_videos.
  replace (List.length pages + S (fuel - List.length pages)) with (S fuel) in Heq by lia.
  rewrite Heq, fetch_loop_S, Hcall. cbn [app].
  rewrite map_app, concat_app, videos_of_app, Hrep.
  rewrite Hrep in Hobj2.
  destruct resp as [r|].
  - cbn [not_resp]. cbn [map List.concat] in *.
    rewrite ?app_nil_r in Hobj2. rewrite ?app_nil_r.
    destruct (resp_truthy r) eqn:Er; cbn [negb].
    + rewrite Hobj2, Hstop. cbn [negb].
      eexists. split; [reflexivity|].
      rewrite replies_of_app, ?app_nil_r, Hreps, Hrep, ?app_nil_r. reflexivity.
    + rewrite (empty_reply_no_items r Er). cbn [videos_of]. rewrite app_nil_r.
      eexists. split; [reflexivity|].
      rewrite replies_of_app, ?app_nil_r, Hreps, Hrep, ?app_nil_r. reflexivity.
  - cbn [not_resp map List.concat videos_of]. rewrite !app_nil_r.
    eexists. split; [reflexivity|].
    rewrite replies_of_app, ?app_nil_r, Hreps, Hrep, ?app_nil_r. reflexivity.
Qed.

(** *** get_channel_stats *)

Lemma firstn_firstn_same {A} (n : nat) (l : list A) : firstn n (firstn n l) = firstn n l.
Proof. rewrite firstn_firstn, Nat.min_id. reflexivity. Qed.

Lemma dict_set_keys {V} (k : string) (v : V) (d : list (string * V)) (k' : string) :
  In k' (map fst (dict_set k v d)) <-> k' = k \/ In k' (map fst d).
Proof.
  induction d as [|[k0 v0] d IH]; cbn.
  - intuition congruence.
  - destruct (String.eqb_spec k k0) as [->|Hne]; cbn.
    + intuition congruence.
    + rewrite IH. intuition congruence.
Qed.

Lemma dict_set_nodup {V} (k : string) (v : V) (d : list (string * V)) :
  NoDup (map fst d) -> NoDup (map fst (dict_set k v d)).
Proof.
  induction d as [|[k0 v0] d IH]; cbn; intros H.
  - constructor; [intros [] | constructor].
  - inversion H as [|? ? Hnin Hnd]; subst.
    destruct (String.eqb_spec k k0) as [->|Hne]; cbn.
    + constructor; assumption.
    + constructor; [|exact (IH Hnd)].
      rewrite dict_set_keys. intros [E|Hin]; [congruence | exact (Hnin Hin)].
Qed.

(** The loop over the items: each key stored is the [id] of an item. *)
Lemma collect_stats_spec : forall items out st res st' evs,
  collect_stats statistics items out st = (res, st', evs) ->
  st' = st /\ evs = [] /\
  forall d, res = Done d ->
    (NoDup (map fst out) -> NoDup (map fst d)) /\
    forall k, In k (map fst d) ->
      In k (map fst out) \/ exists it, In it items /\ it_id it = IdStr k.
Proof.
  induction items as [|it items IH]; intros out st res st' evs Hrun; cbn in Hrun.
  - injection Hrun as <- <- <-. split; [reflexivity|]. split; [reflexivity|].
    intros d [= <-]. split; [exact (fun H => H) | intros k Hk; left; exact Hk].
  - destruct (it_id it) as [cid|vid] eqn:Eid.
    + destruct (IH _ _ _ _ _ Hrun) as (-> & -> & Hd).
      split; [reflexivity|]. split; [reflexivity|].
      intros d E. destruct (Hd d E) as [Hnd Hkeys]. split.
      * intros H. apply Hnd, dict_set_nodup, H.
      * intros k Hin. destruct (Hkeys k Hin) as [Hk | (it0 & Hit & Hid)].
        -- apply dict_set_keys in Hk as [->|Hk].
           ++ right. exists it. split; [left; reflexivity | exact Eid].
           ++ left. exact Hk.
        -- right. exists it0. split; [right; exact Hit | exact Hid].
    + injection Hrun as <- <- <-. split; [reflexivity|]. split; [reflexivity|].
      intros d [=].
Qed.

(** X15: [get_channel_stats] asks for the first 50 identifiers only: the
    identifiers after the 50th change nothing of what it does, and no
    request carries them.  For an empty list it returns the empty dictionary
    without a request.  The channels of a dictionary it returns are
    distinct and each is the [id] of an item of the reply. *)
Theorem get_channel_stats_first_50 :
  (forall ids st,
     get_channel_stats execute statistics ids st
     = get_channel_stats execute statistics (firstn 50 ids) st) /\
  (forall st, get_channel_stats execute statistics [] st = (Done [], st, [])) /\
  (forall ids st res st' evs,
     get_channel_stats execute statistics ids st = (res, st', evs) ->
     (forall req, In req (requests_of evs) ->
        req = mkRequest ChannelsList
                [("part", PStr "snippet,statistics");
                 ("id", PStr (PyStr.join "," (firstn 50 ids)))]) /\
     forall d, res = Done d ->
       NoDup (map fst d) /\
       forall k, In k (map fst d) ->
         exists it, In it (List.concat (map resp_items (replies_of evs))) /\
                    it_id it = IdStr k).
Proof.
  split; [|split].
  - intros ids st. unfold get_channel_stats, stats_request.
    rewrite firstn_firstn_same.
    destruct ids as [|i ids]; reflexivity.
  - reflexivity.
  - intros ids st res st' evs Hrun. unfold get_channel_stats in Hrun.
    destruct ids as [|i ids].
    { injection Hrun as <- <- <-. split; [intros req []|].
      intros d [= <-]. split; [constructor | intros k []]. }
    unfold bind in Hrun.
    destruct (api_call execute (stats_request (i :: ids)) st)
      as [[res1 st1] evs1] eqn:Ecall.
    assert (Hreq : forall req, In req (requests_of evs1) -> req = stats_request (i :: ids)).
    { rewrite api_call_eq in Ecall.
      exact (api_call_loop_requests _ execute _ _ _ _ _ _ _ Ecall). }
    destruct (api_call_quiet _ execute _ _ _ _ _ Ecall) as [_ Hrep].
    destruct res1 as [resp|x|].
    + destruct (not_resp resp) eqn:Enot.
      * injection Hrun as <- <- <-. rewrite app_nil_r. split; [exact Hreq|].
        intros d [= <-]. split; [constructor | intros k []].
      * destruct resp as [r|]; [|discriminate].
        destruct (collect_stats statistics (resp_items r) [] st1)
          as [[res2 st2] evs2] eqn:Ecol.
        injection Hrun as <- <- <-.
        destruct (collect_stats_spec _ _ _ _ _ _ Ecol) as (-> & -> & Hd).
        rewrite app_nil_r. split; [exact Hreq|].
        intros d E. destruct (Hd d E) as [Hnd Hkeys].
        split; [apply Hnd; constructor|].
        intros k Hin. destruct (Hkeys k Hin) as [[] | (it & Hit & Hid)].
        exists it. rewrite Hrep. cbn. rewrite app_nil_r. auto.
    + injection Hrun as <- <- <-. split; [exact Hreq | discriminate].
    + injection Hrun as <- <- <-. split; [exact Hreq | discriminate].
Qed.

End ChannelFacts.

(* ===================================================================== *)
(** ** The added properties against the simulated remotes *)
(* ===================================================================== *)

Lemma api_call_cost_witness :
  KeyManager.valid (st_km Sim.one_live) /\
  1 <= List.length (calls_of (snd Sim.run_one_live)) <= 3 /\
  requests_of (snd Sim.run_one_live) = [probe_request; probe_request].
Proof.
  assert (Hv : KeyManager.valid (st_km Sim.one_live))
    by (unfold KeyManager.valid; cbn; lia).
  destruct (api_call_cost Sim.World Sim.execute probe_request Sim.one_live _ _ _ Hv
              (surjective_triple Sim.run_one_live))
    as (Hlen & _ & _).
  split; [exact Hv|]. split; [exact Hlen | reflexivity].
Defined.

Lemma api_call_cursor_sticks_witness :
  KeyManager.valid (st_km Sim.one_live) /\
  calls_of (snd Sim.run_one_live)
  = [("k2", HttpError 403 "quotaExceeded")] ++ [("k3", Success Sim.page1)] /\
  credential_failure (Success Sim.page1) = false /\
  KeyManager.key (st_km (snd (fst Sim.run_one_live))) = Some "k3" /\
  KeyManager.idx (st_km (snd (fst Sim.run_one_live))) = 2.
Proof.
  assert (Hv : KeyManager.valid (st_km Sim.one_live))
    by (unfold KeyManager.valid; cbn; lia).
  destruct (api_call_cursor_sticks Sim.World Sim.execute probe_request Sim.one_live
              _ _ _ [("k2", HttpError 403 "quotaExceeded")] "k3" (Success Sim.page1)
              Hv (surjective_triple Sim.run_one_live) eq_refl eq_refl)
    as [Hkey Hidx].
  split; [exact Hv|]. split; [reflexivity|]. split; [reflexivity|].
  split; [exact Hkey | exact Hidx].
Defined.

Lemma check_key_quotas_then_api_call_witness :
  first_success (map snd (calls_of (snd Sim.run_probe))) = Some 1 /\
  exists k o rest,
    calls_of (snd (api_call Sim.execute Sim.channels_request (snd (fst Sim.run_probe))))
    = (k, o) :: rest /\
    nth_error ["dead"; "live"; "live2"] 1 = Some k.
Proof.
  split; [reflexivity|].
  exact (check_key_quotas_then_api_call Sim.World Sim.execute Sim.dead_live_live
           _ _ _ 1 Sim.channels_request _ _ _
           (surjective_triple Sim.run_probe) eq_refl
           (surjective_triple
              (api_call Sim.execute Sim.channels_request (snd (fst Sim.run_probe))))).
Defined.

Lemma search_youtube_all_returns_what_arrived_witness :
  KeyManager.valid (st_km (Sim.single 2)) /\
  fst (fst (search_youtube_all Sim.execute 5 "cats" Sim.no_filters (Sim.single 2)))
  = Done (Sim.results "a" 50 ++ Sim.results "b" 50) /\
  Sim.results "a" 50 ++ Sim.results "b" 50
  = List.concat (map resp_items (replies_of
      (snd (search_youtube_all Sim.execute 5 "cats" Sim.no_filters (Sim.single 2))))) /\
  totals_of (snd (search_youtube_all Sim.execute 5 "cats" Sim.no_filters (Sim.single 2)))
  = [TotalKnown 1000000].
Proof.
  assert (Hv : KeyManager.valid (st_km (Sim.single 2)))
    by (unfold KeyManager.valid; cbn; lia).
  destruct (search_youtube_all_returns_what_arrived Sim.World Sim.execute
              5 "cats" Sim.no_filters (Sim.single 2) _ _ _ Hv
              (surjective_triple
                 (search_youtube_all Sim.execute 5 "cats" Sim.no_filters (Sim.single 2))))
    as (Hres & Htot & _ & _).
  split; [exact Hv|]. split; [reflexivity|]. split; [exact Hres | exact Htot].
Defined.

Lemma classify_videos_chunks_witness :
  In (chunk_at Sim.four 0) (map (chunk_at Sim.four) (chunk_starts 4)) /\
  0 < List.length (chunk_at Sim.four 0) <= 50 /\
  requests_of (snd (classify_videos Sim.execute Sim.four (Sim.single 2)))
  = [Sim.four_request].
Proof.
  destruct (classify_videos_chunks Sim.World Sim.execute Sim.four) as (_ & Hlen & _).
  assert (Hin : In (chunk_at Sim.four 0) (map (chunk_at Sim.four) (chunk_starts 4)))
    by (left; reflexivity).
  split; [exact Hin|]. split; [exact (Hlen _ Hin) | reflexivity].
Defined.

Lemma channel_pages_three :
  channel_pages Sim.execute "UCx"
    (Sim.single 3) None [Sim.page1; Sim.page2] (Sim.single 1) (Some "T3").
Proof.
  eapply channel_pages_cons with (st1 := Sim.single 2); [reflexivity..|].
  eapply channel_pages_cons with (st1 := Sim.single 1); [reflexivity..|].
  apply channel_pages_nil.
Defined.

Lemma fetch_all_channel_videos_returns_what_arrived_witness :
  KeyManager.valid (st_km (Sim.single 2)) /\
  exists videos,
    fst (fst (fetch_all_channel_videos Sim.execute ChanSim.publishedAt 5 "UCx"
                (Sim.single 2))) = Done videos /\
    List.length videos = 100 /\
    forall v, In v videos -> v_videoId v <> "".
Proof.
  assert (Hv : KeyManager.valid (st_km (Sim.single 2)))
    by (unfold KeyManager.valid; cbn; lia).
  split; [exact Hv|].
  destruct (fetch_all_channel_videos_returns_what_arrived Sim.World Sim.execute
              ChanSim.publishedAt 5 "UCx" (Sim.single 2) _ _ _ Hv
              (surjective_triple
                 (fetch_all_channel_videos Sim.execute ChanSim.publishedAt 5 "UCx"
                    (Sim.single 2))))
    as (_ & _ & Hdone).
  eexists. split; [reflexivity|]. split; [reflexivity|].
  intros v Hin. exact (proj1 (proj2 (Hdone _ eq_refl) v Hin)).
Defined.

Lemma fetch_all_channel_videos_drains_pages_witness :
  channel_pages Sim.execute "UCx"
    (Sim.single 3) None [Sim.page1; Sim.page2] (Sim.single 1) (Some "T3") /\
  exists videos evs',
    fetch_all_channel_videos Sim.execute ChanSim.publishedAt 3 "UCx" (Sim.single 3)
    = (Done videos, Sim.single 0, evs') /\
    List.length videos = 113.
Proof.
  split; [exact channel_pages_three|].
  destruct (fetch_all_channel_videos_drains_pages Sim.World Sim.execute
              ChanSim.publishedAt "UCx" (Sim.single 3) [Sim.page1; Sim.page2]
              (Sim.single 1) (Some "T3") (Some Sim.page3) _ _ 3
              channel_pages_three
              (surjective_triple
                 (api_call Sim.execute (channel_request "UCx" (Some "T3")) (Sim.single 1)))
              eq_refl eq_refl (Nat.lt_succ_diag_r 2))
    as (evs' & Hrun & _).
  eexists. exists evs'. split; [exact Hrun | reflexivity].
Defined.

Lemma get_channel_stats_first_50_witness :
  ChanSim.run_sixty
  = get_channel_stats ChanSim.execute ChanSim.statistics (firstn 50 ChanSim.sixty)
      ChanSim.start /\
  fst (fst ChanSim.run_sixty)
  = Done [("UC1", mkChannelStats "one" "1000" "12" "?");
          ("UC2", mkChannelStats "two" "?" "?" "?")] /\
  NoDup ["UC1"; "UC2"] /\
  List.length (requests_of (snd ChanSim.run_sixty)) = 1.
Proof.
  destruct (get_channel_stats_first_50 ChanSim.World ChanSim.execute ChanSim.statistics)
    as (Hcut & _ & Hrun).
  destruct (Hrun ChanSim.sixty ChanSim.start _ _ _ (surjective_triple ChanSim.run_sixty))
    as (_ & Hd).
  split; [exact (Hcut ChanSim.sixty ChanSim.start)|].
  split; [reflexivity|].
  split; [exact (proj1 (Hd _ eq_refl)) | reflexivity].
Defined.

(* ===================================================================== *)
(** ** Properties of the paginated display *)
(* ===================================================================== *)

Lemma zrange_nat (a b : nat) :
  a <= b -> zrange (Z.of_nat a) (Z.of_nat b) = map Z.of_nat (seq a (b - a)).
Proof.
  intros Hab. unfold zrange.
  replace (Z.to_nat (Z.of_nat b - Z.of_nat a)) with (b - a) by lia.
  generalize (b - a) as n. clear b Hab. intros n. revert a.
  induction n as [|n IH]; intros a; [reflexivity|].
  cbn [seq map]. rewrite <- seq_shift, map_map.
  f_equal; [lia|].
  rewrite <- IH. apply map_ext. intros k. lia.
Qed.

Lemma py_nth_nat {A} (l : list A) (i : nat) : py_nth l (Z.of_nat i) = nth_error l i.
Proof.
  unfold py_nth.
  destruct (Nat.lt_ge_cases i (List.length l)) as [Hlt|Hge].
  - replace ((0 <=? Z.of_nat i) && (Z.of_nat i <? Z.of_nat (List.length l)))%Z with true
      by (symmetry; apply andb_true_intro; split; [apply Z.leb_le | apply Z.ltb_lt]; lia).
    rewrite Nat2Z.id. reflexivity.
  - replace ((0 <=? Z.of_nat i) && (Z.of_nat i <? Z.of_nat (List.length l)))%Z with false
      by (symmetry; apply andb_false_iff; right; apply Z.ltb_ge; lia).
    replace ((- Z.of_nat (List.length l) <=? Z.of_nat i) && (Z.of_nat i <? 0))%Z with false
      by (symmetry; apply andb_false_iff; right; apply Z.ltb_ge; lia).
    symmetry. apply nth_error_None. exact Hge.
Qed.

Lemma skipn_nth_cons {A} (l : list A) : forall a x,
  nth_error l a = Some x -> skipn a l = x :: skipn (S a) l.
Proof.
  induction l as [|y l IH]; intros [|a] x H; try discriminate.
  - injection H as ->. reflexivity.
  - cbn in H. exact (IH a x H).
Qed.

Lemma results_shown_app (a b : list Line) :
  results_shown (a ++ b) = results_shown a ++ results_shown b.
Proof.
  induction a as [|[] a IH]; cbn; rewrite ?IH; reflexivity.
Qed.

Section DisplayFacts.

Variable channelId : Item -> option string.
Variable ch_stats : list (string * ChannelStats).

Lemma results_shown_lines : forall items a, results_shown (result_lines channelId ch_stats a items) = result_lines channelId ch_stats a items.
Proof.
  induction items as [|it items IH]; intros a; cbn; [reflexivity|].
  destruct (it_id it) as [s|[v|]]; try apply IH.
  destruct (PyStr.truthy v); [cbn; rewrite IH; reflexivity | apply IH].
Qed.

Lemma lines_app : forall l1 l2 a,
  result_lines channelId ch_stats a (l1 ++ l2) = result_lines channelId ch_stats a l1 ++ result_lines channelId ch_stats (a + List.length l1) l2.
Proof.
  induction l1 as [|it l1 IH]; intros l2 a; cbn [app result_lines List.length].
  - rewrite Nat.add_0_r. reflexivity.
  - replace (a + S (List.length l1)) with (S a + List.length l1) by lia.
    destruct (it_id it) as [s|[v|]]; try apply IH.
    destruct (PyStr.truthy v); [cbn; rewrite IH; reflexivity | apply IH].
Qed.

(** What has been shown up to position [b] is what had been shown up to
    [a] and the entries of the positions from [a] to [b]. *)
Lemma lines_prefix (results : list Item) (a b : nat) :
  a <= b -> a <= List.length results ->
  result_lines channelId ch_stats 0 (firstn b results)
  = result_lines channelId ch_stats 0 (firstn a results) ++ result_lines channelId ch_stats a (firstn (b - a) (skipn a results)).
Proof.
  intros Hab Ha.
  replace b with (a + (b - a)) at 1 by lia.
  rewrite firstn_add, lines_app, length_firstn.
  replace (0 + Nat.min a (List.length results)) with a by lia. reflexivity.
Qed.

(** One page: the positions from [a] on, [n] of them. *)
Lemma print_range_nat (results : list Item) : forall n a,
  a + n <= List.length results ->
  object_ids results = true ->
  print_range channelId ch_stats results (map Z.of_nat (seq a n))
  = (result_lines channelId ch_stats a (firstn n (skipn a results)), None).
Proof.
  induction n as [|n IH]; intros a Hlen Hobj; [reflexivity|].
  cbn [seq map print_range]. rewrite py_nth_nat.
  destruct (nth_error results a) as [it|] eqn:Eit.
  2:{ apply nth_error_None in Eit. lia. }
  rewrite (skipn_nth_cons _ _ _ Eit). cbn [firstn result_lines].
  assert (Hid : exists vid, it_id it = IdObj vid).
  { unfold object_ids in Hobj. rewrite forallb_forall in Hobj.
    specialize (Hobj it (nth_error_In _ _ Eit)).
    destruct (it_id it); [discriminate | eauto]. }
  destruct Hid as [vid Hid]. unfold print_result_item. rewrite Hid.
  rewrite (IH (S a)) by (assumption || lia).
  destruct vid as [v|]; [|reflexivity].
  destruct (PyStr.truthy v); reflexivity.
Qed.

Section Pages.

Variable results : list Item.
Variable p : nat.
Hypothesis Hp : 0 < p.
Hypothesis Hobj : object_ids results = true.

Let n := List.length results.
Let tp := ((Z.of_nat n + Z.of_nat p - 1) / Z.of_nat p)%Z.

Lemma page_inside (cp : nat) : (Z.of_nat cp < tp)%Z -> cp * p < n.
Proof.
  intros H. subst tp.
  pose proof (Z.mul_div_le (Z.of_nat n + Z.of_nat p - 1) (Z.of_nat p) ltac:(lia)).
  nia.
Qed.

Lemma last_page_covers (cp : nat) : ~ (Z.of_nat cp + 1 < tp)%Z -> n <= (cp + 1) * p.
Proof.
  intros H. subst tp.
  pose proof (Z.mul_succ_div_gt (Z.of_nat n + Z.of_nat p - 1) (Z.of_nat p) ltac:(lia)).
  nia.
Qed.

Lemma tp_nonneg : (0 <= tp)%Z.
Proof. subst tp. apply Z.div_pos; lia. Qed.

(** One page of the loop prints the entries of its positions. *)
Lemma page_range (cp : nat) :
  cp * p < n ->
  print_range channelId ch_stats results
    (zrange (Z.of_nat cp * Z.of_nat p)
            (Z.min (Z.of_nat cp * Z.of_nat p + Z.of_nat p) (Z.of_nat n)))
  = (result_lines channelId ch_stats (cp * p)
       (firstn (Nat.min ((cp + 1) * p) n - cp * p) (skipn (cp * p) results)), None).
Proof.
  intros Hin.
  replace (Z.of_nat cp * Z.of_nat p)%Z with (Z.of_nat (cp * p)) by lia.
  replace (Z.min (Z.of_nat (cp * p) + Z.of_nat p) (Z.of_nat n))
    with (Z.of_nat (Nat.min ((cp + 1) * p) n)) by lia.
  rewrite zrange_nat by lia.
  apply print_range_nat; [fold n; lia | exact Hobj].
Qed.

(** The loop from page [cp] over results whose ids are objects: what it
    shows, after what the pages before showed, is what is shown up to the
    end of some page [k]; it finishes only after the last page. *)
Lemma page_loop_spec : forall fuel cp keys ls e,
  (Z.of_nat cp <= tp)%Z ->
  Z.to_nat tp - cp < fuel ->
  page_loop channelId ch_stats fuel results (Z.of_nat p) (Z.of_nat n) tp
    (Z.of_nat cp) keys = (ls, e) ->
  exists k,
    cp <= k /\ (Z.of_nat k <= tp)%Z /\
    result_lines channelId ch_stats 0 (firstn (cp * p) results) ++ results_shown ls
    = result_lines channelId ch_stats 0 (firstn (k * p) results) /\
    ((e = Finished /\ Z.of_nat k = tp) \/
     ((e = Stopped \/ e = Waiting) /\ cp < k /\ (Z.of_nat k < tp)%Z)).
Proof.
  induction fuel as [|fuel IH]; intros cp keys ls e Hcp Hfuel Hrun; [lia|].
  cbn [page_loop] in Hrun.
  destruct (Z.of_nat cp <? tp)%Z eqn:Ecp.
  2:{ apply Z.ltb_ge in Ecp. injection Hrun as <- <-.
      exists cp. cbn. rewrite app_nil_r. repeat split; try lia. left. split; [reflexivity|lia]. }
  apply Z.ltb_lt in Ecp. pose proof (page_inside cp Ecp) as Hin.
  cbv zeta in Hrun. rewrite (page_range cp Hin) in Hrun.
  set (page := result_lines channelId ch_stats (cp * p)
                 (firstn (Nat.min ((cp + 1) * p) n - cp * p) (skipn (cp * p) results))) in *.
  assert (Hpage : result_lines channelId ch_stats 0 (firstn (cp * p) results) ++ page
                  = result_lines channelId ch_stats 0 (firstn ((cp + 1) * p) results)).
  { subst page. rewrite <- lines_prefix by (fold n; lia).
    destruct (Nat.le_ge_cases ((cp + 1) * p) n) as [H|H].
    - rewrite Nat.min_l by exact H. reflexivity.
    - rewrite Nat.min_r by exact H. fold n.
      rewrite !firstn_all2 by (fold n; lia). reflexivity. }
  replace (Z.of_nat cp + 1)%Z with (Z.of_nat (cp + 1)) in Hrun by lia.
  destruct (Z.of_nat (cp + 1) <? tp)%Z eqn:Enext.
  - apply Z.ltb_lt in Enext.
    destruct (wait_key keys) as [[[] keys']|].
    + destruct (page_loop channelId ch_stats fuel results _ _ tp (Z.of_nat (cp + 1)) keys')
        as [ls' e'] eqn:Erec.
      injection Hrun as <- <-.
      destruct (IH (cp + 1) keys' ls' e' ltac:(lia) ltac:(lia) Erec)
        as (k & Hk1 & Hk2 & Hshown & Hend).
      exists k. split; [lia|]. split; [exact Hk2|]. split.
      * rewrite !results_shown_app. subst page. rewrite results_shown_lines.
        cbn [results_shown app]. rewrite app_assoc, Hpage. exact Hshown.
      * destruct Hend as [H | (H & H1 & H2)]; [left; exact H | right].
        split; [exact H | lia].
    + injection Hrun as <- <-. exists (cp + 1).
      split; [lia|]. split; [lia|]. split.
      * rewrite !results_shown_app. subst page. rewrite results_shown_lines.
        cbn [results_shown app]. rewrite app_nil_r. exact Hpage.
      * right. split; [left; reflexivity | lia].
    + injection Hrun as <- <-. exists (cp + 1).
      split; [lia|]. split; [lia|]. split.
      * rewrite !results_shown_app. subst page. rewrite results_shown_lines.
        cbn [results_shown app]. rewrite app_nil_r. exact Hpage.
      * right. split; [right; reflexivity | lia].
  - apply Z.ltb_ge in Enext. injection Hrun as <- <-. exists (cp + 1).
    split; [lia|]. split; [lia|]. split.
    + rewrite !results_shown_app. subst page. rewrite results_shown_lines.
      cbn [results_shown app]. rewrite app_nil_r. exact Hpage.
    + left. split; [reflexivity | lia].
Qed.

(** With only the space bar pressed, and often enough, the loop finishes. *)
Lemma page_loop_spaces : forall fuel cp keys ls e,
  Z.to_nat tp - cp < fuel ->
  all_space keys = true ->
  Z.to_nat tp <= cp + 1 + List.length keys ->
  page_loop channelId ch_stats fuel results (Z.of_nat p) (Z.of_nat n) tp
    (Z.of_nat cp) keys = (ls, e) ->
  e = Finished.
Proof.
  induction fuel as [|fuel IH]; intros cp keys ls e Hfuel Hsp Hkeys Hrun; [lia|].
  cbn [page_loop] in Hrun.
  destruct (Z.of_nat cp <? tp)%Z eqn:Ecp.
  2:{ injection Hrun as _ <-. reflexivity. }
  apply Z.ltb_lt in Ecp. pose proof (page_inside cp Ecp) as Hin.
  cbv zeta in Hrun. rewrite (page_range cp Hin) in Hrun.
  replace (Z.of_nat cp + 1)%Z with (Z.of_nat (cp + 1)) in Hrun by lia.
  destruct (Z.of_nat (cp + 1) <? tp)%Z eqn:Enext.
  2:{ injection Hrun as _ <-. reflexivity. }
  apply Z.ltb_lt in Enext.
  destruct keys as [|[] keys]; try discriminate.
  - cbn in Hkeys. lia.
  - cbn [wait_key] in Hrun.
    destruct (page_loop channelId ch_stats fuel results _ _ tp (Z.of_nat (cp + 1)) keys)
      as [ls' e'] eqn:Erec.
    injection Hrun as _ <-.
    apply (IH (cp + 1) keys ls' e'); try assumption; cbn in Hkeys; lia.
Qed.

End Pages.

(** X16: for a non-empty list of search results of the documented form
    (every [id] an object, every snippet with its title and a date that is
    a text) and a positive page size, whatever keys are pressed: the loop
    over the pages comes to an end; unless an exception ends the display,
    the results it has shown are those with a non-empty [videoId] among the
    first [k] pages of the list, for some [k] of at least 1, each once, in
    order, numbered by its position; when the display finishes, these are
    all the results; and when nothing but the space bar is pressed, at
    least once for every page but the last, the display is neither stopped
    nor left waiting for a key. *)
Theorem display_results_paginated_shows_pages results page_size keys ls e :
  results <> [] ->
  (0 < page_size)%Z ->
  object_ids results = true ->
  display_results_paginated channelId ch_stats results page_size keys = (ls, e) ->
  e <> NoFuel /\
  ((forall x, e <> Failed x) ->
   exists k, 1 <= k /\
     results_shown ls = result_lines channelId ch_stats 0 (firstn (k * Z.to_nat page_size) results)) /\
  (e = Finished -> results_shown ls = result_lines channelId ch_stats 0 results) /\
  (all_space keys = true ->
   (Z.of_nat (List.length results) <= page_size * (Z.of_nat (List.length keys) + 1))%Z ->
   e <> Stopped /\ e <> Waiting).
Proof.
  intros Hne Hps Hobj Hrun. unfold display_results_paginated in Hrun.
  destruct results as [|it0 rest] eqn:Eres; [congruence|]. rewrite <- Eres in *.
  clear Hne.
  replace (page_size =? 0)%Z with false in Hrun by (symmetry; apply Z.eqb_neq; lia).
  cbv zeta in Hrun.
  set (p := Z.to_nat page_size).
  assert (Hp : 0 < p) by (subst p; lia).
  assert (Eps : page_size = Z.of_nat p) by (subst p; lia).
  rewrite Eps in Hrun |- *.
  set (n := List.length results) in *.
  set (tp := ((Z.of_nat n + Z.of_nat p - 1) / Z.of_nat p)%Z) in *.
  destruct (page_loop channelId ch_stats (S (Z.to_nat tp)) results _ _ tp 0 keys)
    as [ls' e'] eqn:Eloop.
  injection Hrun as <- <-.
  pose proof (tp_nonneg results p Hp) as Htp. fold n tp in Htp.
  destruct (page_loop_spec results p Hp Hobj (S (Z.to_nat tp)) 0 keys ls' e'
              ltac:(fold n tp; lia) ltac:(fold n tp; lia) Eloop)
    as (k & _ & Hk & Hshown & Hend).
  cbn [Nat.mul firstn result_lines app] in Hshown. fold n tp in Hk, Hend.
  assert (Hn : 0 < n) by (subst n; rewrite Eres; cbn; lia).
  assert (Htp1 : (0 < tp)%Z).
  { subst tp. apply Z.div_str_pos. lia. }
  assert (Hall : Z.of_nat k = tp -> firstn (k * p) results = results).
  { intros E. apply firstn_all2. fold n.
    destruct k as [|k]; [lia|].
    pose proof (last_page_covers results p Hp k) as H. fold n tp in H.
    replace (k + 1) with (S k) in H by lia. apply H. lia. }
  cbn [results_shown app].
  split; [|split; [|split]].
  - destruct Hend as [[-> _] | [[-> | ->] _]]; discriminate.
  - intros _. exists k. split; [|exact Hshown].
    destruct Hend as [[_ H] | [_ [H _]]]; lia.
  - intros ->. rewrite Hshown.
    destruct Hend as [[_ H] | [[H | H] _]]; try discriminate.
    rewrite (Hall H). reflexivity.
  - intros Hsp Hkeys.
    assert (E : e' = Finished).
    { apply (page_loop_spaces results p Hp Hobj (S (Z.to_nat tp)) 0 keys ls' e');
        try assumption; fold n tp; [lia|].
      assert (tp < Z.of_nat (List.length keys) + 2)%Z; [|lia].
      subst tp. apply Z.div_lt_upper_bound; [lia | nia]. }
    rewrite E. split; discriminate.
Qed.

End DisplayFacts.

Lemma display_results_paginated_shows_pages_witness :
  Sim.results "a" 5 <> [] /\
  object_ids (Sim.results "a" 5) = true /\
  all_space [Space; Space] = true /\
  snd (display_results_paginated (fun _ => None) [] (Sim.results "a" 5) 2 [Space; Space])
  = Finished /\
  results_shown
    (fst (display_results_paginated (fun _ => None) [] (Sim.results "a" 5) 2
            [Space; Space]))
  = result_lines (fun _ => None) [] 0 (Sim.results "a" 5) /\
  snd (display_results_paginated (fun _ => None) [] (Sim.results "a" 5) 2
         [OtherKey; Escape; Space]) = Stopped /\
  (exists k, 1 <= k /\
     results_shown
       (fst (display_results_paginated (fun _ => None) [] (Sim.results "a" 5) 2
               [OtherKey; Escape; Space]))
     = result_lines (fun _ => None) [] 0 (firstn (k * 2) (Sim.results "a" 5))) /\
  List.length
    (results_shown
       (fst (display_results_paginated (fun _ => None) [] (Sim.results "a" 5) 2
               [OtherKey; Escape; Space]))) = 2.
Proof.
  assert (Hne : Sim.results "a" 5 <> []) by discriminate.
  destruct (display_results_paginated_shows_pages (fun _ => None) []
              (Sim.results "a" 5) 2 [Space; Space] _ _ Hne eq_refl eq_refl
              (surjective_pairing _))
    as (_ & _ & Hall & _).
  destruct (display_results_paginated_shows_pages (fun _ => None) []
              (Sim.results "a" 5) 2 [OtherKey; Escape; Space] _ _ Hne eq_refl eq_refl
              (surjective_pairing _))
    as (_ & Hshown & _ & _).
  split; [exact Hne|]. split; [reflexivity|]. split; [reflexivity|].
  split; [reflexivity|]. split; [exact (Hall eq_refl)|].
  split; [reflexivity|]. split; [|reflexivity].
  apply Hshown. intros x. discriminate.
Defined.

(* ===================================================================== *)
(** ** Properties of download_selected *)
(* ===================================================================== *)

Lemma downloadable_spec : forall results items,
  downloadable results = Some items ->
  forall it v, In (it, v) items ->
    In it results /\ it_id it = IdObj (Some v) /\ v <> "".
Proof.
  induction results as [|r rest IH]; intros items H it v Hin; cbn in H.
  - injection H as <-. destruct Hin.
  - destruct (it_id r) as [s|vid] eqn:Eid; [discriminate|].
    destruct (downloadable rest) as [items'|]; [|discriminate].
    assert (Hrest : In (it, v) items' ->
              (r = it \/ In it rest) /\ it_id it = IdObj (Some v) /\ v <> "").
    { intros Hin'. destruct (IH items' eq_refl it v Hin') as (H1 & H2 & H3). auto. }
    destruct vid as [v0|]; [|injection H as <-; exact (Hrest Hin)].
    destruct (PyStr.truthy v0) eqn:Et; injection H as <-; [|exact (Hrest Hin)].
    destruct Hin as [E|Hin]; [|exact (Hrest Hin)].
    injection E as <- <-. split; [left; reflexivity|]. split; [exact Eid|].
    intros E. rewrite E in Et. discriminate.
Qed.

(** The subscripts of the selection are guarded: none can be out of range. *)
Lemma pick_total {A} (items : list A) : forall idxs,
  exists sel, pick items idxs = Some sel /\
    (forall x, In x sel -> In x items) /\ List.length sel <= List.length idxs.
Proof.
  induction idxs as [|i rest (sel & Hsel & Hin & Hlen)]; cbn [pick].
  - exists []. split; [reflexivity|]. split; [intros x [] | cbn; lia].
  - destruct ((0 <=? i) && (i <? Z.of_nat (List.length items)))%Z eqn:Ei.
    + apply andb_prop in Ei as [H0 Hn]. apply Z.leb_le in H0. apply Z.ltb_lt in Hn.
      replace i with (Z.of_nat (Z.to_nat i)) by lia. rewrite py_nth_nat.
      destruct (nth_error items (Z.to_nat i)) as [x|] eqn:Ex.
      2:{ apply nth_error_None in Ex. lia. }
      rewrite Hsel. exists (x :: sel). split; [reflexivity|]. split.
      * intros y [<-|Hy]; [exact (nth_error_In _ _ Ex) | exact (Hin y Hy)].
      * cbn. lia.
    + exists sel. split; [exact Hsel|]. split; [exact Hin | cbn; lia].
Qed.

Lemma map_opt_none {A B} (f : A -> option B) (l : list A) :
  map_opt f l = None -> exists x, In x l /\ f x = None.
Proof.
  induction l as [|x l IH]; cbn; [discriminate|].
  destruct (f x) eqn:Ex; [|intros _; exists x; auto].
  destruct (map_opt f l); [discriminate|]. intros _.
  destruct (IH eq_refl) as (y & Hy & Ey). exists y. auto.
Qed.

Lemma map_opt_fails {A B} (f : A -> option B) (l : list A) (x : A) :
  In x l -> f x = None -> map_opt f l = None.
Proof.
  induction l as [|y l IH]; cbn; [intros []|].
  intros [->|Hin] Ex.
  - rewrite Ex. reflexivity.
  - destruct (f y); [|reflexivity]. rewrite (IH Hin Ex). reflexivity.
Qed.

(** X17: [download_selected] hands the downloader only links of results
    that carry a non-empty [videoId], and never an empty list; typing
    [all], in any letter case and with spaces around, selects every such
    result in order; and any other input is reported invalid exactly when
    one of its comma-separated parts is not a numeral that [int()] converts
    (no integer literal, or one of more than 4300 digits): a number out of
    range is ignored, it cannot cause an error. *)
Theorem download_selected_links (results : list Item) (typed : string) :
  (forall urls, download_selected results typed = SelDownload urls ->
     urls <> [] /\
     forall u, In u urls ->
       exists it v, In it results /\ it_id it = IdObj (Some v) /\ v <> "" /\
                    u = watch_url v) /\
  (forall items, downloadable results = Some items -> items <> [] ->
     lower (PyStr.strip typed) = "all" ->
     download_selected results typed
     = SelDownload (map (fun iv => watch_url (snd iv)) items)) /\
  (download_selected results typed = InvalidInput ->
     exists part, In part (split_on "," (lower (PyStr.strip typed))) /\
                  py_int (PyStr.strip part) = None) /\
  (forall items part, downloadable results = Some items -> items <> [] ->
     lower (PyStr.strip typed) <> "all" ->
     In part (split_on "," (lower (PyStr.strip typed))) ->
     py_int (PyStr.strip part) = None ->
     download_selected results typed = InvalidInput).
Proof.
  unfold download_selected.
  destruct (downloadable results) as [items|] eqn:Ed.
  2:{ split; [discriminate|]. split; [discriminate|]. split; discriminate. }
  destruct items as [|i0 items0] eqn:Ei.
  { split; [discriminate|]. split; [congruence|]. split; [discriminate | congruence]. }
  rewrite <- Ei in *.
  set (ch := lower (PyStr.strip typed)). cbv zeta.
  assert (Hchosen : forall chosen,
            (if String.eqb ch "all" then Some items
             else match map_opt (fun x => option_map (fun n => (n - 1)%Z)
                                            (py_int (PyStr.strip x)))
                          (split_on "," ch) with
                  | None => None
                  | Some idxs => pick items idxs
                  end) = Some chosen ->
            forall iv, In iv chosen -> In iv items).
  { intros chosen H iv Hin. destruct (String.eqb ch "all").
    - injection H as <-. exact Hin.
    - destruct (map_opt _ _) as [idxs|]; [|discriminate].
      destruct (pick_total items idxs) as (sel & Hsel & Hsub & _).
      rewrite Hsel in H. injection H as <-. exact (Hsub iv Hin). }
  split; [|split; [|split]].
  - intros urls H.
    destruct (if String.eqb ch "all" then _ else _) as [[|s0 sel]|] eqn:Ec;
      try discriminate.
    assert (E : urls = map (fun iv : Item * string => watch_url (snd iv)) (s0 :: sel))
      by congruence.
    rewrite E. split; [discriminate|].
    intros u Hu. apply in_map_iff in Hu as ([it v] & <- & Hin).
    apply (Hchosen _ eq_refl) in Hin.
    destruct (downloadable_spec results items Ed it v Hin) as (H1 & H2 & H3).
    exists it, v. auto.
  - intros items' [= <-] Hne Hall. fold ch in Hall. rewrite Hall. cbn [String.eqb].
    rewrite Ei. reflexivity.
  - intros H.
    destruct (String.eqb ch "all").
    { rewrite Ei in H. discriminate. }
    destruct (map_opt _ (split_on "," ch)) as [idxs|] eqn:Em.
    + destruct (pick_total items idxs) as (sel & Hsel & _).
      rewrite Hsel in H. destruct sel; discriminate.
    + apply map_opt_none in Em as (part & Hpart & Epart).
      exists part. split; [exact Hpart|].
      destruct (py_int (PyStr.strip part)); [discriminate | reflexivity].
  - intros items' part _ _ Hall Hpart Epart. fold ch in Hall, Hpart.
    destruct (String.eqb ch "all") eqn:Eall.
    { apply String.eqb_eq in Eall. contradiction. }
    rewrite (map_opt_fails _ _ part Hpart); [reflexivity|].
    rewrite Epart. reflexivity.
Qed.

Lemma download_selected_links_witness :
  download_selected (Sim.results "a" 5) " 1, 3 ,9, 0,-2, 3"
  = SelDownload ["https://www.youtube.com/watch?v=a0";
                 "https://www.youtube.com/watch?v=a2";
                 "https://www.youtube.com/watch?v=a2"] /\
  lower (PyStr.strip " ALL ") = "all" /\
  download_selected (Sim.results "a" 2) " ALL "
  = SelDownload ["https://www.youtube.com/watch?v=a0";
                 "https://www.youtube.com/watch?v=a1"] /\
  download_selected (Sim.results "a" 3) "1,x" = InvalidInput /\
  (exists part, In part ["1"; "x"] /\ py_int (PyStr.strip part) = None) /\
  py_int (PyStr.strip long_numeral) = None /\
  download_selected (Sim.results "a" 3) ("2," ++ long_numeral) = InvalidInput.
Proof.
  destruct (download_selected_links (Sim.results "a" 2) " ALL ") as (_ & Hall & _).
  destruct (download_selected_links (Sim.results "a" 3) "1,x") as (_ & _ & Hinv & _).
  destruct (download_selected_links (Sim.results "a" 3) ("2," ++ long_numeral))
    as (_ & _ & _ & Hlong).
  assert (N : py_int (PyStr.strip long_numeral) = None) by (vm_compute; reflexivity).
  split; [reflexivity|]. split; [reflexivity|].
  split; [exact (Hall _ eq_refl ltac:(discriminate) eq_refl)|].
  split; [reflexivity|]. split; [exact (Hinv eq_refl)|]. split; [exact N|].
  refine (Hlong _ long_numeral eq_refl ltac:(discriminate) _ _ N).
  - vm_compute. discriminate.
  - right. left. vm_compute. reflexivity.
Defined.
